(** * The car service: handlers, orchestration and data access

    A shallow embedding of the Go packages [internal/model],
    [internal/repository], [internal/service] and [internal/api], together
    with the part of the Go runtime and of the PostgreSQL server that their
    behaviour depends on, followed by the properties of the specification.

    Conventions.
    - Go's [int] and [int64] are 64-bit two's-complement integers: they are
      integers of [Z] and every arithmetic result goes through [Go.wrap64].
    - [float64] amounts are rationals of [Q], each standing for the decimal
      number that its shortest text denotes; NaN and the infinities are
      outside the model.  A [DECIMAL(15,2)] column rounds what it is sent
      to two decimals.
    - A [string] is a sequence of bytes, taken to be the UTF-8 encoding of
      a text without the character NUL; the server counts characters.
    - Instants are counted in the microseconds a TIMESTAMP column keeps.
    - A function returning [(T, error)] returns a [result T].
    - The database is a component of the [World] that every operation
      threads; the world also carries the faults the environment injects
      into the next statements and the trace of the statements sent. *)

From Stdlib Require Import ZArith QArith Qround String Ascii List Bool Lia.
From Stdlib Require Import DecimalString DecimalPos Permutation Sorted.
Import ListNotations.
Local Open Scope Z_scope.

(* ================================================================== *)
(** * The Go runtime *)

Module Go.

Definition MinInt64 : Z := - 2 ^ 63.
Definition MaxInt64 : Z := 2 ^ 63 - 1.
Definition MaxUint64 : Z := 2 ^ 64 - 1.

(** The value an [int] holds after an arithmetic operation whose
    mathematical result is [z]. *)
Definition wrap64 (z : Z) : Z := (z + 2 ^ 63) mod 2 ^ 64 - 2 ^ 63.

Definition is_int64 (z : Z) : Prop := MinInt64 <= z <= MaxInt64.

(** [time.Time]: an instant, counted from the zero value [time.Time{}]. *)
Definition Time : Type := Z.

(** The verb [%d]. *)
Definition fmt_d (z : Z) : string := NilZero.string_of_int (Z.to_int z).

(** Error values.  The three sentinels are package-level variables and are
    compared by identity; [errorString] is what [errors.New] and a
    [fmt.Errorf] without [%w] allocate; [foreignError] is an error value
    made outside this program (driver, server, JSON decoder, validator). *)
Inductive error : Type :=
| ErrNoRows
| ErrSyntax
| ErrRange
| NumError (Func Num : string) (Err : error)
| foreignError (msg : string)
| errorString (msg : string).

(** [err == target] on error values: only a sentinel is identical to a
    sentinel, a freshly allocated value is identical to nothing else. *)
Definition same (err target : error) : bool :=
  match err, target with
  | ErrNoRows, ErrNoRows => true
  | ErrSyntax, ErrSyntax => true
  | ErrRange, ErrRange => true
  | _, _ => false
  end.

(** [errors.Is]: follows [Unwrap], which only [*NumError] implements. *)
Fixpoint Is (err target : error) : bool :=
  same err target ||
  match err with
  | NumError _ _ inner => Is inner target
  | _ => false
  end.

(** Library functions that are taken as given: [strconv.Quote] and
    [Time.Format(time.RFC3339)]. *)
Class Lib : Type := {
  Quote : string -> string;
  Format_RFC3339 : Time -> string
}.

(** The method [Error()]. *)
Fixpoint Error `{Lib} (e : error) : string :=
  match e with
  | ErrNoRows => "sql: no rows in result set"
  | ErrSyntax => "invalid syntax"
  | ErrRange => "value out of range"
  | NumError f n inner =>
      "strconv." ++ f ++ ": parsing " ++ Quote n ++ ": " ++ Error inner
  | foreignError msg => msg
  | errorString msg => msg
  end%string.

(** A call that returns [(T, error)]. *)
Inductive result (A : Type) : Type :=
| Ok (a : A)
| Err (e : error).
Arguments Ok {A} a.
Arguments Err {A} e.

Definition is_Ok {A} (r : result A) : bool :=
  match r with Ok _ => true | Err _ => false end.

End Go.
Import Go.

(* ================================================================== *)
(** * Package strconv (base 10, 64 bits) *)

Module strconv.

Definition digit (c : ascii) : option Z :=
  let n := Z.of_N (N_of_ascii c) in
  if (48 <=? n) && (n <=? 57) then Some (n - 48) else None.

Inductive scan : Type :=
| Scanned (n : Z)
| BadSyntax
| OutOfRange.

(** The digit loop of [ParseUint]: [cutoff] is the least number whose
    product with the base overflows; a range error is reported as soon as
    the digits read overflow, before the rest of the text is looked at. *)
Definition cutoff : Z := MaxUint64 / 10 + 1.

Fixpoint ParseUint_loop (n : Z) (s : string) : scan :=
  match s with
  | EmptyString => Scanned n
  | String c s' =>
      match digit c with
      | None => BadSyntax
      | Some d =>
          if cutoff <=? n then OutOfRange
          else
            let n1 := n * 10 + d in
            if MaxUint64 <? n1 then OutOfRange else ParseUint_loop n1 s'
      end
  end.

Definition ParseUint (s : string) : scan :=
  match s with
  | EmptyString => BadSyntax
  | _ => ParseUint_loop 0 s
  end.

Definition syntaxError (fn str : string) : error := NumError fn str ErrSyntax.
Definition rangeError (fn str : string) : error := NumError fn str ErrRange.

Definition is_sign (c : ascii) : bool :=
  Ascii.eqb c "+"%char || Ascii.eqb c "-"%char.

(** [ParseInt(s, 10, 64)], with [fn] the function named in the error. *)
Definition ParseInt_as (fn s : string) : Z * option error :=
  match s with
  | EmptyString => (0, Some (syntaxError fn s))
  | String c rest =>
      let neg := Ascii.eqb c "-"%char in
      let digits := if is_sign c then rest else s in
      match ParseUint digits with
      | BadSyntax => (0, Some (syntaxError fn s))
      | r =>
          let un := match r with Scanned n => n | _ => MaxUint64 end in
          if negb neg && (2 ^ 63 <=? un) then (MaxInt64, Some (rangeError fn s))
          else if neg && (2 ^ 63 <? un) then (MinInt64, Some (rangeError fn s))
          else ((if neg then - un else un), None)
      end
  end.

Definition ParseInt (s : string) : Z * option error := ParseInt_as "ParseInt" s.

(** The fast path of [Atoi], taken by a text of 1 to 18 bytes. *)
Fixpoint Atoi_loop (n : Z) (s : string) : option Z :=
  match s with
  | EmptyString => Some n
  | String c s' =>
      match digit c with
      | None => None
      | Some d => Atoi_loop (n * 10 + d) s'
      end
  end.

Definition Atoi (s : string) : Z * option error :=
  let sLen := Z.of_nat (String.length s) in
  if (0 <? sLen) && (sLen <? 19) then
    match s with
    | EmptyString => (0, Some (syntaxError "Atoi" s))
    | String c rest =>
        let digits := if is_sign c then rest else s in
        match digits with
        | EmptyString => (0, Some (syntaxError "Atoi" s))
        | _ =>
            match Atoi_loop 0 digits with
            | None => (0, Some (syntaxError "Atoi" s))
            | Some n => ((if Ascii.eqb c "-"%char then - n else n), None)
            end
        end
    end
  else ParseInt_as "Atoi" s.

End strconv.

(* ================================================================== *)
(** * Package database/sql and the PostgreSQL server *)

Module sql.

Record NullString : Type := { String_ : string; Valid : bool }.

(** [NullString.Value]: what is sent to the server. *)
Definition Value (ns : NullString) : option string :=
  if Valid ns then Some (String_ ns) else None.

(** [NullString.Scan]: what is read from a nullable column. *)
Definition ScanNull (v : option string) : NullString :=
  match v with
  | Some s => {| String_ := s; Valid := true |}
  | None => {| String_ := EmptyString; Valid := false |}
  end.

(** A row of the table [cars] (migration 000001). *)
Record Row : Type := {
  id : Z;
  name : string;
  brand : string;
  manufacturing_value : Q;
  description : option string;
  created_at : Time;
  updated_at : Time;
  deleted_at : option Time
}.

(** The eight statements of the repository, with their arguments. *)
Inductive Stmt : Type :=
| InsertCar (n b : string) (v : Q) (d : option string) (created updated : Time)
| SelectByID (i : Z)
| SelectByName (n : string)
| SelectByBrand (b : string)
| SelectByPriceRange (lo hi : Q)
| SelectPage (limit offset : Z)
| UpdateCar (n b : string) (v : Q) (d : option string) (updated : Time) (i : Z)
| SoftDelete (at_ : Time) (i : Z).

(** What the environment can do to a statement: keep it from running (no
    connection, a closed pool, a cancelled context), make the server fail
    while it runs it (a timeout, a deadlock, a cancelled query: what the
    statement did to the table is undone, a value it drew from the
    sequence is not given back), fail while a row is scanned, or fail
    after the rows (rows.Err, RowsAffected).  What the table itself
    refuses, by its types and its CHECK, is no fault: it is decided by the
    statement and the table. *)
Inductive Fault : Type :=
| FailStmt (msg : string)
| FailExec (msg : string)
| FailScan (msg : string)
| FailRows (msg : string).

Record World : Type := {
  cars : list Row;
  cars_id_seq : Z;                 (* the next value of the BIGSERIAL *)
  faults : list (option Fault);    (* one entry per statement to come *)
  trace : list Stmt                (* the statements sent so far *)
}.

Definition M (A : Type) : Type := World -> A * World.
Definition ret {A} (a : A) : M A := fun w => (a, w).
Definition bind {A B} (m : M A) (k : A -> M B) : M B :=
  fun w => let (a, w') := m w in k a w'.

Definition live (r : Row) : bool :=
  match deleted_at r with None => true | Some _ => false end.

(** Sending a statement records it and consumes the next fault. *)
Definition send (q : Stmt) : M (option Fault) := fun w =>
  (match faults w with f :: _ => f | [] => None end,
   {| cars := cars w; cars_id_seq := cars_id_seq w;
      faults := tl (faults w); trace := trace w ++ [q] |}).

Definition table : M (list Row) := fun w => (cars w, w).

Definition store (rows : list Row) (next : Z) : M unit := fun w =>
  (tt, {| cars := rows; cars_id_seq := next;
          faults := faults w; trace := trace w |}).

Definition sequence : M Z := fun w => (cars_id_seq w, w).

(** ORDER BY id: a stable insertion sort on the identifier. *)
Fixpoint insert_by_id (r : Row) (rs : list Row) : list Row :=
  match rs with
  | [] => [r]
  | r' :: rs' => if id r <=? id r' then r :: rs else r' :: insert_by_id r rs'
  end.

Definition order_by_id (rs : list Row) : list Row :=
  fold_right insert_by_id [] rs.

(** The rows a SELECT statement yields on a table, or the message of the
    server when it rejects the statement: PostgreSQL refuses a negative
    OFFSET (SQLSTATE 2201X) and a negative LIMIT (2201W), the offset being
    evaluated first.  A message is the server's own text; the driver may
    prefix it. *)
Definition select (q : Stmt) (t : list Row) : string + list Row :=
  match q with
  | SelectByID i => inr (filter (fun r => (id r =? i) && live r) t)
  | SelectByName n => inr (filter (fun r => String.eqb (name r) n && live r) t)
  | SelectByBrand b => inr (filter (fun r => String.eqb (brand r) b && live r) t)
  | SelectByPriceRange lo hi =>
      inr (filter (fun r => (Qle_bool lo (manufacturing_value r)
                             && Qle_bool (manufacturing_value r) hi) && live r) t)
  | SelectPage limit offset =>
      if offset <? 0 then inl "OFFSET must not be negative"%string
      else if limit <? 0 then inl "LIMIT must not be negative"%string
      else inr (firstn (Z.to_nat limit)
                  (skipn (Z.to_nat offset) (order_by_id (filter live t))))
  | _ => inr []
  end.

(** The condition [WHERE id = $n AND deleted_at IS NULL]. *)
Definition targets (i : Z) (r : Row) : bool := (id r =? i) && live r.

(** ** The columns [name], [brand] and [manufacturing_value]

    The characters of a UTF-8 text are counted by its bytes that are no
    continuation byte (10xxxxxx). *)
Definition continuation (c : ascii) : bool :=
  let n := N_of_ascii c in ((128 <=? n) && (n <? 192))%N.

Fixpoint characters (s : string) : nat :=
  match s with
  | EmptyString => O
  | String c s' => if continuation c then characters s' else S (characters s')
  end.

(** The first [n] characters of a text, and what follows them. *)
Fixpoint split_characters (n : nat) (s : string) : string * string :=
  match s with
  | EmptyString => (EmptyString, EmptyString)
  | String c s' =>
      if continuation c then
        let (kept, excess) := split_characters n s' in (String c kept, excess)
      else
        match n with
        | O => (EmptyString, s)
        | S n' =>
            let (kept, excess) := split_characters n' s' in (String c kept, excess)
        end
  end.

Fixpoint spaces (s : string) : bool :=
  match s with
  | EmptyString => true
  | String c s' => Ascii.eqb c " "%char && spaces s'
  end.

(** A value assigned to a [VARCHAR(n)] column: a text of more than [n]
    characters is refused, unless what exceeds them is spaces, which are
    cut off. *)
Definition varchar (n : nat) (s : string) : option string :=
  let (kept, excess) := split_characters n s in
  if spaces excess then Some kept else None.

(** Rounding of a numeric: to the nearest integer, ties away from zero. *)
Definition round_half_away (q : Q) : Z :=
  if Qle_bool 0 q then Qfloor (q + (1 # 2)) else - Qfloor (- q + (1 # 2)).

(** A value assigned to a [DECIMAL(15,2)] column: it is rounded to two
    decimals, and refused when the result needs more than thirteen digits
    before the point. *)
Definition decimal_15_2 (v : Q) : option Q :=
  let cents := round_half_away (v * (100 # 1)) in
  if Z.abs cents <? 10 ^ 15 then Some (Qred (cents # 100)) else None.

(** [CHECK (manufacturing_value > 0 AND manufacturing_value < 15000000)],
    on the value of the column. *)
Definition check (v : Q) : bool :=
  negb (Qle_bool v 0) && negb (Qle_bool (15000000 # 1) v).

Definition value_too_long : string :=
  "value too long for type character varying(100)".

Definition numeric_field_overflow : string := "numeric field overflow".

Definition check_violated : string :=
  ("new row for relation " ++ String "034"%char "cars"
   ++ String "034"%char " violates check constraint "
   ++ String "034"%char "cars_manufacturing_value_check"
   ++ String "034"%char EmptyString)%string.

(** What the three columns make of the values a statement assigns to
    them, or the message of the server when the table refuses them.  The
    values are brought to the types of the columns in the order of the
    columns, then the CHECK is applied to the row. *)
Definition assign (n b : string) (v : Q) : string + (string * string * Q) :=
  match varchar 100 n with
  | None => inl value_too_long
  | Some n' =>
      match varchar 100 b with
      | None => inl value_too_long
      | Some b' =>
          match decimal_15_2 v with
          | None => inl numeric_field_overflow
          | Some v' =>
              if check v' then inr (n', b', v') else inl check_violated
          end
      end
  end.

(** What an UPDATE statement makes of a row.  The trigger
    [update_cars_updated_at] sets [updated_at] to the server's NOW() on
    every updated row; the server's clock is read at the instant the
    application reads its own. *)
Definition update_row (q : Stmt) (r : Row) : Row :=
  match q with
  | UpdateCar n b v d updated i =>
      if targets i r then
        match assign n b v with
        | inr (n', b', v') =>
            {| id := id r; name := n'; brand := b'; manufacturing_value := v';
               description := d; created_at := created_at r;
               updated_at := updated; deleted_at := deleted_at r |}
        | inl _ => r
        end
      else r
  | SoftDelete at_ i =>
      if targets i r then
        {| id := id r; name := name r; brand := brand r;
           manufacturing_value := manufacturing_value r;
           description := description r; created_at := created_at r;
           updated_at := at_; deleted_at := Some at_ |}
      else r
  | _ => r
  end.

Definition affected (q : Stmt) (t : list Row) : Z :=
  match q with
  | UpdateCar _ _ _ _ _ i | SoftDelete _ i =>
      Z.of_nat (List.length (filter (targets i) t))
  | _ => 0
  end.

(** The message of the server when the table refuses an UPDATE: the
    values of the SET list are assigned row by row, so that a statement
    whose condition no row meets is refused for no value. *)
Definition refused (q : Stmt) (t : list Row) : option string :=
  match q with
  | UpdateCar n b v _ _ i =>
      if existsb (targets i) t then
        match assign n b v with inl m => Some m | inr _ => None end
      else None
  | _ => None
  end.

(** What the server answers once the BIGSERIAL has handed out its last
    value. *)
Definition sequence_exhausted : string :=
  ("nextval: reached maximum value of sequence "
   ++ String "034"%char "cars_id_seq"
   ++ String "034"%char " (9223372036854775807)")%string.

(** [db.QueryRowContext(ctx, insert, ...).Scan(&id)].  The server draws
    the default of [id] from the sequence, then assigns the values to the
    columns: a row that the table refuses is not added, but the value
    drawn for it is spent.  A row that the table accepts is appended, and
    its identifier is returned. *)
Definition QueryRow_insert (q : Stmt) : M (result Z) :=
  bind (send q) (fun f =>
  match f with
  | Some (FailStmt m) => ret (Err (foreignError m))
  | _ =>
    match q with
    | InsertCar n b v d created updated =>
        bind table (fun t => bind sequence (fun next =>
        if MaxInt64 <? next then
          ret (Err (foreignError sequence_exhausted))
        else
          match f, assign n b v with
          | Some (FailExec m), _ | _, inl m =>
              bind (store t (next + 1)) (fun _ => ret (Err (foreignError m)))
          | _, inr (n', b', v') =>
              bind (store (t ++ [{| id := next; name := n'; brand := b';
                                    manufacturing_value := v'; description := d;
                                    created_at := created; updated_at := updated;
                                    deleted_at := None |}]) (next + 1)) (fun _ =>
              match f with
              | Some (FailScan m) | Some (FailRows m) => ret (Err (foreignError m))
              | _ => ret (Ok next)
              end)
          end))
    | _ => ret (Err ErrNoRows)
    end
  end).

(** [db.QueryRowContext(ctx, select, ...).Scan(...)]: the first row, or
    [ErrNoRows] when there is none. *)
Definition QueryRow (q : Stmt) : M (result Row) :=
  bind (send q) (fun f =>
  match f with
  | Some (FailStmt m) | Some (FailExec m) => ret (Err (foreignError m))
  | _ =>
    bind table (fun t =>
    match select q t with
    | inl m => ret (Err (foreignError m))
    | inr [] =>
        match f with
        | Some (FailRows m) => ret (Err (foreignError m))
        | _ => ret (Err ErrNoRows)
        end
    | inr (r :: _) =>
        match f with
        | Some (FailScan m) | Some (FailRows m) => ret (Err (foreignError m))
        | _ => ret (Ok r)
        end
    end)
  end).

(** [db.QueryContext]: the result set, with the failure (if any) that
    [rows.Scan] or [rows.Err] will report. *)
Record Rows : Type := {
  data : list Row;
  scan_failure : option string;
  rows_failure : option string
}.

Definition QueryContext (q : Stmt) : M (result Rows) :=
  bind (send q) (fun f =>
  match f with
  | Some (FailStmt m) | Some (FailExec m) => ret (Err (foreignError m))
  | _ =>
    bind table (fun t =>
    match select q t with
    | inl m => ret (Err (foreignError m))
    | inr rs =>
        ret (Ok {| data := rs;
                   scan_failure := match f with Some (FailScan m) => Some m | _ => None end;
                   rows_failure := match f with Some (FailRows m) => Some m | _ => None end |})
    end)
  end).

(** [db.ExecContext]: the [sql.Result], that is what [RowsAffected]
    returns.  A statement that the table refuses changes no row. *)
Definition ExecContext (q : Stmt) : M (result (result Z)) :=
  bind (send q) (fun f =>
  match f with
  | Some (FailStmt m) | Some (FailExec m) => ret (Err (foreignError m))
  | _ =>
    bind table (fun t => bind sequence (fun next =>
    match refused q t with
    | Some m => ret (Err (foreignError m))
    | None =>
        bind (store (map (update_row q) t) next) (fun _ =>
        match f with
        | Some (FailScan m) | Some (FailRows m) => ret (Ok (Err (foreignError m)))
        | _ => ret (Ok (Ok (affected q t)))
        end)
    end))
  end).

End sql.

Notation "x <- m ;; k" := (sql.bind m (fun x => k))
  (at level 61, m at next level, right associativity).

(* ================================================================== *)
(** * Package model *)

Module model.

Module Car.
Record t : Type := {
  ID : Z;
  Name : string;
  Brand : string;
  ManufacturingValue : Q;
  Description : sql.NullString;
  CreatedAt : Time;
  UpdatedAt : Time
}.
End Car.

Module CarRequest.
Record t : Type := {
  Name : string;
  Brand : string;
  ManufacturingValue : Q;
  Description : option string
}.
End CarRequest.

Module CarResponse.
Record t : Type := {
  ID : Z;
  Name : string;
  Brand : string;
  ManufacturingValue : Q;
  Description : option string;
  CreatedAt : string;
  UpdatedAt : string
}.
End CarResponse.

Section WithLib.
Context {lib : Lib}.

Definition ToResponse (car : Car.t) : CarResponse.t :=
  let desc :=
    if sql.Valid (Car.Description car)
    then Some (sql.String_ (Car.Description car)) else None in
  {| CarResponse.ID := Car.ID car;
     CarResponse.Name := Car.Name car;
     CarResponse.Brand := Car.Brand car;
     CarResponse.ManufacturingValue := Car.ManufacturingValue car;
     CarResponse.Description := desc;
     CarResponse.CreatedAt := Format_RFC3339 (Car.CreatedAt car);
     CarResponse.UpdatedAt := Format_RFC3339 (Car.UpdatedAt car) |}.

End WithLib.

Definition ToModel (cr : CarRequest.t) : Car.t :=
  let desc :=
    match CarRequest.Description cr with
    | Some d => {| sql.String_ := d; sql.Valid := true |}
    | None => {| sql.String_ := EmptyString; sql.Valid := false |}
    end in
  {| Car.ID := 0;
     Car.Name := CarRequest.Name cr;
     Car.Brand := CarRequest.Brand cr;
     Car.ManufacturingValue := CarRequest.ManufacturingValue cr;
     Car.Description := desc;
     Car.CreatedAt := 0;
     Car.UpdatedAt := 0 |}.

Definition UpdateFromRequest (c : Car.t) (req : CarRequest.t) : Car.t :=
  {| Car.ID := Car.ID c;
     Car.Name := CarRequest.Name req;
     Car.Brand := CarRequest.Brand req;
     Car.ManufacturingValue := CarRequest.ManufacturingValue req;
     Car.Description :=
       match CarRequest.Description req with
       | Some d => {| sql.String_ := d; sql.Valid := true |}
       | None => {| sql.String_ := EmptyString; sql.Valid := false |}
       end;
     Car.CreatedAt := Car.CreatedAt c;
     Car.UpdatedAt := Car.UpdatedAt c |}.

End model.
Import model.

(* ================================================================== *)
(** * Package repository *)

Module repository.
Import sql.

(** The seven columns every SELECT of the repository reads into a car. *)
Definition scan (r : Row) : Car.t :=
  {| Car.ID := id r;
     Car.Name := name r;
     Car.Brand := brand r;
     Car.ManufacturingValue := manufacturing_value r;
     Car.Description := ScanNull (description r);
     Car.CreatedAt := created_at r;
     Car.UpdatedAt := updated_at r |}.

Section WithLib.
Context {lib : Lib}.

Definition Create (now : Time) (car : Car.t) : M (result Z) :=
  r <- QueryRow_insert
         (InsertCar (Car.Name car) (Car.Brand car) (Car.ManufacturingValue car)
                    (Value (Car.Description car)) now now) ;;
  match r with
  | Err err => ret (Err (errorString ("failed to create car: " ++ Error err)))
  | Ok id => ret (Ok id)
  end.

Definition GetByID (id : Z) : M (result Car.t) :=
  r <- QueryRow (SelectByID id) ;;
  match r with
  | Err err =>
      if Is err ErrNoRows
      then ret (Err (errorString ("car with ID " ++ fmt_d id ++ " not found")))
      else ret (Err (errorString ("failed to get car: " ++ Error err)))
  | Ok row => ret (Ok (scan row))
  end.

Definition GetByName (name : string) : M (result Car.t) :=
  r <- QueryRow (SelectByName name) ;;
  match r with
  | Err err =>
      if Is err ErrNoRows
      then ret (Err (errorString ("car with name " ++ name ++ " not found")))
      else ret (Err (errorString ("failed to get car by name: " ++ Error err)))
  | Ok row => ret (Ok (scan row))
  end.

(** The loop [for rows.Next() { rows.Scan; append }] and the final
    [rows.Err()], shared by the three list queries. *)
Definition collect (rows : Rows) : result (list Car.t) :=
  match data rows, scan_failure rows with
  | _ :: _, Some m => Err (errorString ("failed to scan car row: " ++ m))
  | _, _ =>
      match rows_failure rows with
      | Some m => Err (errorString ("error iterating car rows: " ++ m))
      | None => Ok (map scan (data rows))
      end
  end.

Definition GetByBrand (brand : string) : M (result (list Car.t)) :=
  r <- QueryContext (SelectByBrand brand) ;;
  match r with
  | Err err => ret (Err (errorString ("failed to get cars by brand: " ++ Error err)))
  | Ok rows => ret (collect rows)
  end.

Definition GetByPriceRange (minPrice maxPrice : Q) : M (result (list Car.t)) :=
  r <- QueryContext (SelectByPriceRange minPrice maxPrice) ;;
  match r with
  | Err err =>
      ret (Err (errorString ("failed to get cars by price range: " ++ Error err)))
  | Ok rows => ret (collect rows)
  end.

Definition GetAll (page pageSize : Z) : M (result (list Car.t)) :=
  let offset := wrap64 (wrap64 (page - 1) * pageSize) in
  r <- QueryContext (SelectPage pageSize offset) ;;
  match r with
  | Err err => ret (Err (errorString ("failed to get all cars: " ++ Error err)))
  | Ok rows => ret (collect rows)
  end.

Definition Update (now : Time) (car : Car.t) : M (option error) :=
  r <- ExecContext
         (UpdateCar (Car.Name car) (Car.Brand car) (Car.ManufacturingValue car)
                    (Value (Car.Description car)) now (Car.ID car)) ;;
  match r with
  | Err err => ret (Some (errorString ("failed to update car: " ++ Error err)))
  | Ok (Err err) =>
      ret (Some (errorString ("failed to get rows affected: " ++ Error err)))
  | Ok (Ok rowsAffected) =>
      if rowsAffected =? 0
      then ret (Some (errorString
             ("car with ID " ++ fmt_d (Car.ID car) ++ " not found")))
      else ret None
  end.

Definition Delete (now : Time) (id : Z) : M (option error) :=
  r <- ExecContext (SoftDelete now id) ;;
  match r with
  | Err err => ret (Some (errorString ("failed to delete car: " ++ Error err)))
  | Ok (Err err) =>
      ret (Some (errorString ("failed to get rows affected: " ++ Error err)))
  | Ok (Ok rowsAffected) =>
      if rowsAffected =? 0
      then ret (Some (errorString ("car with ID " ++ fmt_d id ++ " not found")))
      else ret None
  end.

End WithLib.
End repository.

(* ================================================================== *)
(** * Package service *)

Module service.
Import sql.

Definition validateCarRequest (req : option CarRequest.t) : option error :=
  match req with
  | None => Some (errorString "request cannot be nil")
  | Some req =>
      if String.eqb (CarRequest.Name req) EmptyString then
        Some (errorString "car name is required")
      else if String.eqb (CarRequest.Brand req) EmptyString then
        Some (errorString "car brand is required")
      else if Qle_bool (CarRequest.ManufacturingValue req) 0 then
        Some (errorString "manufacturing value must be greater than 0")
      else if Qle_bool (15000000 # 1) (CarRequest.ManufacturingValue req) then
        Some (errorString "manufacturing value must be less than 15,000,000")
      else None
  end.

Section WithLib.
Context {lib : Lib}.

Definition toCarResponses (cars : list Car.t) : list CarResponse.t :=
  map ToResponse cars.

Definition CreateCar (now : Time) (req : option CarRequest.t)
  : M (result CarResponse.t) :=
  match validateCarRequest req, req with
  | Some err, _ => ret (Err err)
  | None, None => ret (Err (errorString "request cannot be nil"))
  | None, Some req =>
      let car := ToModel req in
      existing <- repository.GetByName (Car.Name car) ;;
      match existing with
      | Ok _ =>
          ret (Err (errorString
                 ("car with name " ++ Car.Name car ++ " already exists")))
      | Err _ =>
          created <- repository.Create now car ;;
          match created with
          | Err err =>
              ret (Err (errorString ("failed to create car: " ++ Error err)))
          | Ok id =>
              fetched <- repository.GetByID id ;;
              match fetched with
              | Err err =>
                  ret (Err (errorString
                         ("failed to fetch created car: " ++ Error err)))
              | Ok createdCar => ret (Ok (ToResponse createdCar))
              end
          end
      end
  end.

Definition GetCarByID (id : Z) : M (result CarResponse.t) :=
  if id <=? 0 then ret (Err (errorString "invalid car ID"))
  else
    r <- repository.GetByID id ;;
    match r with
    | Err err => ret (Err (errorString ("failed to get car: " ++ Error err)))
    | Ok car => ret (Ok (ToResponse car))
    end.

Definition GetCarByName (name : string) : M (result CarResponse.t) :=
  if String.eqb name EmptyString then ret (Err (errorString "car name cannot be empty"))
  else
    r <- repository.GetByName name ;;
    match r with
    | Err err => ret (Err (errorString ("failed to get car: " ++ Error err)))
    | Ok car => ret (Ok (ToResponse car))
    end.

Definition GetCarsByBrand (brand : string) : M (result (list CarResponse.t)) :=
  if String.eqb brand EmptyString then ret (Err (errorString "brand name cannot be empty"))
  else
    r <- repository.GetByBrand brand ;;
    match r with
    | Err err =>
        ret (Err (errorString ("failed to get cars by brand: " ++ Error err)))
    | Ok cars => ret (Ok (toCarResponses cars))
    end.

Definition GetCarsByPriceRange (minPrice maxPrice : Q)
  : M (result (list CarResponse.t)) :=
  if negb (Qle_bool 0 minPrice) || negb (Qle_bool 0 maxPrice)
     || negb (Qle_bool minPrice maxPrice)
  then ret (Err (errorString "invalid price range"))
  else
    r <- repository.GetByPriceRange minPrice maxPrice ;;
    match r with
    | Err err =>
        ret (Err (errorString
               ("failed to get cars by price range: " ++ Error err)))
    | Ok cars => ret (Ok (toCarResponses cars))
    end.

Definition GetAllCars (page pageSize : Z) : M (result (list CarResponse.t)) :=
  let page := if page <? 1 then 1 else page in
  let pageSize := if (pageSize <? 1) || (100 <? pageSize) then 10 else pageSize in
  r <- repository.GetAll page pageSize ;;
  match r with
  | Err err => ret (Err (errorString ("failed to get all cars: " ++ Error err)))
  | Ok cars => ret (Ok (toCarResponses cars))
  end.

Definition UpdateCar (now : Time) (id : Z) (req : option CarRequest.t)
  : M (result CarResponse.t) :=
  if id <=? 0 then ret (Err (errorString "invalid car ID"))
  else
    match validateCarRequest req, req with
    | Some err, _ => ret (Err err)
    | None, None => ret (Err (errorString "request cannot be nil"))
    | None, Some req =>
        found <- repository.GetByID id ;;
        match found with
        | Err err => ret (Err (errorString ("failed to find car: " ++ Error err)))
        | Ok existingCar =>
            let existingCar := UpdateFromRequest existingCar req in
            updated <- repository.Update now existingCar ;;
            match updated with
            | Some err =>
                ret (Err (errorString ("failed to update car: " ++ Error err)))
            | None =>
                fetched <- repository.GetByID id ;;
                match fetched with
                | Err err =>
                    ret (Err (errorString
                           ("failed to fetch updated car: " ++ Error err)))
                | Ok updatedCar => ret (Ok (ToResponse updatedCar))
                end
            end
        end
    end.

Definition DeleteCar (now : Time) (id : Z) : M (option error) :=
  if id <=? 0 then ret (Some (errorString "invalid car ID"))
  else
    found <- repository.GetByID id ;;
    match found with
    | Err err => ret (Some (errorString ("failed to find car: " ++ Error err)))
    | Ok _ =>
        deleted <- repository.Delete now id ;;
        match deleted with
        | Some err =>
            ret (Some (errorString ("failed to delete car: " ++ Error err)))
        | None => ret None
        end
    end.

End WithLib.
End service.

(* ================================================================== *)
(** * Package api *)

Module api.
Import sql.

Definition StatusOK : Z := 200.
Definition StatusCreated : Z := 201.
Definition StatusNoContent : Z := 204.
Definition StatusBadRequest : Z := 400.
Definition StatusNotFound : Z := 404.
Definition StatusInternalServerError : Z := 500.

Record ErrorResponse : Type := {
  Success : bool;
  Message : string;
  Error_ : string
}.

(** What a handler writes: [c.JSON(code, obj)] or [c.Status(code)]. *)
Inductive Body : Type :=
| JSONCar (car : CarResponse.t)
| JSONCars (cars : list CarResponse.t)
| JSONError (e : ErrorResponse)
| NoBody.

Record Response : Type := { Status : Z; Payload : Body }.

(** The request body as [encoding/json] reads it into a [CarRequest]. *)
Inductive JSON : Type :=
| Malformed (msg : string)
| Decoded (req : CarRequest.t).

(** The [binding] tags of [CarRequest]: [required] on the three fields,
    then [gt=0] and [lt=15000000] on the value; a field reports the first
    tag it fails. *)
Definition field_error (field tag : string) : string :=
  ("Key: 'CarRequest." ++ field ++ "' Error:Field validation for '" ++ field
     ++ "' failed on the '" ++ tag ++ "' tag")%string.

Definition binding_failures (req : CarRequest.t) : list string :=
  (if String.eqb (CarRequest.Name req) EmptyString then [field_error "Name" "required"] else [])
  ++ (if String.eqb (CarRequest.Brand req) EmptyString then [field_error "Brand" "required"] else [])
  ++ (let v := CarRequest.ManufacturingValue req in
      if Qeq_bool v 0 then [field_error "ManufacturingValue" "required"]
      else if Qle_bool v 0 then [field_error "ManufacturingValue" "gt"]
      else if Qle_bool (15000000 # 1) v then [field_error "ManufacturingValue" "lt"]
      else []).

Definition ShouldBindJSON (body : JSON) : result CarRequest.t :=
  match body with
  | Malformed msg => Err (foreignError msg)
  | Decoded req =>
      match binding_failures req with
      | [] => Ok req
      | fs => Err (foreignError (String.concat (String "010"%char EmptyString) fs))
      end
  end.

(** [c.DefaultQuery(key, defaultValue)] on a query that holds the value
    [v] for the key, or none. *)
Definition DefaultQuery (v : option string) (defaultValue : string) : string :=
  match v with Some s => s | None => defaultValue end.

Section WithLib.
Context {lib : Lib}.

Definition handleError (statusCode : Z) (message : string) (err : option error)
  : Response :=
  let errMsg := match err with Some e => Error e | None => EmptyString end in
  {| Status := statusCode;
     Payload := JSONError {| Success := false; Message := message;
                             Error_ := errMsg |} |}.

Definition CreateCar (now : Time) (body : JSON) : M Response :=
  match ShouldBindJSON body with
  | Err err => ret (handleError StatusBadRequest "Invalid request payload" (Some err))
  | Ok req =>
      r <- service.CreateCar now (Some req) ;;
      match r with
      | Err err =>
          ret (handleError StatusInternalServerError "Failed to create car" (Some err))
      | Ok car => ret {| Status := StatusCreated; Payload := JSONCar car |}
      end
  end.

Definition GetCarByID (id_param : string) : M Response :=
  let (id, err) := strconv.ParseInt id_param in
  if (match err with Some _ => true | None => false end) || (id <=? 0) then
    ret (handleError StatusBadRequest "Invalid car ID" err)
  else
    r <- service.GetCarByID id ;;
    match r with
    | Err err =>
        if Is err ErrNoRows
        then ret (handleError StatusNotFound "Car not found" (Some err))
        else ret (handleError StatusInternalServerError "Failed to get car" (Some err))
    | Ok car => ret {| Status := StatusOK; Payload := JSONCar car |}
    end.

Definition GetCarByName (name : string) : M Response :=
  if String.eqb name EmptyString then
    ret (handleError StatusBadRequest "Car name is required" None)
  else
    r <- service.GetCarByName name ;;
    match r with
    | Err err =>
        if Is err ErrNoRows
        then ret (handleError StatusNotFound "Car not found" (Some err))
        else ret (handleError StatusInternalServerError "Failed to get car" (Some err))
    | Ok car => ret {| Status := StatusOK; Payload := JSONCar car |}
    end.

Definition GetCarsByBrand (brand : string) : M Response :=
  if String.eqb brand EmptyString then
    ret (handleError StatusBadRequest "Brand name is required" None)
  else
    r <- service.GetCarsByBrand brand ;;
    match r with
    | Err err =>
        ret (handleError StatusInternalServerError "Failed to get cars by brand"
               (Some err))
    | Ok cars => ret {| Status := StatusOK; Payload := JSONCars cars |}
    end.

Definition GetAllCars (page_query pageSize_query : option string) : M Response :=
  let page := fst (strconv.Atoi (DefaultQuery page_query "1")) in
  let pageSize := fst (strconv.Atoi (DefaultQuery pageSize_query "10")) in
  r <- service.GetAllCars page pageSize ;;
  match r with
  | Err err =>
      ret (handleError StatusInternalServerError "Failed to get cars" (Some err))
  | Ok cars => ret {| Status := StatusOK; Payload := JSONCars cars |}
  end.

Definition UpdateCar (now : Time) (id_param : string) (body : JSON) : M Response :=
  let (id, err) := strconv.ParseInt id_param in
  if (match err with Some _ => true | None => false end) || (id <=? 0) then
    ret (handleError StatusBadRequest "Invalid car ID" err)
  else
    match ShouldBindJSON body with
    | Err err =>
        ret (handleError StatusBadRequest "Invalid request payload" (Some err))
    | Ok req =>
        r <- service.UpdateCar now id (Some req) ;;
        match r with
        | Err err =>
            if Is err ErrNoRows
            then ret (handleError StatusNotFound "Car not found" (Some err))
            else ret (handleError StatusInternalServerError "Failed to update car"
                        (Some err))
        | Ok car => ret {| Status := StatusOK; Payload := JSONCar car |}
        end
    end.

Definition DeleteCar (now : Time) (id_param : string) : M Response :=
  let (id, err) := strconv.ParseInt id_param in
  if (match err with Some _ => true | None => false end) || (id <=? 0) then
    ret (handleError StatusBadRequest "Invalid car ID" err)
  else
    r <- service.DeleteCar now id ;;
    match r with
    | Some err =>
        if Is err ErrNoRows
        then ret (handleError StatusNotFound "Car not found" (Some err))
        else ret (handleError StatusInternalServerError "Failed to delete car"
                    (Some err))
    | None => ret {| Status := StatusNoContent; Payload := NoBody |}
    end.

End WithLib.
End api.

(* ================================================================== *)
(** * Package config *)

Module config.

(** The environment of the process, as [os.LookupEnv] reads it. *)
Definition Env : Type := string -> option string.

Record Config : Type := {
  ServerPort : string;
  DBHost : string;
  DBPort : string;
  DBUser : string;
  DBPassword : string;
  DBName : string;
  DBSSLMode : string;
  JWTSecret : string;
  Environment : string
}.

Definition getEnv (env : Env) (key defaultValue : string) : string :=
  match env key with
  | Some value => value
  | None => defaultValue
  end.

Definition LoadConfig (env : Env) : result Config :=
  Ok {| ServerPort := getEnv env "SERVER_PORT" "8080";
        DBHost := getEnv env "DB_HOST" "localhost";
        DBPort := getEnv env "DB_PORT" "5432";
        DBUser := getEnv env "DB_USER" "john";
        DBPassword := getEnv env "DB_PASSWORD" "doe";
        DBName := getEnv env "DB_NAME" "car_service";
        DBSSLMode := getEnv env "DB_SSLMODE" "disable";
        JWTSecret := getEnv env "JWT_SECRET" "your-secret-key";
        Environment := getEnv env "ENVIRONMENT" "development" |}.

Definition getEnvAsInt (env : Env) (key : string) (defaultValue : Z) : Z :=
  let valueStr := getEnv env key EmptyString in
  match strconv.Atoi valueStr with
  | (value, None) => value
  | (_, Some _) => defaultValue
  end.

End config.

(* ================================================================== *)
(** * Concrete data used by the examples *)

Module Examples.
Import sql.

(** A rendering of the two library functions, for evaluation. *)
#[export] Instance plain : Lib := {|
  Quote := fun s => ("'" ++ s ++ "'")%string;
  Format_RFC3339 := fun t => fmt_d t
|}.

Definition row (i : Z) (n b : string) (v : Q) (del : option Time) : Row :=
  {| id := i; name := n; brand := b; manufacturing_value := v;
     description := None; created_at := 100; updated_at := 100;
     deleted_at := del |}.

Definition world (rows : list Row) (next : Z) (fs : list (option Fault)) : World :=
  {| cars := rows; cars_id_seq := next; faults := fs; trace := [] |}.

(** Two live cars and a soft-deleted one. *)
Definition garage : World :=
  world [ row 1 "Model S" "Tesla" (79990 # 1) None;
          row 2 "Model 3" "Tesla" (46990 # 1) None;
          row 3 "EV6" "Kia" (40990 # 1) (Some 150) ] 4 [].

Definition request (n b : string) (v : Q) : CarRequest.t :=
  {| CarRequest.Name := n; CarRequest.Brand := b;
     CarRequest.ManufacturingValue := v; CarRequest.Description := None |}.

(** The garage while the storage refuses the next statement. *)
Definition outage : World :=
  world (cars garage) 4 [Some (FailStmt "connection refused")].

(** The garage while the storage serves two statements and refuses the
    third. *)
Definition stalled : World :=
  world (cars garage) 4 [None; None; Some (FailStmt "connection reset")].

(** Twenty-five live rows, identifiers 1 to 25. *)
Definition fleet : World :=
  world (map (fun i => row (Z.of_nat i) "car" "brand" (1000 # 1) None) (seq 1 25))
        26 [].

End Examples.

(* ================================================================== *)
(** * Notions used by the statements *)

Module Spec.
Import sql.

(** The fault the environment holds for the next statement. *)
Definition next_fault (w : World) : option Fault := hd None (faults w).

(** The world once a statement has been sent. *)
Definition sent (q : Stmt) (w : World) : World := snd (send q w).

(** No live row carries the identifier: the car is absent, or every row
    that carries it is soft-deleted. *)
Definition absent (i : Z) (w : World) : Prop :=
  forall r, In r (cars w) -> id r = i -> live r = false.

Definition name_free (n : string) (w : World) : Prop :=
  forall r, In r (cars w) -> name r = n -> live r = false.

Definition name_taken (n : string) (w : World) : Prop :=
  exists r, In r (cars w) /\ name r = n /\ live r = true.

(** What the BIGSERIAL guarantees: identifiers are positive and were all
    drawn from the sequence already. *)
Definition wf (w : World) : Prop :=
  0 < cars_id_seq w /\ Forall (fun r => 0 < id r < cars_id_seq w) (cars w).

(** The statement [repository.Create] sends and the row it adds. *)
Definition insert_stmt (now : Time) (car : Car.t) : Stmt :=
  InsertCar (Car.Name car) (Car.Brand car) (Car.ManufacturingValue car)
            (Value (Car.Description car)) now now.

(** The table accepts the name, the brand and the value of a car, and
    keeps them as [n], [b] and [v]. *)
Definition kept (car : Car.t) (n b : string) (v : Q) : Prop :=
  assign (Car.Name car) (Car.Brand car) (Car.ManufacturingValue car)
  = inr (n, b, v).

Definition inserted (now : Time) (car : Car.t) (i : Z)
  (n b : string) (v : Q) : Row :=
  {| id := i; name := n; brand := b; manufacturing_value := v;
     description := Value (Car.Description car);
     created_at := now; updated_at := now; deleted_at := None |}.

(** A soft-deleted identifier: no live row carries it and the sequence is
    past it. *)
Definition gone (i : Z) (w : World) : Prop :=
  absent i w /\ i < cars_id_seq w.

(** The rows of page [page] as the specification words it: the live rows
    by ascending identifier, without the first [(page-1) * pageSize], at
    most [pageSize] of them. *)
Definition listPage (page pageSize : Z) (t : list Row) : list Row :=
  firstn (Z.to_nat pageSize)
    (skipn (Z.to_nat ((page - 1) * pageSize)) (order_by_id (filter live t))).

Definition ascending (rs : list Row) : Prop :=
  StronglySorted (fun a b => id a <= id b) rs.

(** A decimal integer: an optional sign, then one digit or more. *)
Fixpoint all_digits (s : string) : bool :=
  match s with
  | EmptyString => true
  | String c s' =>
      match strconv.digit c with Some _ => all_digits s' | None => false end
  end.

Definition unsigned (s : string) : bool :=
  match s with EmptyString => false | _ => all_digits s end.

Definition numeric (s : string) : bool :=
  match s with
  | EmptyString => false
  | String c rest => if strconv.is_sign c then unsigned rest else unsigned s
  end.

(** No fault is pending: every statement to come is served. *)
Definition healthy (w : World) : Prop := faults w = [].

(** The primary key: the identifiers were drawn from the sequence and no
    two rows share one. *)
Definition keyed (w : World) : Prop :=
  wf w /\ NoDup (map id (cars w)).

(** The row that a full replace of the business fields makes of a row,
    the table keeping the name, the brand and the value of the request as
    [n], [b] and [v]. *)
Definition replaced (now : Time) (req : CarRequest.t) (n b : string) (v : Q)
  (r : Row) : Row :=
  {| id := id r;
     name := n;
     brand := b;
     manufacturing_value := v;
     description := CarRequest.Description req;
     created_at := created_at r;
     updated_at := now;
     deleted_at := deleted_at r |}.

(** An UPDATE replaces the live rows of its identifier. *)
Definition replace_target (now : Time) (req : CarRequest.t) (n b : string)
  (v : Q) (i : Z) (r : Row) : Row :=
  if targets i r then replaced now req n b v r else r.

(** The row that a soft delete makes of a row. *)
Definition struck (now : Time) (r : Row) : Row :=
  {| id := id r; name := name r; brand := brand r;
     manufacturing_value := manufacturing_value r;
     description := description r; created_at := created_at r;
     updated_at := now; deleted_at := Some now |}.

(** The number a sequence of decimal digits denotes, after the digits that
    amount to [acc]. *)
Fixpoint uint_value (acc : Z) (d : Decimal.uint) : Z :=
  match d with
  | Decimal.Nil => acc
  | Decimal.D0 l => uint_value (acc * 10 + 0) l
  | Decimal.D1 l => uint_value (acc * 10 + 1) l
  | Decimal.D2 l => uint_value (acc * 10 + 2) l
  | Decimal.D3 l => uint_value (acc * 10 + 3) l
  | Decimal.D4 l => uint_value (acc * 10 + 4) l
  | Decimal.D5 l => uint_value (acc * 10 + 5) l
  | Decimal.D6 l => uint_value (acc * 10 + 6) l
  | Decimal.D7 l => uint_value (acc * 10 + 7) l
  | Decimal.D8 l => uint_value (acc * 10 + 8) l
  | Decimal.D9 l => uint_value (acc * 10 + 9) l
  end.

(** The normalisation of [GetAllCars]. *)
Definition norm_page (page : Z) : Z := if page <? 1 then 1 else page.
Definition norm_size (pageSize : Z) : Z :=
  if (pageSize <? 1) || (100 <? pageSize) then 10 else pageSize.

Section WithLib.
Context {lib : Lib}.

(** What can happen to the database between two observations: any call
    of the repository, and any change of the faults to come. *)
Inductive event : Type :=
| Create (now : Time) (car : Car.t)
| GetByID (i : Z)
| GetByName (n : string)
| GetByBrand (b : string)
| GetByPriceRange (lo hi : Q)
| GetAll (page pageSize : Z)
| Update (now : Time) (car : Car.t)
| Delete (now : Time) (i : Z)
| Inject (fs : list (option Fault)).

Definition run (e : event) (w : World) : World :=
  match e with
  | Create now car => snd (repository.Create now car w)
  | GetByID i => snd (repository.GetByID i w)
  | GetByName n => snd (repository.GetByName n w)
  | GetByBrand b => snd (repository.GetByBrand b w)
  | GetByPriceRange lo hi => snd (repository.GetByPriceRange lo hi w)
  | GetAll p ps => snd (repository.GetAll p ps w)
  | Update now car => snd (repository.Update now car w)
  | Delete now i => snd (repository.Delete now i w)
  | Inject fs =>
      {| cars := cars w; cars_id_seq := cars_id_seq w;
         faults := fs; trace := trace w |}
  end.

Definition run_all (es : list event) (w : World) : World :=
  fold_left (fun w e => run e w) es w.

(** The error of a create that the uniqueness check rejects. *)
Definition conflict (n : string) : error :=
  errorString ("car with name " ++ n ++ " already exists").

(** What [service.CreateCar] does once the uniqueness check is passed. *)
Definition insert_and_fetch (now : Time) (car : Car.t)
  : M (result CarResponse.t) :=
  created <- repository.Create now car ;;
  match created with
  | Err err => ret (Err (errorString ("failed to create car: " ++ Error err)))
  | Ok id =>
      fetched <- repository.GetByID id ;;
      match fetched with
      | Err err =>
          ret (Err (errorString ("failed to fetch created car: " ++ Error err)))
      | Ok createdCar => ret (Ok (ToResponse createdCar))
      end
  end.

End WithLib.
End Spec.
Import Spec.
Import sql.

(* ================================================================== *)
(** * The runtime: integers, errors, parsing *)

Lemma wrap64_id (z : Z) : is_int64 z -> wrap64 z = z.
Proof.
  unfold is_int64, MinInt64, MaxInt64, wrap64. intros Hz.
  rewrite Z.mod_small; lia.
Qed.

Lemma wrap64_range (z : Z) : is_int64 (wrap64 z).
Proof.
  unfold is_int64, MinInt64, MaxInt64, wrap64.
  pose proof (Z.mod_pos_bound (z + 2 ^ 63) (2 ^ 64) ltac:(lia)). lia.
Qed.

(** No error made by [errors.New] or [fmt.Errorf] is the sentinel. *)
Lemma Is_errorString (msg : string) (target : error) :
  Is (errorString msg) target = false.
Proof. reflexivity. Qed.

Lemma Is_foreign (msg : string) (target : error) :
  Is (foreignError msg) target = false.
Proof. reflexivity. Qed.

(* ================================================================== *)
(** * The server and the repository *)

Ltac unfold_sql :=
  unfold sent, next_fault in *;
  unfold QueryRow, QueryContext, ExecContext, QueryRow_insert in *;
  unfold send, table, store, sequence, bind, ret in *.

Ltac fault_cases w :=
  let f := fresh "f" in let fs := fresh "fs" in let m := fresh "m" in
  destruct (faults w) as [|[[m|m|m|m]|] fs] eqn:?.

Section Server.

Lemma QueryRow_world (q : Stmt) (w : World) : snd (QueryRow q w) = sent q w.
Proof.
  unfold_sql. fault_cases w; simpl; try reflexivity;
    destruct (select q (cars w)) as [m'|[|r rs]]; reflexivity.
Qed.

Lemma QueryContext_world (q : Stmt) (w : World) : snd (QueryContext q w) = sent q w.
Proof.
  unfold_sql. fault_cases w; simpl; try reflexivity;
    destruct (select q (cars w)) as [m'|rs]; reflexivity.
Qed.

(** A statement that goes through answers from the table alone. *)
Lemma QueryRow_served (q : Stmt) (w : World) :
  next_fault w = None ->
  fst (QueryRow q w) =
    match select q (cars w) with
    | inl m => Err (foreignError m)
    | inr [] => Err ErrNoRows
    | inr (r :: _) => Ok r
    end.
Proof.
  unfold_sql. fault_cases w; simpl; try discriminate; intros _;
    destruct (select q (cars w)) as [m'|[|r rs]]; reflexivity.
Qed.

Lemma QueryContext_served (q : Stmt) (w : World) :
  next_fault w = None ->
  fst (QueryContext q w) =
    match select q (cars w) with
    | inl m => Err (foreignError m)
    | inr rs => Ok {| data := rs; scan_failure := None; rows_failure := None |}
    end.
Proof.
  unfold_sql. fault_cases w; simpl; try discriminate; intros _;
    destruct (select q (cars w)) as [m'|rs]; reflexivity.
Qed.

(** Whatever the faults, a row that is read is the first one selected. *)
Lemma QueryRow_Ok (q : Stmt) (w : World) (r : Row) :
  fst (QueryRow q w) = Ok r ->
  exists rs, select q (cars w) = inr (r :: rs).
Proof.
  unfold_sql. fault_cases w; simpl;
    destruct (select q (cars w)) as [m'|[|r' rs]]; simpl;
    intros E; try discriminate; inversion E; subst; eauto.
Qed.

Lemma QueryContext_Ok (q : Stmt) (w : World) (rows : Rows) :
  fst (QueryContext q w) = Ok rows -> select q (cars w) = inr (data rows).
Proof.
  unfold_sql. fault_cases w; simpl;
    destruct (select q (cars w)) as [m'|rs]; simpl;
    intros E; try discriminate; inversion E; subst; reflexivity.
Qed.

Lemma sent_cars (q : Stmt) (w : World) : cars (sent q w) = cars w.
Proof. reflexivity. Qed.

Lemma sent_seq (q : Stmt) (w : World) : cars_id_seq (sent q w) = cars_id_seq w.
Proof. reflexivity. Qed.

Lemma sent_trace (q : Stmt) (w : World) : trace (sent q w) = trace w ++ [q].
Proof. reflexivity. Qed.

Lemma sent_faults (q : Stmt) (w : World) : faults (sent q w) = tl (faults w).
Proof. reflexivity. Qed.

(** An UPDATE changes no identifier, and leaves the sequence alone. *)
Lemma update_row_id (q : Stmt) (r : Row) : id (update_row q r) = id r.
Proof.
  destruct q; simpl; try reflexivity; destruct (targets i r); try reflexivity.
  destruct (assign n b v) as [m|[[n' b'] v']]; reflexivity.
Qed.

Lemma update_row_dead (q : Stmt) (r : Row) :
  live r = false -> update_row q r = r.
Proof.
  intros H. destruct q; simpl; try reflexivity;
    unfold targets; rewrite H, andb_false_r; reflexivity.
Qed.

Lemma ExecContext_world (q : Stmt) (w : World) :
  cars (snd (ExecContext q w)) = cars w
  \/ cars (snd (ExecContext q w)) = map (update_row q) (cars w).
Proof.
  unfold_sql. fault_cases w; simpl; auto;
    destruct (refused q (cars w)); simpl; auto.
Qed.

Lemma ExecContext_seq (q : Stmt) (w : World) :
  cars_id_seq (snd (ExecContext q w)) = cars_id_seq w.
Proof.
  unfold_sql. fault_cases w; simpl; try reflexivity;
    destruct (refused q (cars w)); reflexivity.
Qed.

Lemma ExecContext_Ok (q : Stmt) (w : World) (n : Z) :
  fst (ExecContext q w) = Ok (Ok n) ->
  n = affected q (cars w)
  /\ cars (snd (ExecContext q w)) = map (update_row q) (cars w).
Proof.
  unfold_sql. fault_cases w; simpl; try discriminate;
    destruct (refused q (cars w)); simpl; intros E; try discriminate;
    inversion E; auto.
Qed.

Lemma ExecContext_served (q : Stmt) (w : World) :
  next_fault w = None -> refused q (cars w) = None ->
  fst (ExecContext q w) = Ok (Ok (affected q (cars w))).
Proof.
  unfold_sql. fault_cases w; simpl; intros E R; try discriminate;
    rewrite R; reflexivity.
Qed.

(** The table refuses no soft delete. *)
Lemma refused_SoftDelete (now : Time) (i : Z) (t : list Row) :
  refused (SoftDelete now i) t = None.
Proof. reflexivity. Qed.

(** An UPDATE that the table refuses changes nothing and reports the
    message of the server. *)
Lemma ExecContext_refused (q : Stmt) (w : World) (m : string) :
  next_fault w = None -> refused q (cars w) = Some m ->
  ExecContext q w = (Err (foreignError m), sent q w).
Proof.
  unfold_sql. fault_cases w; simpl; intros E R; try discriminate;
    rewrite R; reflexivity.
Qed.

End Server.

(** Running one call: name its result and world, and relate the world to
    the statement that was sent. *)
Ltac call_QueryRow q w a w' E :=
  pose proof (QueryRow_world q w) as E;
  destruct (QueryRow q w) as [a w'] eqn:?; simpl in E; subst w'.

Ltac call_QueryContext q w a w' E :=
  pose proof (QueryContext_world q w) as E;
  destruct (QueryContext q w) as [a w'] eqn:?; simpl in E; subst w'.

Section Repository.
Context {lib : Lib}.

Lemma absent_filter (i : Z) (w : World) :
  absent i w <-> filter (targets i) (cars w) = [].
Proof.
  unfold absent, targets. split.
  - intros H. induction (cars w) as [|r t IH]; simpl; [reflexivity|].
    destruct (id r =? i) eqn:Ei; simpl.
    + rewrite (H r (or_introl eq_refl) (proj1 (Z.eqb_eq _ _) Ei)).
      apply IH. intros r' Hin. apply H. now right.
    + apply IH. intros r' Hin. apply H. now right.
  - intros H r Hin Hid.
    destruct (live r) eqn:El; [|reflexivity].
    assert (Hf : In r (filter (fun r => (id r =? i) && live r) (cars w))).
    { apply filter_In. split; [exact Hin|]. rewrite El, andb_true_r.
      now apply Z.eqb_eq. }
    rewrite H in Hf. destruct Hf.
Qed.

Lemma name_free_filter (n : string) (w : World) :
  name_free n w <->
  filter (fun r => String.eqb (name r) n && live r) (cars w) = [].
Proof.
  unfold name_free. split.
  - intros H. induction (cars w) as [|r t IH]; simpl; [reflexivity|].
    destruct (String.eqb (name r) n) eqn:En; simpl.
    + rewrite (H r (or_introl eq_refl) (proj1 (String.eqb_eq _ _) En)).
      apply IH. intros r' Hin. apply H. now right.
    + apply IH. intros r' Hin. apply H. now right.
  - intros H r Hin Hn.
    destruct (live r) eqn:El; [|reflexivity].
    assert (Hf : In r (filter (fun r => String.eqb (name r) n && live r) (cars w))).
    { apply filter_In. split; [exact Hin|]. rewrite El, andb_true_r.
      now apply String.eqb_eq. }
    rewrite H in Hf. destruct Hf.
Qed.

Lemma name_taken_filter (n : string) (w : World) :
  name_taken n w ->
  exists r rs,
    filter (fun r => String.eqb (name r) n && live r) (cars w) = r :: rs.
Proof.
  intros (r & Hin & Hn & Hl).
  destruct (filter (fun r => String.eqb (name r) n && live r) (cars w))
    as [|r0 rs] eqn:E; [|eauto].
  exfalso. apply name_free_filter in E.
  rewrite (E r Hin Hn) in Hl. discriminate.
Qed.

(** ** Reads *)

Lemma GetByID_world (i : Z) (w : World) :
  snd (repository.GetByID i w) = sent (SelectByID i) w.
Proof.
  unfold repository.GetByID, bind.
  call_QueryRow (SelectByID i) w a w' E.
  destruct a as [r|e]; [reflexivity|]. destruct (Is e ErrNoRows); reflexivity.
Qed.

Lemma GetByName_world (n : string) (w : World) :
  snd (repository.GetByName n w) = sent (SelectByName n) w.
Proof.
  unfold repository.GetByName, bind.
  call_QueryRow (SelectByName n) w a w' E.
  destruct a as [r|e]; [reflexivity|]. destruct (Is e ErrNoRows); reflexivity.
Qed.

Lemma GetByBrand_world (b : string) (w : World) :
  snd (repository.GetByBrand b w) = sent (SelectByBrand b) w.
Proof.
  unfold repository.GetByBrand, bind.
  call_QueryContext (SelectByBrand b) w a w' E.
  destruct a; reflexivity.
Qed.

Lemma GetByPriceRange_world (lo hi : Q) (w : World) :
  snd (repository.GetByPriceRange lo hi w) = sent (SelectByPriceRange lo hi) w.
Proof.
  unfold repository.GetByPriceRange, bind.
  call_QueryContext (SelectByPriceRange lo hi) w a w' E.
  destruct a; reflexivity.
Qed.

Lemma GetAll_world (page pageSize : Z) (w : World) :
  snd (repository.GetAll page pageSize w)
  = sent (SelectPage pageSize (wrap64 (wrap64 (page - 1) * pageSize))) w.
Proof.
  unfold repository.GetAll, bind.
  call_QueryContext (SelectPage pageSize (wrap64 (wrap64 (page - 1) * pageSize))) w a w' E.
  destruct a; reflexivity.
Qed.

(** A car that is returned is the first live row selected. *)
Lemma GetByID_Ok (i : Z) (w : World) (c : Car.t) :
  fst (repository.GetByID i w) = Ok c ->
  exists r rs, filter (targets i) (cars w) = r :: rs /\ c = repository.scan r.
Proof.
  unfold repository.GetByID, bind.
  pose proof (@QueryRow_Ok (SelectByID i) w) as H.
  destruct (QueryRow (SelectByID i) w) as [[r|e] w']; simpl in *.
  - intros E. inversion E; subst. destruct (H r eq_refl) as [rs Hs].
    inversion Hs. eauto.
  - destruct (Is e ErrNoRows); discriminate.
Qed.

Lemma GetByName_Ok (n : string) (w : World) (c : Car.t) :
  fst (repository.GetByName n w) = Ok c ->
  exists r rs,
    filter (fun r => String.eqb (name r) n && live r) (cars w) = r :: rs
    /\ c = repository.scan r.
Proof.
  unfold repository.GetByName, bind.
  pose proof (@QueryRow_Ok (SelectByName n) w) as H.
  destruct (QueryRow (SelectByName n) w) as [[r|e] w']; simpl in *.
  - intros E. inversion E; subst. destruct (H r eq_refl) as [rs Hs].
    inversion Hs. eauto.
  - destruct (Is e ErrNoRows); discriminate.
Qed.

Lemma GetByID_served (i : Z) (w : World) :
  next_fault w = None ->
  fst (repository.GetByID i w) =
    match filter (targets i) (cars w) with
    | [] => Err (errorString ("car with ID " ++ fmt_d i ++ " not found"))
    | r :: _ => Ok (repository.scan r)
    end.
Proof.
  intros Hf. unfold repository.GetByID, bind.
  pose proof (QueryRow_served (SelectByID i) w Hf) as H.
  destruct (QueryRow (SelectByID i) w) as [a w']; simpl in *. subst a.
  fold (targets i). destruct (filter (targets i) (cars w)); reflexivity.
Qed.

Lemma GetByName_served (n : string) (w : World) :
  next_fault w = None ->
  fst (repository.GetByName n w) =
    match filter (fun r => String.eqb (name r) n && live r) (cars w) with
    | [] => Err (errorString ("car with name " ++ n ++ " not found"))
    | r :: _ => Ok (repository.scan r)
    end.
Proof.
  intros Hf. unfold repository.GetByName, bind.
  pose proof (QueryRow_served (SelectByName n) w Hf) as H.
  destruct (QueryRow (SelectByName n) w) as [a w']; simpl in *. subst a.
  destruct (filter _ (cars w)); reflexivity.
Qed.

(** The three list queries return the image of the rows selected. *)
Lemma collect_Ok (rows : Rows) (cs : list Car.t) :
  repository.collect rows = Ok cs -> cs = map repository.scan (data rows).
Proof.
  unfold repository.collect.
  destruct (data rows), (scan_failure rows), (rows_failure rows);
    intros E; try discriminate; inversion E; reflexivity.
Qed.

Lemma list_query_Ok (q : Stmt) (w : World) (k : error -> error) (cs : list Car.t) :
  fst ((r <- QueryContext q ;;
        match r with
        | Err err => ret (Err (k err))
        | Ok rows => ret (repository.collect rows)
        end) w) = Ok cs ->
  exists rs, select q (cars w) = inr rs /\ cs = map repository.scan rs.
Proof.
  unfold bind.
  pose proof (@QueryContext_Ok q w) as H.
  destruct (QueryContext q w) as [[rows|e] w']; simpl in *; [|discriminate].
  intros E. apply collect_Ok in E. exists (data rows). split; auto.
Qed.

Lemma list_query_served (q : Stmt) (w : World) (k : error -> error) :
  next_fault w = None ->
  fst ((r <- QueryContext q ;;
        match r with
        | Err err => ret (Err (k err))
        | Ok rows => ret (repository.collect rows)
        end) w) =
    match select q (cars w) with
    | inl m => Err (k (foreignError m))
    | inr rs => Ok (map repository.scan rs)
    end.
Proof.
  intros Hf. unfold bind.
  pose proof (QueryContext_served q w Hf) as H.
  destruct (QueryContext q w) as [a w']; simpl in *. subst a.
  destruct (select q (cars w)) as [m|rs]; [reflexivity|].
  unfold repository.collect; simpl. destruct rs; reflexivity.
Qed.

End Repository.

Section Writes.
Context {lib : Lib}.

(** ** Create *)

Lemma QueryRow_insert_sent (now : Time) (car : Car.t) (w : World) :
  trace (snd (QueryRow_insert (insert_stmt now car) w))
    = (trace w ++ [insert_stmt now car])
  /\ faults (snd (QueryRow_insert (insert_stmt now car) w)) = tl (faults w).
Proof.
  unfold_sql. unfold insert_stmt.
  fault_cases w; simpl; destruct (MaxInt64 <? cars_id_seq w); auto;
    destruct (assign _ _ _) as [m'|[[n' b'] v']]; auto.
Qed.

(** An INSERT leaves the rows alone, with or without a value of the
    sequence spent, or appends the row that the table makes of the car. *)
Lemma QueryRow_insert_frame (now : Time) (car : Car.t) (w : World) :
  let w' := snd (QueryRow_insert (insert_stmt now car) w) in
  (cars w' = cars w
   /\ (cars_id_seq w' = cars_id_seq w \/ cars_id_seq w' = cars_id_seq w + 1))
  \/ (exists n b v, kept car n b v
        /\ cars w' = cars w ++ [inserted now car (cars_id_seq w) n b v]
        /\ cars_id_seq w' = cars_id_seq w + 1).
Proof.
  unfold_sql. unfold insert_stmt, inserted, kept.
  fault_cases w; simpl; destruct (MaxInt64 <? cars_id_seq w); simpl; auto;
    destruct (assign _ _ _) as [m'|[[n' b'] v']]; simpl; auto;
    right; exists n', b', v'; auto.
Qed.

Lemma QueryRow_insert_Ok (now : Time) (car : Car.t) (w : World) (i : Z) :
  fst (QueryRow_insert (insert_stmt now car) w) = Ok i ->
  let w' := snd (QueryRow_insert (insert_stmt now car) w) in
  i = cars_id_seq w
  /\ (exists n b v, kept car n b v
        /\ cars w' = cars w ++ [inserted now car i n b v])
  /\ cars_id_seq w' = i + 1.
Proof.
  unfold_sql. unfold insert_stmt, inserted, kept.
  fault_cases w; simpl; destruct (MaxInt64 <? cars_id_seq w); simpl;
    try discriminate;
    destruct (assign _ _ _) as [m'|[[n' b'] v']]; simpl;
    intros E; try discriminate; inversion E;
    (split; [reflexivity|split; [exists n', b', v'; auto|reflexivity]]).
Qed.

Lemma QueryRow_insert_served (now : Time) (car : Car.t) (w : World)
  (n b : string) (v : Q) :
  next_fault w = None -> cars_id_seq w <= MaxInt64 -> kept car n b v ->
  fst (QueryRow_insert (insert_stmt now car) w) = Ok (cars_id_seq w).
Proof.
  unfold_sql. unfold insert_stmt, kept. intros Hf Hs Hk.
  assert (Hlt : (MaxInt64 <? cars_id_seq w) = false) by (apply Z.ltb_ge; lia).
  fault_cases w; simpl in *; try discriminate; rewrite Hlt, Hk; reflexivity.
Qed.

Lemma Create_unfold (now : Time) (car : Car.t) (w : World) :
  repository.Create now car w =
    (match fst (QueryRow_insert (insert_stmt now car) w) with
     | Err err => Err (errorString ("failed to create car: " ++ Error err))
     | Ok i => Ok i
     end, snd (QueryRow_insert (insert_stmt now car) w)).
Proof.
  unfold repository.Create, bind. fold (insert_stmt now car).
  destruct (QueryRow_insert (insert_stmt now car) w) as [[i|e] w']; reflexivity.
Qed.

Lemma Create_Ok (now : Time) (car : Car.t) (w : World) (i : Z) :
  fst (repository.Create now car w) = Ok i ->
  let w' := snd (repository.Create now car w) in
  i = cars_id_seq w
  /\ (exists n b v, kept car n b v
        /\ cars w' = cars w ++ [inserted now car i n b v])
  /\ cars_id_seq w' = i + 1
  /\ trace w' = trace w ++ [insert_stmt now car].
Proof.
  rewrite Create_unfold; simpl. intros E.
  destruct (fst (QueryRow_insert (insert_stmt now car) w)) as [j|e] eqn:Ej;
    [|discriminate].
  inversion E; subst j.
  destruct (QueryRow_insert_Ok now car w i Ej) as (H1 & H2 & H3).
  split; [exact H1|]. split; [exact H2|]. split; [exact H3|].
  apply QueryRow_insert_sent.
Qed.

(** ** Update and Delete *)

Lemma Update_world (now : Time) (car : Car.t) (w : World) :
  snd (repository.Update now car w) =
  snd (ExecContext (UpdateCar (Car.Name car) (Car.Brand car)
         (Car.ManufacturingValue car) (Value (Car.Description car)) now
         (Car.ID car)) w).
Proof.
  unfold repository.Update, bind.
  destruct (ExecContext _ w) as [[[n|e]|e] w']; simpl; try reflexivity.
  destruct (n =? 0); reflexivity.
Qed.

Lemma Delete_world (now : Time) (i : Z) (w : World) :
  snd (repository.Delete now i w) = snd (ExecContext (SoftDelete now i) w).
Proof.
  unfold repository.Delete, bind.
  destruct (ExecContext _ w) as [[[n|e]|e] w']; simpl; try reflexivity.
  destruct (n =? 0); reflexivity.
Qed.

Lemma filter_nil_length {A} (f : A -> bool) (l : list A) :
  Z.of_nat (List.length (filter f l)) = 0 <-> filter f l = [].
Proof.
  destruct (filter f l); simpl; split; intros H; try reflexivity;
    try discriminate; lia.
Qed.

(** A delete that succeeds found a live row and marked every live row of
    that identifier. *)
Lemma Delete_Ok (now : Time) (i : Z) (w : World) :
  fst (repository.Delete now i w) = None ->
  filter (targets i) (cars w) <> []
  /\ cars (snd (repository.Delete now i w))
     = map (update_row (SoftDelete now i)) (cars w)
  /\ cars_id_seq (snd (repository.Delete now i w)) = cars_id_seq w.
Proof.
  rewrite Delete_world. unfold repository.Delete, bind.
  pose proof (ExecContext_Ok (SoftDelete now i) w) as H.
  pose proof (ExecContext_seq (SoftDelete now i) w) as Hs.
  destruct (ExecContext (SoftDelete now i) w) as [[[n|e]|e] w']; simpl in *;
    try discriminate.
  destruct (n =? 0) eqn:En; [discriminate|]. intros _.
  destruct (H n eq_refl) as [Hn Hc]. repeat split; auto.
  intros Hnil. apply Z.eqb_neq in En. apply En. rewrite Hn.
  apply filter_nil_length. exact Hnil.
Qed.

Lemma Delete_served (now : Time) (i : Z) (w : World) :
  next_fault w = None ->
  fst (repository.Delete now i w) =
    match filter (targets i) (cars w) with
    | [] => Some (errorString ("car with ID " ++ fmt_d i ++ " not found"))
    | _ :: _ => None
    end.
Proof.
  intros Hf. unfold repository.Delete, bind.
  pose proof (ExecContext_served (SoftDelete now i) w Hf eq_refl) as H.
  destruct (ExecContext (SoftDelete now i) w) as [a w']; simpl in *. subst a.
  destruct (filter (targets i) (cars w)); reflexivity.
Qed.

(** A delete of an identifier that no live row carries never succeeds. *)
Lemma Delete_absent (now : Time) (i : Z) (w : World) :
  absent i w -> fst (repository.Delete now i w) <> None.
Proof.
  intros Ha E. apply Delete_Ok in E. destruct E as [E _].
  apply E. now apply absent_filter.
Qed.

End Writes.

(* ================================================================== *)
(** * Invariants of the table *)

Section Invariants.
Context {lib : Lib}.

(** Every event leaves the rows alone, appends a row numbered by the
    sequence, or rewrites rows in place; the sequence moves by one step
    at most, and only forward. *)
Lemma run_shape (e : event) (w : World) :
  (cars (run e w) = cars w
   /\ (cars_id_seq (run e w) = cars_id_seq w
       \/ cars_id_seq (run e w) = cars_id_seq w + 1))
  \/ (exists r, cars (run e w) = cars w ++ [r]
        /\ id r = cars_id_seq w /\ cars_id_seq (run e w) = cars_id_seq w + 1)
  \/ (exists q, cars (run e w) = map (update_row q) (cars w)
        /\ cars_id_seq (run e w) = cars_id_seq w).
Proof.
  destruct e; simpl.
  - rewrite Create_unfold; simpl.
    destruct (QueryRow_insert_frame now car w)
      as [H|(n & b & v & _ & H1 & H2)]; [left; exact H|].
    right; left. exists (inserted now car (cars_id_seq w) n b v). auto.
  - rewrite GetByID_world. left; split; auto.
  - rewrite GetByName_world. left; split; auto.
  - rewrite GetByBrand_world. left; split; auto.
  - rewrite GetByPriceRange_world. left; split; auto.
  - rewrite GetAll_world. left; split; auto.
  - rewrite Update_world.
    destruct (ExecContext_world
                (UpdateCar (Car.Name car) (Car.Brand car)
                   (Car.ManufacturingValue car) (Value (Car.Description car))
                   now (Car.ID car)) w) as [H|H].
    + left. split; [exact H|left; apply ExecContext_seq].
    + right; right. eexists. split; [exact H|apply ExecContext_seq].
  - rewrite Delete_world.
    destruct (ExecContext_world (SoftDelete now i) w) as [H|H].
    + left. split; [exact H|left; apply ExecContext_seq].
    + right; right. eexists. split; [exact H|apply ExecContext_seq].
  - left; split; auto.
Qed.

Lemma wf_run (e : event) (w : World) : wf w -> wf (run e w).
Proof.
  intros [Hpos Hall]. unfold wf.
  destruct (run_shape e w) as [[Hc Hs]|[(r & Hc & Hr & Hs)|(q & Hc & Hs)]];
    rewrite Hc.
  - split; [lia|]. eapply Forall_impl; [|exact Hall]. simpl. intros; lia.
  - rewrite Hs. split; [lia|]. apply Forall_app. split.
    + eapply Forall_impl; [|exact Hall]. simpl. intros; lia.
    + constructor; [lia|constructor].
  - rewrite Hs. split; [exact Hpos|]. apply Forall_map.
    eapply Forall_impl; [|exact Hall]. intros r. rewrite update_row_id. auto.
Qed.

Lemma wf_run_all (es : list event) (w : World) : wf w -> wf (run_all es w).
Proof.
  revert w. induction es as [|e es IH]; intros w Hw; simpl; [exact Hw|].
  apply IH. now apply wf_run.
Qed.

(** No event gives a live row to an identifier that is gone. *)
Lemma gone_run (e : event) (i : Z) (w : World) : gone i w -> gone i (run e w).
Proof.
  intros [Ha Hlt]. unfold gone, absent.
  destruct (run_shape e w) as [[Hc Hs]|[(r & Hc & Hr & Hs)|(q & Hc & Hs)]];
    rewrite Hc.
  - split; [exact Ha|lia].
  - rewrite Hs. split; [|lia]. intros r' Hin Hid.
    apply in_app_or in Hin. destruct Hin as [Hin|[Heq|[]]]; [now apply Ha|].
    subst r'. lia.
  - rewrite Hs. split; [|exact Hlt]. intros r' Hin Hid.
    apply in_map_iff in Hin. destruct Hin as (r0 & Heq & Hin). subst r'.
    rewrite update_row_id in Hid.
    rewrite (update_row_dead q r0 (Ha r0 Hin Hid)). now apply Ha.
Qed.

Lemma gone_run_all (es : list event) (i : Z) (w : World) :
  gone i w -> gone i (run_all es w).
Proof.
  revert w. induction es as [|e es IH]; intros w Hw; simpl; [exact Hw|].
  apply IH. now apply gone_run.
Qed.

(** A delete that succeeds makes the identifier gone. *)
Lemma Delete_gone (now : Time) (i : Z) (w : World) :
  wf w -> fst (repository.Delete now i w) = None ->
  gone i (snd (repository.Delete now i w)).
Proof.
  intros [Hpos Hall] E.
  destruct (Delete_Ok now i w E) as (Hne & Hc & Hs).
  unfold gone, absent. rewrite Hc, Hs. split.
  - intros r' Hin Hid.
    apply in_map_iff in Hin. destruct Hin as (r & Heq & Hin). subst r'.
    simpl in *. unfold targets in *.
    destruct (id r =? i) eqn:Ei; simpl in *.
    + destruct (live r) eqn:El; simpl; [reflexivity|exact El].
    + apply Z.eqb_neq in Ei. contradiction.
  - destruct (filter (targets i) (cars w)) as [|r rs] eqn:Ef; [congruence|].
    assert (Hin : In r (filter (targets i) (cars w))) by (rewrite Ef; now left).
    apply filter_In in Hin. destruct Hin as [Hin Ht].
    unfold targets in Ht. apply andb_prop in Ht. destruct Ht as [Ht _].
    apply Z.eqb_eq in Ht. rewrite Forall_forall in Hall.
    specialize (Hall r Hin). lia.
Qed.

End Invariants.

(* ================================================================== *)
(** * ORDER BY, LIMIT and OFFSET *)

Section Ordering.

Lemma insert_by_id_perm (r : Row) (rs : list Row) :
  Permutation (r :: rs) (insert_by_id r rs).
Proof.
  induction rs as [|r' rs IH]; simpl; [apply Permutation_refl|].
  destruct (id r <=? id r'); [apply Permutation_refl|].
  eapply perm_trans; [apply perm_swap|]. now apply perm_skip.
Qed.

Lemma order_by_id_perm (rs : list Row) : Permutation rs (order_by_id rs).
Proof.
  induction rs as [|r rs IH]; simpl; [constructor|].
  eapply perm_trans; [apply perm_skip, IH|]. apply insert_by_id_perm.
Qed.

Lemma order_by_id_length (rs : list Row) :
  List.length (order_by_id rs) = List.length rs.
Proof. symmetry. apply Permutation_length, order_by_id_perm. Qed.

Lemma order_by_id_In (r : Row) (rs : list Row) :
  In r (order_by_id rs) <-> In r rs.
Proof.
  split; apply Permutation_in;
    [apply Permutation_sym|]; apply order_by_id_perm.
Qed.

Lemma insert_by_id_Forall (P : Row -> Prop) (r : Row) (rs : list Row) :
  P r -> Forall P rs -> Forall P (insert_by_id r rs).
Proof.
  intros Hr Hrs.
  eapply Permutation_Forall; [apply insert_by_id_perm|]. now constructor.
Qed.

Lemma insert_by_id_ascending (r : Row) (rs : list Row) :
  ascending rs -> ascending (insert_by_id r rs).
Proof.
  unfold ascending. induction rs as [|r' rs IH]; simpl; intros Hs.
  - repeat constructor.
  - inversion Hs as [|? ? Hs' Hle]; subst.
    destruct (id r <=? id r') eqn:E.
    + apply Z.leb_le in E. constructor; [exact Hs|].
      constructor; [exact E|].
      eapply Forall_impl; [|exact Hle]. simpl. intros; lia.
    + apply Z.leb_gt in E. constructor; [now apply IH|].
      apply insert_by_id_Forall; [lia|exact Hle].
Qed.

Lemma order_by_id_ascending (rs : list Row) : ascending (order_by_id rs).
Proof.
  induction rs as [|r rs IH]; simpl; [constructor|].
  now apply insert_by_id_ascending.
Qed.

Lemma In_firstn {A} (n : nat) (l : list A) (x : A) :
  In x (firstn n l) -> In x l.
Proof.
  intros H. rewrite <- (firstn_skipn n l). apply in_or_app. now left.
Qed.

Lemma In_skipn {A} (n : nat) (l : list A) (x : A) :
  In x (skipn n l) -> In x l.
Proof.
  intros H. rewrite <- (firstn_skipn n l). apply in_or_app. now right.
Qed.

Lemma ascending_skipn (n : nat) (rs : list Row) :
  ascending rs -> ascending (skipn n rs).
Proof.
  unfold ascending. revert rs. induction n as [|n IH]; intros rs Hs; simpl;
    [exact Hs|].
  destruct rs as [|r rs]; [constructor|].
  inversion Hs; subst. now apply IH.
Qed.

Lemma ascending_firstn (n : nat) (rs : list Row) :
  ascending rs -> ascending (firstn n rs).
Proof.
  unfold ascending. revert rs. induction n as [|n IH]; intros rs Hs; simpl;
    [constructor|].
  destruct rs as [|r rs]; [constructor|].
  inversion Hs as [|? ? Hs' Hle]; subst. constructor; [now apply IH|].
  rewrite Forall_forall in *. intros x Hx. apply Hle.
  eapply In_firstn; exact Hx.
Qed.

Lemma listPage_ascending (page pageSize : Z) (t : list Row) :
  ascending (listPage page pageSize t).
Proof.
  unfold listPage. apply ascending_firstn, ascending_skipn, order_by_id_ascending.
Qed.

Lemma listPage_live (page pageSize : Z) (t : list Row) (r : Row) :
  In r (listPage page pageSize t) -> In r t /\ live r = true.
Proof.
  unfold listPage. intros H.
  apply In_firstn, In_skipn in H.
  apply order_by_id_In, filter_In in H. exact H.
Qed.

Lemma listPage_length (page pageSize : Z) (t : list Row) :
  List.length (listPage page pageSize t)
  = Nat.min (Z.to_nat pageSize)
      (List.length (filter live t) - Z.to_nat ((page - 1) * pageSize)).
Proof.
  unfold listPage.
  rewrite length_firstn, length_skipn, order_by_id_length. reflexivity.
Qed.

(** The statement that [repository.GetAll] sends computes the page of the
    specification whenever the offset is the product it stands for. *)
Lemma select_page (page pageSize : Z) (t : list Row) :
  0 <= pageSize -> 0 <= (page - 1) * pageSize ->
  select (SelectPage pageSize ((page - 1) * pageSize)) t
  = inr (listPage page pageSize t).
Proof.
  intros Hs Ho. simpl.
  destruct ((page - 1) * pageSize <? 0) eqn:E1; [apply Z.ltb_lt in E1; lia|].
  destruct (pageSize <? 0) eqn:E2; [apply Z.ltb_lt in E2; lia|].
  reflexivity.
Qed.

End Ordering.

(* ================================================================== *)
(** * Parsing of decimal texts *)

Section Parsing.

Lemma digit_range (c : ascii) (d : Z) : strconv.digit c = Some d -> 0 <= d <= 9.
Proof.
  unfold strconv.digit.
  destruct ((48 <=? Z.of_N (N_of_ascii c)) && (Z.of_N (N_of_ascii c) <=? 57)) eqn:E;
    intros H; inversion H; subst.
  apply andb_prop in E. destruct E as [E1 E2].
  apply Z.leb_le in E1, E2. lia.
Qed.

Lemma all_digits_nonempty (s : string) : all_digits s = false -> s <> EmptyString.
Proof. destruct s; [discriminate|congruence]. Qed.

Lemma Atoi_loop_bad (s : string) (n : Z) :
  all_digits s = false -> strconv.Atoi_loop n s = None.
Proof.
  revert n. induction s as [|c s IH]; simpl; intros n H; [discriminate|].
  destruct (strconv.digit c); [now apply IH|reflexivity].
Qed.

(** The digit loop reaches a byte that is no digit before any overflow when
    the text is short: after [k] digits the number read is below [10 ^ k]. *)
Lemma ParseUint_loop_bad (s : string) (n : Z) :
  all_digits s = false ->
  0 <= n < 10 ^ (20 - Z.of_nat (String.length s)) ->
  (String.length s <= 20)%nat ->
  strconv.ParseUint_loop n s = strconv.BadSyntax.
Proof.
  revert n. induction s as [|c s IH]; intros n H Hn Hlen; [discriminate|].
  simpl in H. cbn [strconv.ParseUint_loop].
  destruct (strconv.digit c) as [d|] eqn:Ed; [|reflexivity].
  apply digit_range in Ed.
  assert (Hs : (1 <= String.length s)%nat).
  { destruct s; [discriminate|simpl; lia]. }
  cbn [String.length] in Hn, Hlen.
  assert (Hpow : 10 ^ (20 - Z.of_nat (S (String.length s))) <= 10 ^ 18).
  { apply Z.pow_le_mono_r; lia. }
  assert (Hstep : 10 ^ (20 - Z.of_nat (String.length s))
                  = 10 * 10 ^ (20 - Z.of_nat (S (String.length s)))).
  { replace (20 - Z.of_nat (String.length s))
      with (Z.succ (20 - Z.of_nat (S (String.length s)))) by lia.
    apply Z.pow_succ_r. lia. }
  assert (H18 : 10 ^ 18 = 1000000000000000000) by reflexivity.
  unfold strconv.cutoff, MaxUint64.
  change (2 ^ 64 - 1) with 18446744073709551615.
  change (18446744073709551615 / 10 + 1) with 1844674407370955162.
  destruct (1844674407370955162 <=? n) eqn:E1; [apply Z.leb_le in E1; lia|].
  destruct (18446744073709551615 <? n * 10 + d) eqn:E2;
    [apply Z.ltb_lt in E2; lia|].
  apply IH; [exact H| |lia]. lia.
Qed.

Lemma Atoi_syntax (s : string) :
  numeric s = false -> (String.length s <= 20)%nat ->
  strconv.Atoi s = (0, Some (strconv.syntaxError "Atoi" s)).
Proof.
  intros Hn Hlen. unfold strconv.Atoi.
  destruct s as [|c rest]; [reflexivity|].
  cbn [numeric] in Hn.
  destruct ((0 <? Z.of_nat (String.length (String c rest)))
            && (Z.of_nat (String.length (String c rest)) <? 19)).
  - destruct (strconv.is_sign c).
    + destruct rest as [|c' rest']; [reflexivity|].
      cbn [unsigned] in Hn. now rewrite Atoi_loop_bad.
    + cbn [unsigned] in Hn. now rewrite Atoi_loop_bad.
  - unfold strconv.ParseInt_as.
    assert (Hz : forall t, (String.length t <= 20)%nat ->
               0 <= 0 < 10 ^ (20 - Z.of_nat (String.length t))).
    { intros t Ht. split; [lia|]. apply Z.pow_pos_nonneg; lia. }
    destruct (strconv.is_sign c).
    + destruct rest as [|c' rest']; [reflexivity|].
      cbn [unsigned] in Hn. unfold strconv.ParseUint.
      rewrite ParseUint_loop_bad; auto; [apply Hz|]; simpl in *; lia.
    + cbn [unsigned] in Hn. unfold strconv.ParseUint.
      rewrite ParseUint_loop_bad; auto.
Qed.

End Parsing.

(* ================================================================== *)
(** * Validation and binding *)

Section Validation.

Lemma bind_run {A B} (m : M A) (k : A -> M B) (w : World) :
  bind m k w = k (fst (m w)) (snd (m w)).
Proof. unfold bind. destruct (m w); reflexivity. Qed.

(** A body that binds passes the validation of the service. *)
Lemma bound_is_valid (body : api.JSON) (req : CarRequest.t) :
  api.ShouldBindJSON body = Ok req ->
  service.validateCarRequest (Some req) = None.
Proof.
  unfold api.ShouldBindJSON. destruct body as [m|r]; [discriminate|].
  destruct (api.binding_failures r) as [|f fs] eqn:E; [|discriminate].
  intros H; inversion H; subst r. clear H.
  unfold api.binding_failures in E.
  apply app_eq_nil in E. destruct E as [E1 E].
  apply app_eq_nil in E. destruct E as [E2 E3].
  unfold service.validateCarRequest.
  destruct (String.eqb (CarRequest.Name req) EmptyString); [discriminate|].
  destruct (String.eqb (CarRequest.Brand req) EmptyString); [discriminate|].
  cbv zeta in E3.
  destruct (Qeq_bool (CarRequest.ManufacturingValue req) 0); [discriminate|].
  destruct (Qle_bool (CarRequest.ManufacturingValue req) 0); [discriminate|].
  destruct (Qle_bool (15000000 # 1) (CarRequest.ManufacturingValue req));
    [discriminate|reflexivity].
Qed.

Lemma validate_value (req : CarRequest.t) :
  (CarRequest.ManufacturingValue req <= 0
   \/ 15000000 # 1 <= CarRequest.ManufacturingValue req)%Q ->
  exists e, service.validateCarRequest (Some req) = Some e.
Proof.
  intros H. unfold service.validateCarRequest.
  destruct (String.eqb (CarRequest.Name req) EmptyString); [eauto|].
  destruct (String.eqb (CarRequest.Brand req) EmptyString); [eauto|].
  destruct (Qle_bool (CarRequest.ManufacturingValue req) 0) eqn:E1; [eauto|].
  destruct (Qle_bool (15000000 # 1) (CarRequest.ManufacturingValue req)) eqn:E2;
    [eauto|].
  exfalso. destruct H as [H|H]; apply Qle_bool_iff in H; congruence.
Qed.

Lemma validate_passes (req : CarRequest.t) :
  CarRequest.Name req <> EmptyString ->
  CarRequest.Brand req <> EmptyString ->
  (0 < CarRequest.ManufacturingValue req)%Q ->
  (CarRequest.ManufacturingValue req < 15000000 # 1)%Q ->
  service.validateCarRequest (Some req) = None.
Proof.
  intros Hn Hb H0 H1. unfold service.validateCarRequest.
  destruct (String.eqb (CarRequest.Name req) EmptyString) eqn:En;
    [apply String.eqb_eq in En; contradiction|].
  destruct (String.eqb (CarRequest.Brand req) EmptyString) eqn:Eb;
    [apply String.eqb_eq in Eb; contradiction|].
  destruct (Qle_bool (CarRequest.ManufacturingValue req) 0) eqn:E1.
  { apply Qle_bool_iff in E1. exfalso. exact (Qlt_not_le _ _ H0 E1). }
  destruct (Qle_bool (15000000 # 1) (CarRequest.ManufacturingValue req)) eqn:E2.
  { apply Qle_bool_iff in E2. exfalso. exact (Qlt_not_le _ _ H1 E2). }
  reflexivity.
Qed.

End Validation.

(* ================================================================== *)
(** * Properties of the orchestration layer and of the repository *)

Section Claims.
Context {lib : Lib}.

(** C4.  A create or an update whose manufacturing value is at most 0 or at
    least 15,000,000 is rejected by the service with a validation error and
    the world is left as it was: no statement reaches the storage.  A
    request with a non-empty name, a non-empty brand and a value strictly
    between the two bounds passes the validation. *)
Theorem validation_precedes_storage
  (now : Time) (id : Z) (req : CarRequest.t) (w : World) :
  ((CarRequest.ManufacturingValue req <= 0
    \/ 15000000 # 1 <= CarRequest.ManufacturingValue req)%Q ->
   (exists e, service.validateCarRequest (Some req) = Some e
              /\ service.CreateCar now (Some req) w = (Err e, w))
   /\ (exists e, service.UpdateCar now id (Some req) w = (Err e, w)
                 /\ ((id <= 0 /\ e = errorString "invalid car ID")
                     \/ service.validateCarRequest (Some req) = Some e)))
  /\ ((0 < CarRequest.ManufacturingValue req)%Q ->
      (CarRequest.ManufacturingValue req < 15000000 # 1)%Q ->
      CarRequest.Name req <> EmptyString ->
      CarRequest.Brand req <> EmptyString ->
      service.validateCarRequest (Some req) = None).
Proof.
  split.
  - intros Hv. destruct (validate_value req Hv) as [e He]. split.
    + exists e. split; [exact He|].
      unfold service.CreateCar. rewrite He. reflexivity.
    + unfold service.UpdateCar.
      destruct (id <=? 0) eqn:Eid.
      * apply Z.leb_le in Eid. eexists. split; [reflexivity|]. left. auto.
      * exists e. rewrite He. split; [reflexivity|]. now right.
  - intros H0 H1 Hn Hb. now apply validate_passes.
Qed.

(** C7.  The price-range query has inclusive bounds: when the statement is
    served and min <= max, every live row whose value lies between the
    bounds, the bounds included, is returned, so a value equal to min or to
    max is; and every car returned is a live row with its value in
    [min, max]. *)
Theorem price_range_inclusive (minPrice maxPrice : Q) (w : World) :
  (minPrice <= maxPrice)%Q -> next_fault w = None ->
  exists found,
    fst (repository.GetByPriceRange minPrice maxPrice w) = Ok found
    /\ (forall r, In r (cars w) -> live r = true ->
          (manufacturing_value r == minPrice
           \/ manufacturing_value r == maxPrice)%Q ->
          In (repository.scan r) found)
    /\ (forall r, In r (cars w) -> live r = true ->
          (minPrice <= manufacturing_value r <= maxPrice)%Q ->
          In (repository.scan r) found)
    /\ (forall c, In c found ->
          (minPrice <= Car.ManufacturingValue c <= maxPrice)%Q
          /\ exists r, In r (cars w) /\ live r = true /\ c = repository.scan r).
Proof.
  intros Hle Hf.
  pose proof (list_query_served (SelectByPriceRange minPrice maxPrice) w
                (fun err => errorString
                   ("failed to get cars by price range: " ++ Error err)) Hf) as H.
  cbn [select] in H. eexists. split; [exact H|].
  assert (Hin : forall r, In r (cars w) -> live r = true ->
            (minPrice <= manufacturing_value r <= maxPrice)%Q ->
            In (repository.scan r)
               (map repository.scan
                  (filter (fun r => (Qle_bool minPrice (manufacturing_value r)
                                     && Qle_bool (manufacturing_value r) maxPrice)
                                    && live r) (cars w)))).
  { intros r Hr Hl [H1 H2]. apply in_map, filter_In. split; [exact Hr|].
    apply Qle_bool_iff in H1, H2. now rewrite H1, H2, Hl. }
  split; [|split; [exact Hin|]].
  - intros r Hr Hl [E|E]; apply Hin; auto; rewrite E; split;
      auto using Qle_refl.
  - intros c Hc. apply in_map_iff in Hc. destruct Hc as (r & <- & Hr).
    apply filter_In in Hr. destruct Hr as [Hr Hb].
    apply andb_prop in Hb. destruct Hb as [Hb Hl].
    apply andb_prop in Hb. destruct Hb as [H1 H2].
    apply Qle_bool_iff in H1, H2. split; [split; assumption|]. eauto.
Qed.

Lemma GetAll_served (page pageSize : Z) (w : World) :
  1 <= page -> 1 <= pageSize -> (page - 1) * pageSize <= MaxInt64 ->
  next_fault w = None ->
  fst (repository.GetAll page pageSize w)
    = Ok (map repository.scan (listPage page pageSize (cars w))).
Proof.
  intros Hp Hs Ho Hf.
  assert (Hp1 : wrap64 (page - 1) = page - 1).
  { apply wrap64_id. unfold is_int64, MinInt64, MaxInt64 in *. nia. }
  assert (Hoff : wrap64 (wrap64 (page - 1) * pageSize) = (page - 1) * pageSize).
  { rewrite Hp1. apply wrap64_id. unfold is_int64, MinInt64, MaxInt64 in *. nia. }
  unfold repository.GetAll. cbv zeta. rewrite Hoff.
  rewrite list_query_served by exact Hf.
  rewrite select_page by nia. reflexivity.
Qed.

Lemma norm_page_range (page : Z) : 1 <= norm_page page.
Proof.
  unfold norm_page. destruct (page <? 1) eqn:E; [lia|apply Z.ltb_ge in E; lia].
Qed.

Lemma norm_size_range (pageSize : Z) : 1 <= norm_size pageSize <= 100.
Proof.
  unfold norm_size.
  destruct (pageSize <? 1) eqn:E1; simpl; [lia|].
  destruct (100 <? pageSize) eqn:E2; [lia|].
  apply Z.ltb_ge in E1, E2. lia.
Qed.

Lemma GetAllCars_run (page pageSize : Z) (w : World) :
  service.GetAllCars page pageSize w
  = (match fst (repository.GetAll (norm_page page) (norm_size pageSize) w) with
     | Err err => Err (errorString ("failed to get all cars: " ++ Error err))
     | Ok found => Ok (service.toCarResponses found)
     end,
     sent (SelectPage (norm_size pageSize)
             (wrap64 (wrap64 (norm_page page - 1) * norm_size pageSize))) w).
Proof.
  unfold service.GetAllCars. cbv zeta.
  fold (norm_page page). fold (norm_size pageSize).
  rewrite bind_run, GetAll_world.
  destruct (fst (repository.GetAll (norm_page page) (norm_size pageSize) w));
    reflexivity.
Qed.

(** C6, as amended.  For page >= 1 and pageSize >= 1 whose offset
    (page-1) * pageSize does not exceed the largest int, a served paged
    query returns the live rows by ascending identifier, without the first
    (page-1) * pageSize of them and at most pageSize of them; over 25 live
    rows and with pageSize = 10, pages 1, 2 and 3 hold 10, 10 and 5 cars. *)
Theorem page_within_int_range (page pageSize : Z) (w : World) :
  1 <= page -> 1 <= pageSize -> (page - 1) * pageSize <= MaxInt64 ->
  next_fault w = None ->
  fst (repository.GetAll page pageSize w)
    = Ok (map repository.scan (listPage page pageSize (cars w)))
  /\ ascending (listPage page pageSize (cars w))
  /\ (forall r, In r (listPage page pageSize (cars w)) ->
        In r (cars w) /\ live r = true)
  /\ (List.length (listPage page pageSize (cars w)) <= Z.to_nat pageSize)%nat
  /\ (List.length (filter live (cars w)) = 25%nat -> pageSize = 10 ->
      (page = 1 -> List.length (listPage page pageSize (cars w)) = 10%nat)
      /\ (page = 2 -> List.length (listPage page pageSize (cars w)) = 10%nat)
      /\ (page = 3 -> List.length (listPage page pageSize (cars w)) = 5%nat)).
Proof.
  intros Hp Hs Ho Hf.
  split; [|split; [|split; [|split]]].
  - now apply GetAll_served.
  - apply listPage_ascending.
  - apply listPage_live.
  - rewrite listPage_length. apply Nat.le_min_l.
  - intros H25 H10. subst pageSize. rewrite listPage_length, H25.
    repeat split; intros ->; reflexivity.
Qed.

(** C8, as amended.  The service replaces a page below 1 by 1 and a page
    size outside [1,100] by 10, rejects nothing itself, and sends the one
    paged statement with the values so normalised; the call then succeeds
    whenever that statement is served and the offset of the normalised
    values does not exceed the largest int. *)
Theorem paged_list_normalises (page pageSize : Z) (w : World) :
  1 <= norm_page page
  /\ 1 <= norm_size pageSize <= 100
  /\ (page < 1 -> norm_page page = 1)
  /\ (pageSize < 1 \/ 100 < pageSize -> norm_size pageSize = 10)
  /\ service.GetAllCars page pageSize w
     = (match fst (repository.GetAll (norm_page page) (norm_size pageSize) w) with
        | Err err => Err (errorString ("failed to get all cars: " ++ Error err))
        | Ok found => Ok (service.toCarResponses found)
        end,
        sent (SelectPage (norm_size pageSize)
                (wrap64 (wrap64 (norm_page page - 1) * norm_size pageSize))) w)
  /\ (next_fault w = None ->
      (norm_page page - 1) * norm_size pageSize <= MaxInt64 ->
      fst (service.GetAllCars page pageSize w)
      = Ok (service.toCarResponses
              (map repository.scan
                 (listPage (norm_page page) (norm_size pageSize) (cars w))))).
Proof.
  pose proof (norm_page_range page) as Hp.
  pose proof (norm_size_range pageSize) as Hs.
  split; [exact Hp|]. split; [exact Hs|]. split; [|split; [|split]].
  - intros H. unfold norm_page. apply Z.ltb_lt in H. now rewrite H.
  - intros H. unfold norm_size.
    destruct H as [H|H]; apply Z.ltb_lt in H; rewrite H;
      [reflexivity|rewrite orb_true_r; reflexivity].
  - apply GetAllCars_run.
  - intros Hf Ho. rewrite GetAllCars_run. cbn [fst].
    rewrite GetAll_served; auto; lia.
Qed.

End Claims.

(* ================================================================== *)
(** * Properties of the dispatch layer and of create *)

Section Dispatch.
Context {lib : Lib}.

Lemma GetByID_absent (i : Z) (w : World) :
  next_fault w = None -> absent i w ->
  repository.GetByID i w
  = (Err (errorString ("car with ID " ++ fmt_d i ++ " not found")),
     sent (SelectByID i) w).
Proof.
  intros Hf Ha. rewrite (surjective_pairing (repository.GetByID i w)).
  rewrite GetByID_world, GetByID_served by exact Hf.
  apply absent_filter in Ha. now rewrite Ha.
Qed.

Lemma GetByName_free (n : string) (w : World) :
  next_fault w = None -> name_free n w ->
  repository.GetByName n w
  = (Err (errorString ("car with name " ++ n ++ " not found")),
     sent (SelectByName n) w).
Proof.
  intros Hf Ha. rewrite (surjective_pairing (repository.GetByName n w)).
  rewrite GetByName_world, GetByName_served by exact Hf.
  apply name_free_filter in Ha. now rewrite Ha.
Qed.

(** C1, on the code.  When the target of a GET by id, a GET by name, a PUT
    or a DELETE has no live row and the lookup is served, the handler
    answers 500, not 404: the repository replaces the sentinel of the
    driver by an error of its own, which the test of the handler never
    recognises. *)
Theorem missing_target_is_answered_500
  (now : Time) (id_param name : string) (i : Z)
  (body : api.JSON) (req : CarRequest.t) (w : World) :
  strconv.ParseInt id_param = (i, None) -> 0 < i -> absent i w ->
  name <> EmptyString -> name_free name w ->
  api.ShouldBindJSON body = Ok req ->
  next_fault w = None ->
  fst (api.GetCarByID id_param w)
    = api.handleError 500 "Failed to get car"
        (Some (errorString
           ("failed to get car: car with ID " ++ fmt_d i ++ " not found")))
  /\ fst (api.GetCarByName name w)
    = api.handleError 500 "Failed to get car"
        (Some (errorString
           ("failed to get car: car with name " ++ name ++ " not found")))
  /\ fst (api.UpdateCar now id_param body w)
    = api.handleError 500 "Failed to update car"
        (Some (errorString
           ("failed to find car: car with ID " ++ fmt_d i ++ " not found")))
  /\ fst (api.DeleteCar now id_param w)
    = api.handleError 500 "Failed to delete car"
        (Some (errorString
           ("failed to find car: car with ID " ++ fmt_d i ++ " not found"))).
Proof.
  intros Hparse Hi Ha Hn Hfree Hbind Hf.
  assert (Hle : (i <=? 0) = false) by (apply Z.leb_gt; lia).
  assert (Hne : String.eqb name EmptyString = false).
  { destruct (String.eqb name EmptyString) eqn:E; [|reflexivity].
    apply String.eqb_eq in E. contradiction. }
  repeat split.
  - unfold api.GetCarByID. rewrite Hparse, Hle. cbn [orb].
    rewrite bind_run. unfold service.GetCarByID. rewrite Hle.
    rewrite bind_run, GetByID_absent by assumption. reflexivity.
  - unfold api.GetCarByName. rewrite Hne.
    rewrite bind_run. unfold service.GetCarByName. rewrite Hne.
    rewrite bind_run, GetByName_free by assumption. reflexivity.
  - unfold api.UpdateCar. rewrite Hparse, Hle, Hbind. cbn [orb].
    rewrite bind_run. unfold service.UpdateCar.
    rewrite Hle, (bound_is_valid body req Hbind).
    rewrite bind_run, GetByID_absent by assumption. reflexivity.
  - unfold api.DeleteCar. rewrite Hparse, Hle. cbn [orb].
    rewrite bind_run. unfold service.DeleteCar. rewrite Hle.
    rewrite bind_run, GetByID_absent by assumption. reflexivity.
Qed.

(** What create does after a successful validation. *)
Lemma CreateCar_run (now : Time) (req : CarRequest.t) (w : World) :
  service.validateCarRequest (Some req) = None ->
  service.CreateCar now (Some req) w
  = match fst (repository.GetByName (CarRequest.Name req) w) with
    | Ok _ => (Err (conflict (CarRequest.Name req)),
               sent (SelectByName (CarRequest.Name req)) w)
    | Err _ => insert_and_fetch now (ToModel req)
                 (sent (SelectByName (CarRequest.Name req)) w)
    end.
Proof.
  intros Hv. unfold service.CreateCar. rewrite Hv.
  rewrite bind_run. cbn [ToModel Car.Name]. rewrite GetByName_world.
  destruct (fst (repository.GetByName (CarRequest.Name req) w)); reflexivity.
Qed.

Lemma insert_and_fetch_run (now : Time) (car : Car.t) (w : World) :
  insert_and_fetch now car w
  = match fst (repository.Create now car w) with
    | Err err =>
        (Err (errorString ("failed to create car: " ++ Error err)),
         snd (repository.Create now car w))
    | Ok i =>
        (match fst (repository.GetByID i (snd (repository.Create now car w))) with
         | Err err =>
             Err (errorString ("failed to fetch created car: " ++ Error err))
         | Ok createdCar => Ok (ToResponse createdCar)
         end,
         sent (SelectByID i) (snd (repository.Create now car w)))
    end.
Proof.
  unfold insert_and_fetch. rewrite bind_run.
  destruct (fst (repository.Create now car w)) as [i|e]; [|reflexivity].
  rewrite bind_run, GetByID_world.
  destruct (fst (repository.GetByID i (snd (repository.Create now car w))));
    reflexivity.
Qed.

Lemma Create_trace (now : Time) (car : Car.t) (w : World) :
  trace (snd (repository.Create now car w)) = trace w ++ [insert_stmt now car].
Proof. rewrite Create_unfold. cbn [snd]. apply QueryRow_insert_sent. Qed.

Lemma insert_and_fetch_trace (now : Time) (car : Car.t) (w : World) :
  exists rest,
    trace (snd (insert_and_fetch now car w))
    = trace w ++ insert_stmt now car :: rest.
Proof.
  rewrite insert_and_fetch_run.
  destruct (fst (repository.Create now car w)) as [i|e]; cbn [snd].
  - exists [SelectByID i]. rewrite sent_trace, Create_trace, <- app_assoc.
    reflexivity.
  - exists []. apply Create_trace.
Qed.

Lemma insert_and_fetch_no_conflict (now : Time) (car : Car.t) (w : World) (n : string) :
  fst (insert_and_fetch now car w) <> Err (conflict n).
Proof.
  rewrite insert_and_fetch_run. unfold conflict.
  destruct (fst (repository.Create now car w)) as [i|e]; cbn [fst].
  - destruct (fst (repository.GetByID i _)); simpl; discriminate.
  - simpl; discriminate.
Qed.

(** C2, as amended.  A create whose body binds and whose name is that of a
    live row is rejected when the lookup by name is served: the handler
    answers 500 with the message of the conflict, and nothing is sent to
    the storage beyond the lookup. *)
Theorem duplicate_name_is_answered_500
  (now : Time) (body : api.JSON) (req : CarRequest.t) (w : World) :
  api.ShouldBindJSON body = Ok req ->
  name_taken (CarRequest.Name req) w ->
  next_fault w = None ->
  api.CreateCar now body w
  = (api.handleError 500 "Failed to create car"
       (Some (errorString
          ("car with name " ++ CarRequest.Name req ++ " already exists"))),
     sent (SelectByName (CarRequest.Name req)) w)
  /\ cars (snd (api.CreateCar now body w)) = cars w.
Proof.
  intros Hbind Ht Hf.
  assert (E : api.CreateCar now body w
              = (api.handleError 500 "Failed to create car"
                   (Some (conflict (CarRequest.Name req))),
                 sent (SelectByName (CarRequest.Name req)) w)).
  { unfold api.CreateCar. rewrite Hbind, bind_run.
    rewrite (CreateCar_run now req w (bound_is_valid body req Hbind)).
    rewrite GetByName_served by exact Hf.
    destruct (name_taken_filter _ _ Ht) as (r & rs & Hfl). rewrite Hfl.
    reflexivity. }
  split; [exact E|]. rewrite E. reflexivity.
Qed.

(** C9.  A valid create is rejected as a duplicate exactly when the lookup
    by name returns a car.  When the lookup fails, for whatever reason,
    create goes on with the insert: the statement after the lookup is the
    INSERT.  A statement that the storage refuses is such a failure, also
    when a live row has the name. *)
Theorem uniqueness_check_needs_lookup
  (now : Time) (req : CarRequest.t) (w : World) :
  service.validateCarRequest (Some req) = None ->
  (forall c, fst (repository.GetByName (CarRequest.Name req) w) = Ok c ->
     service.CreateCar now (Some req) w
     = (Err (conflict (CarRequest.Name req)),
        sent (SelectByName (CarRequest.Name req)) w))
  /\ (forall e, fst (repository.GetByName (CarRequest.Name req) w) = Err e ->
        service.CreateCar now (Some req) w
        = insert_and_fetch now (ToModel req)
            (sent (SelectByName (CarRequest.Name req)) w)
        /\ exists rest,
             trace (snd (service.CreateCar now (Some req) w))
             = trace w ++ SelectByName (CarRequest.Name req)
                 :: insert_stmt now (ToModel req) :: rest)
  /\ (fst (service.CreateCar now (Some req) w)
        = Err (conflict (CarRequest.Name req))
      <-> exists c, fst (repository.GetByName (CarRequest.Name req) w) = Ok c)
  /\ (forall m, next_fault w = Some (FailStmt m) ->
        fst (repository.GetByName (CarRequest.Name req) w)
        = Err (errorString ("failed to get car by name: " ++ m))).
Proof.
  intros Hv. pose proof (CreateCar_run now req w Hv) as Hrun.
  repeat split.
  - intros c Hc. rewrite Hrun, Hc. reflexivity.
  - rewrite Hrun, H. reflexivity.
  - rewrite Hrun, H.
    destruct (insert_and_fetch_trace now (ToModel req)
                (sent (SelectByName (CarRequest.Name req)) w)) as [rest Hr].
    exists rest. rewrite Hr, sent_trace, <- app_assoc. reflexivity.
  - rewrite Hrun.
    destruct (fst (repository.GetByName (CarRequest.Name req) w)) as [c|e];
      [eauto|].
    intros H. exfalso. eapply insert_and_fetch_no_conflict; exact H.
  - intros [c Hc]. rewrite Hrun, Hc. reflexivity.
  - intros m Hm. unfold repository.GetByName. rewrite bind_run.
    unfold_sql. fault_cases w; simpl in *; try discriminate.
    inversion Hm; subst. reflexivity.
Qed.

End Dispatch.

(* ================================================================== *)
(** * Properties of a created car and of a soft-deleted one *)

Section Lifecycle.
Context {lib : Lib}.

Lemma filter_targets_fresh (i : Z) (t : list Row) :
  Forall (fun r => 0 < id r < i) t -> filter (targets i) t = [].
Proof.
  induction 1 as [|r t Hr _ IH]; simpl; [reflexivity|].
  unfold targets at 1.
  assert (E : (id r =? i) = false) by (apply Z.eqb_neq; lia).
  now rewrite E.
Qed.

(** C5.  A create that succeeds returns a car whose identifier is positive
    and whose created_at equals its updated_at; the response is the
    rendering of the car that the last statement, a fetch by the
    generated identifier, read back.  That car is the one row of its
    identifier, which carries no deleted_at, and the response gives it
    field by field: the identifier that the sequence assigned, the name,
    the brand and the value as the table keeps them of the request, the
    description of the request, and the instant of the insert as both
    timestamps. *)
Theorem created_car_is_fetched_back
  (now : Time) (req : CarRequest.t) (w w' : World) (resp : CarResponse.t) :
  wf w ->
  service.CreateCar now (Some req) w = (Ok resp, w') ->
  0 < CarResponse.ID resp
  /\ CarResponse.CreatedAt resp = CarResponse.UpdatedAt resp
  /\ service.validateCarRequest (Some req) = None
  /\ (exists r,
        In r (cars w') /\ id r = CarResponse.ID resp
        /\ deleted_at r = None
        /\ created_at r = now /\ updated_at r = now
        /\ resp = ToResponse (repository.scan r)
        /\ (forall r', In r' (cars w') -> id r' = CarResponse.ID resp -> r' = r)
        /\ CarResponse.ID resp = cars_id_seq w
        /\ CarResponse.Name resp = name r
        /\ CarResponse.Brand resp = brand r
        /\ CarResponse.ManufacturingValue resp = manufacturing_value r
        /\ CarResponse.Description resp = description r
        /\ CarResponse.CreatedAt resp = Format_RFC3339 (created_at r)
        /\ CarResponse.UpdatedAt resp = Format_RFC3339 (updated_at r)
        /\ assign (CarRequest.Name req) (CarRequest.Brand req)
             (CarRequest.ManufacturingValue req)
           = inr (name r, brand r, manufacturing_value r)
        /\ description r = CarRequest.Description req)
  /\ (exists w2 car,
        repository.GetByID (CarResponse.ID resp) w2 = (Ok car, w')
        /\ resp = ToResponse car
        /\ trace w' = trace w2 ++ [SelectByID (CarResponse.ID resp)]
        /\ exists sent_before,
             trace w2 = sent_before ++ [insert_stmt now (ToModel req)]).
Proof.
  intros [Hpos Hall] Hrun.
  destruct (service.validateCarRequest (Some req)) as [e|] eqn:Hv.
  { unfold service.CreateCar in Hrun. rewrite Hv in Hrun. discriminate. }
  rewrite (CreateCar_run now req w Hv) in Hrun.
  destruct (fst (repository.GetByName (CarRequest.Name req) w)) as [c|e];
    [discriminate|].
  set (w1 := sent (SelectByName (CarRequest.Name req)) w) in *.
  rewrite insert_and_fetch_run in Hrun.
  destruct (fst (repository.Create now (ToModel req) w1)) as [i|e'] eqn:Ec;
    [|discriminate].
  destruct (Create_Ok now (ToModel req) w1 i Ec)
    as (Hi & (n & b & v & Hk & Hc) & Hs & Ht).
  set (w2 := snd (repository.Create now (ToModel req) w1)) in *.
  destruct (fst (repository.GetByID i w2)) as [car|e'] eqn:Eg; [|discriminate].
  inversion Hrun as [[Hresp Hw']]. clear Hrun.
  destruct (GetByID_Ok i w2 car Eg) as (r & rs & Hfl & Hcar).
  assert (Hseq : i = cars_id_seq w) by (rewrite Hi; reflexivity).
  assert (Hold : filter (targets i) (cars w) = []).
  { apply filter_targets_fresh. now rewrite Hseq. }
  rewrite Hc, filter_app in Hfl. change (cars w1) with (cars w) in Hfl.
  rewrite Hold in Hfl. simpl in Hfl. unfold targets in Hfl. simpl in Hfl.
  rewrite Z.eqb_refl in Hfl. simpl in Hfl.
  inversion Hfl; subst r rs. clear Hfl.
  assert (Hid : CarResponse.ID (ToResponse car) = i) by (subst car; reflexivity).
  rewrite Hid.
  split; [lia|]. split; [subst car; reflexivity|]. split; [reflexivity|].
  split.
  - exists (inserted now (ToModel req) i n b v).
    rewrite sent_cars. fold w2. rewrite Hc. change (cars w1) with (cars w).
    split; [apply in_or_app; right; now left|].
    split; [reflexivity|]. split; [reflexivity|].
    split; [reflexivity|]. split; [reflexivity|].
    split; [now subst car|].
    split.
    { intros r' Hin Hr'. apply in_app_or in Hin. destruct Hin as [Hin|[<-|[]]].
      + rewrite Forall_forall in Hall. specialize (Hall r' Hin). lia.
      + reflexivity. }
    split; [exact Hseq|].
    subst car. cbn.
    split; [reflexivity|]. split; [reflexivity|]. split; [reflexivity|].
    split; [destruct (CarRequest.Description req); reflexivity|].
    split; [reflexivity|]. split; [reflexivity|].
    split; [exact Hk|].
    destruct (CarRequest.Description req); reflexivity.
  - exists w2, car. split.
    + rewrite (surjective_pairing (repository.GetByID i w2)).
      now rewrite Eg, GetByID_world.
    + split; [reflexivity|]. split; [apply sent_trace|].
      exists (trace w1). exact Ht.
Qed.

(** The rows a SELECT yields are live rows of the table. *)
Lemma select_live (q : Stmt) (t rs : list Row) :
  select q t = inr rs -> forall r, In r rs -> In r t /\ live r = true.
Proof.
  destruct q; simpl; intros E; try (inversion E; subst; intros r []).
  - inversion E; subst. intros r Hr. apply filter_In in Hr.
    destruct Hr as [Hr Hb]. apply andb_prop in Hb. tauto.
  - inversion E; subst. intros r Hr. apply filter_In in Hr.
    destruct Hr as [Hr Hb]. apply andb_prop in Hb. tauto.
  - inversion E; subst. intros r Hr. apply filter_In in Hr.
    destruct Hr as [Hr Hb]. apply andb_prop in Hb. tauto.
  - inversion E; subst. intros r Hr. apply filter_In in Hr.
    destruct Hr as [Hr Hb]. apply andb_prop in Hb. tauto.
  - destruct (offset <? 0); [discriminate|].
    destruct (limit <? 0); [discriminate|].
    inversion E; subst. intros r Hr.
    apply In_firstn, In_skipn in Hr.
    apply order_by_id_In, filter_In in Hr. exact Hr.
Qed.

Lemma list_query_live (q : Stmt) (w : World) (k : error -> error)
  (cs : list Car.t) (c : Car.t) :
  fst ((r <- QueryContext q ;;
        match r with
        | Err err => ret (Err (k err))
        | Ok rows => ret (repository.collect rows)
        end) w) = Ok cs ->
  In c cs ->
  exists r, In r (cars w) /\ live r = true /\ c = repository.scan r.
Proof.
  intros H Hc. destruct (list_query_Ok q w k cs H) as (rs & Hs & ->).
  apply in_map_iff in Hc. destruct Hc as (r & <- & Hr).
  destruct (select_live q (cars w) rs Hs r Hr). eauto.
Qed.

Lemma gone_not_returned (i : Z) (w : World) (r : Row) :
  gone i w -> In r (cars w) -> live r = true ->
  Car.ID (repository.scan r) <> i.
Proof.
  intros [Ha _] Hr Hl Hid. simpl in Hid.
  rewrite (Ha r Hr Hid) in Hl. discriminate.
Qed.

(** C3.  Once a delete has succeeded on an identifier, and whatever
    happens to the database afterwards, no standard query returns a car of
    that identifier: the fetch by id returns no car, the fetch by name, the
    brand list, the price-range list and the paged list return none with
    that identifier; the uniqueness check of create does not reject a name
    that only rows of that identifier carry; a further delete of the
    identifier does not succeed, and reports not-found when it is
    served. *)
Theorem soft_deleted_stays_hidden
  (now : Time) (i : Z) (w : World) (es : list event) :
  wf w ->
  fst (repository.Delete now i w) = None ->
  let w2 := run_all es (snd (repository.Delete now i w)) in
  (forall c, fst (repository.GetByID i w2) <> Ok c)
  /\ (forall n c, fst (repository.GetByName n w2) = Ok c -> Car.ID c <> i)
  /\ (forall b cs c, fst (repository.GetByBrand b w2) = Ok cs ->
        In c cs -> Car.ID c <> i)
  /\ (forall lo hi cs c, fst (repository.GetByPriceRange lo hi w2) = Ok cs ->
        In c cs -> Car.ID c <> i)
  /\ (forall page pageSize cs c,
        fst (repository.GetAll page pageSize w2) = Ok cs ->
        In c cs -> Car.ID c <> i)
  /\ (forall now' req,
        (forall r, In r (cars w2) ->
           name r = CarRequest.Name req -> id r = i) ->
        fst (service.CreateCar now' (Some req) w2)
        <> Err (conflict (CarRequest.Name req)))
  /\ (forall now', fst (repository.Delete now' i w2) <> None)
  /\ (forall now', next_fault w2 = None ->
        fst (repository.Delete now' i w2)
        = Some (errorString ("car with ID " ++ fmt_d i ++ " not found"))
        /\ fst (repository.GetByID i w2)
           = Err (errorString ("car with ID " ++ fmt_d i ++ " not found"))).
Proof.
  intros Hwf Hdel w2.
  assert (Hg : gone i w2).
  { apply gone_run_all. now apply Delete_gone. }
  assert (Ha : filter (targets i) (cars w2) = []).
  { apply absent_filter. exact (proj1 Hg). }
  repeat split.
  - intros c Hc. destruct (GetByID_Ok i w2 c Hc) as (r & rs & Hfl & _).
    congruence.
  - intros n c Hc. destruct (GetByName_Ok n w2 c Hc) as (r & rs & Hfl & ->).
    assert (Hin : In r (filter (fun r => String.eqb (name r) n && live r)
                          (cars w2))) by (rewrite Hfl; now left).
    apply filter_In in Hin. destruct Hin as [Hin Hb].
    apply andb_prop in Hb. destruct Hb as [_ Hl].
    exact (gone_not_returned i w2 r Hg Hin Hl).
  - intros b cs c Hcs Hc.
    destruct (list_query_live _ w2 _ cs c Hcs Hc) as (r & Hr & Hl & ->).
    exact (gone_not_returned i w2 r Hg Hr Hl).
  - intros lo hi cs c Hcs Hc.
    destruct (list_query_live _ w2 _ cs c Hcs Hc) as (r & Hr & Hl & ->).
    exact (gone_not_returned i w2 r Hg Hr Hl).
  - intros page pageSize cs c Hcs Hc.
    destruct (list_query_live _ w2 _ cs c Hcs Hc) as (r & Hr & Hl & ->).
    exact (gone_not_returned i w2 r Hg Hr Hl).
  - intros now' req Honly Hconf.
    destruct (service.validateCarRequest (Some req)) as [e|] eqn:Hv.
    + unfold service.CreateCar in Hconf. rewrite Hv in Hconf.
      cbn [fst ret] in Hconf. inversion Hconf; subst e. clear Hconf.
      unfold service.validateCarRequest, conflict in Hv.
      destruct (String.eqb (CarRequest.Name req) EmptyString);
        [simpl in Hv; discriminate|].
      destruct (String.eqb (CarRequest.Brand req) EmptyString);
        [simpl in Hv; discriminate|].
      destruct (Qle_bool (CarRequest.ManufacturingValue req) 0);
        [simpl in Hv; discriminate|].
      destruct (Qle_bool (15000000 # 1) (CarRequest.ManufacturingValue req));
        simpl in Hv; discriminate.
    + rewrite (CreateCar_run now' req w2 Hv) in Hconf.
      destruct (fst (repository.GetByName (CarRequest.Name req) w2))
        as [c|e] eqn:Hl.
      * destruct (GetByName_Ok _ w2 c Hl) as (r & rs & Hfl & _).
        assert (Hin : In r (filter (fun r => String.eqb (name r)
                              (CarRequest.Name req) && live r) (cars w2)))
          by (rewrite Hfl; now left).
        apply filter_In in Hin. destruct Hin as [Hin Hb].
        apply andb_prop in Hb. destruct Hb as [Hn Hlive].
        apply String.eqb_eq in Hn.
        rewrite (proj1 Hg r Hin (Honly r Hin Hn)) in Hlive. discriminate.
      * eapply insert_and_fetch_no_conflict; exact Hconf.
  - intros now'. apply Delete_absent. exact (proj1 Hg).
  - rewrite Delete_served by assumption. now rewrite Ha.
  - rewrite GetByID_served by assumption. now rewrite Ha.
Qed.

End Lifecycle.

(* ================================================================== *)
(** * Properties of the paged list request *)

Section PagedRequest.
Context {lib : Lib}.

Lemma api_GetAllCars_run (pq sq : option string) (w : World) :
  api.GetAllCars pq sq w
  = let page := fst (strconv.Atoi (api.DefaultQuery pq "1")) in
    let pageSize := fst (strconv.Atoi (api.DefaultQuery sq "10")) in
    (match fst (service.GetAllCars page pageSize w) with
     | Err err => api.handleError 500 "Failed to get cars" (Some err)
     | Ok found => {| api.Status := 200; api.Payload := api.JSONCars found |}
     end,
     snd (service.GetAllCars page pageSize w)).
Proof.
  unfold api.GetAllCars. cbv zeta. rewrite bind_run.
  destruct (fst (service.GetAllCars _ _ w)); reflexivity.
Qed.


End PagedRequest.

(* ================================================================== *)
(** * The 404 branch of the handlers *)

Section NotFound.
Context {lib : Lib}.

(** Every error of the four services is made by [errors.New] or
    [fmt.Errorf]: none is, or wraps, the sentinel [sql.ErrNoRows]. *)
Lemma validate_error_fresh (req : option CarRequest.t) (e : error) :
  service.validateCarRequest req = Some e -> Is e ErrNoRows = false.
Proof.
  unfold service.validateCarRequest. destruct req as [r|]; [|now inversion 1].
  destruct (String.eqb (CarRequest.Name r) EmptyString); [now inversion 1|].
  destruct (String.eqb (CarRequest.Brand r) EmptyString); [now inversion 1|].
  destruct (Qle_bool (CarRequest.ManufacturingValue r) 0); [now inversion 1|].
  destruct (Qle_bool (15000000 # 1) (CarRequest.ManufacturingValue r));
    [now inversion 1|discriminate].
Qed.

Lemma GetCarByID_error_fresh (i : Z) (w : World) (e : error) :
  fst (service.GetCarByID i w) = Err e -> Is e ErrNoRows = false.
Proof.
  unfold service.GetCarByID. destruct (i <=? 0); [now inversion 1|].
  rewrite bind_run. destruct (fst (repository.GetByID i w)); now inversion 1.
Qed.

Lemma GetCarByName_error_fresh (n : string) (w : World) (e : error) :
  fst (service.GetCarByName n w) = Err e -> Is e ErrNoRows = false.
Proof.
  unfold service.GetCarByName.
  destruct (String.eqb n EmptyString); [now inversion 1|].
  rewrite bind_run. destruct (fst (repository.GetByName n w)); now inversion 1.
Qed.

Lemma UpdateCar_error_fresh
  (now : Time) (i : Z) (req : option CarRequest.t) (w : World) (e : error) :
  fst (service.UpdateCar now i req w) = Err e -> Is e ErrNoRows = false.
Proof.
  unfold service.UpdateCar. destruct (i <=? 0); [now inversion 1|].
  destruct (service.validateCarRequest req) as [e'|] eqn:Hv.
  { inversion 1; subst. eapply validate_error_fresh; eauto. }
  destruct req as [r|]; [|now inversion 1].
  rewrite bind_run. destruct (fst (repository.GetByID i w)) as [c|e0];
    [|now inversion 1].
  rewrite bind_run. destruct (fst (repository.Update now _ _)) as [e1|];
    [now inversion 1|].
  rewrite bind_run. destruct (fst (repository.GetByID i _)); now inversion 1.
Qed.

Lemma DeleteCar_error_fresh (now : Time) (i : Z) (w : World) (e : error) :
  fst (service.DeleteCar now i w) = Some e -> Is e ErrNoRows = false.
Proof.
  unfold service.DeleteCar. destruct (i <=? 0); [now inversion 1|].
  rewrite bind_run. destruct (fst (repository.GetByID i w)) as [c|e0];
    [|now inversion 1].
  rewrite bind_run. destruct (fst (repository.Delete now i _)) as [e1|];
    [now inversion 1|discriminate].
Qed.

(** No request to the four routes is ever answered 404, whatever the
    database holds and whatever the storage does. *)
Lemma not_found_branch_is_dead
  (now : Time) (id_param name : string) (body : api.JSON) (w : World) :
  api.Status (fst (api.GetCarByID id_param w)) <> 404
  /\ api.Status (fst (api.GetCarByName name w)) <> 404
  /\ api.Status (fst (api.UpdateCar now id_param body w)) <> 404
  /\ api.Status (fst (api.DeleteCar now id_param w)) <> 404.
Proof.
  repeat split.
  - unfold api.GetCarByID. destruct (strconv.ParseInt id_param) as [i err].
    destruct (_ || _); [simpl; discriminate|].
    rewrite bind_run. destruct (fst (service.GetCarByID i w)) as [c|e] eqn:E;
      [simpl; discriminate|].
    rewrite (GetCarByID_error_fresh i w e E). simpl; discriminate.
  - unfold api.GetCarByName.
    destruct (String.eqb name EmptyString); [simpl; discriminate|].
    rewrite bind_run. destruct (fst (service.GetCarByName name w)) as [c|e] eqn:E;
      [simpl; discriminate|].
    rewrite (GetCarByName_error_fresh name w e E). simpl; discriminate.
  - unfold api.UpdateCar. destruct (strconv.ParseInt id_param) as [i err].
    destruct (_ || _); [simpl; discriminate|].
    destruct (api.ShouldBindJSON body) as [req|e0]; [|simpl; discriminate].
    rewrite bind_run.
    destruct (fst (service.UpdateCar now i (Some req) w)) as [c|e] eqn:E;
      [simpl; discriminate|].
    rewrite (UpdateCar_error_fresh now i (Some req) w e E). simpl; discriminate.
  - unfold api.DeleteCar. destruct (strconv.ParseInt id_param) as [i err].
    destruct (_ || _); [simpl; discriminate|].
    rewrite bind_run. destruct (fst (service.DeleteCar now i w)) as [e|] eqn:E;
      [|simpl; discriminate].
    rewrite (DeleteCar_error_fresh now i w e E). simpl; discriminate.
Qed.

End NotFound.

(* ================================================================== *)
(** * The properties on concrete requests *)

Import Examples.

Lemma garage_wf : wf garage.
Proof.
  unfold wf, garage, world; simpl. split; [lia|].
  repeat constructor; simpl; lia.
Qed.

(** C1: the car 3 of the garage is soft-deleted and no live car is named
    EV6; the four requests are answered 500. *)
Lemma missing_target_is_answered_500_witness :
  strconv.ParseInt "3" = (3, None) /\ 0 < 3 /\ absent 3 garage
  /\ "EV6"%string <> EmptyString /\ name_free "EV6" garage
  /\ api.ShouldBindJSON (api.Decoded (request "EV6" "Kia" (40000 # 1)))
     = Ok (request "EV6" "Kia" (40000 # 1))
  /\ next_fault garage = None
  /\ api.Status (fst (api.GetCarByID "3" garage)) = 500
  /\ api.Status (fst (api.GetCarByName "EV6" garage)) = 500
  /\ api.Status (fst (api.UpdateCar 200 "3"
                        (api.Decoded (request "EV6" "Kia" (40000 # 1))) garage)) = 500
  /\ api.Status (fst (api.DeleteCar 200 "3" garage)) = 500.
Proof.
  assert (Ha : absent 3 garage) by (apply absent_filter; reflexivity).
  assert (Hn : name_free "EV6" garage) by (apply name_free_filter; reflexivity).
  assert (Hne : "EV6"%string <> EmptyString) by discriminate.
  destruct (missing_target_is_answered_500 200 "3" "EV6" 3
              (api.Decoded (request "EV6" "Kia" (40000 # 1)))
              (request "EV6" "Kia" (40000 # 1)) garage
              eq_refl eq_refl Ha Hne Hn eq_refl eq_refl)
    as (H1 & H2 & H3 & H4).
  split; [reflexivity|]. split; [lia|]. split; [exact Ha|].
  split; [exact Hne|]. split; [exact Hn|].
  split; [reflexivity|]. split; [reflexivity|].
  rewrite H1, H2, H3, H4. repeat split.
Defined.

(** C2, as stated, fails: a create with the name of a live car is answered
    500, which is no status of the 400 class. *)
Lemma duplicate_name_is_not_a_client_error :
  name_taken "Model S" garage
  /\ api.ShouldBindJSON (api.Decoded (request "Model S" "Tesla" (79990 # 1)))
     = Ok (request "Model S" "Tesla" (79990 # 1))
  /\ ~ (400 <= api.Status (fst (api.CreateCar 200
                 (api.Decoded (request "Model S" "Tesla" (79990 # 1))) garage))
        < 500).
Proof.
  split; [|split; [reflexivity|]].
  - exists (row 1 "Model S" "Tesla" (79990 # 1) None).
    split; [now left|split; reflexivity].
  - assert (E : api.Status (fst (api.CreateCar 200
                 (api.Decoded (request "Model S" "Tesla" (79990 # 1))) garage))
                = 500) by (vm_compute; reflexivity).
    rewrite E. lia.
Qed.

Lemma duplicate_name_is_answered_500_witness :
  api.ShouldBindJSON (api.Decoded (request "Model S" "Tesla" (79990 # 1)))
    = Ok (request "Model S" "Tesla" (79990 # 1))
  /\ name_taken "Model S" garage
  /\ next_fault garage = None
  /\ fst (api.CreateCar 200
            (api.Decoded (request "Model S" "Tesla" (79990 # 1))) garage)
     = api.handleError 500 "Failed to create car"
         (Some (errorString "car with name Model S already exists"))
  /\ cars (snd (api.CreateCar 200
            (api.Decoded (request "Model S" "Tesla" (79990 # 1))) garage))
     = cars garage.
Proof.
  assert (Ht : name_taken "Model S" garage).
  { exists (row 1 "Model S" "Tesla" (79990 # 1) None).
    split; [now left|split; reflexivity]. }
  destruct (duplicate_name_is_answered_500 200
              (api.Decoded (request "Model S" "Tesla" (79990 # 1)))
              (request "Model S" "Tesla" (79990 # 1)) garage
              eq_refl Ht eq_refl) as [H1 H2].
  split; [reflexivity|]. split; [exact Ht|]. split; [reflexivity|].
  split; [now rewrite H1|exact H2].
Defined.

(** C3: the car 1 of the garage is deleted; a car of the same name is then
    created, another is updated and the list is read. *)
Lemma soft_deleted_stays_hidden_witness :
  let es := [ Create 310 (ToModel (request "Model S" "Tesla" (81000 # 1)));
              Update 320 (UpdateFromRequest
                            (repository.scan (row 2 "Model 3" "Tesla" (46990 # 1) None))
                            (request "Model 3" "Tesla" (47000 # 1)));
              GetAll 1 10 ] in
  let w2 := run_all es (snd (repository.Delete 300 1 garage)) in
  wf garage
  /\ fst (repository.Delete 300 1 garage) = None
  /\ (forall c, fst (repository.GetByID 1 w2) <> Ok c)
  /\ (forall n c, fst (repository.GetByName n w2) = Ok c -> Car.ID c <> 1)
  /\ (forall now', fst (repository.Delete now' 1 w2) <> None).
Proof.
  intros es w2.
  destruct (soft_deleted_stays_hidden 300 1 garage es garage_wf eq_refl)
    as (H1 & H2 & _ & _ & _ & _ & H7 & _).
  split; [apply garage_wf|]. split; [reflexivity|].
  split; [exact H1|]. split; [exact H2|exact H7].
Defined.

(** C4: a create at the upper bound is rejected and the garage is left as
    it was; the same request below the bound passes the validation. *)
Lemma validation_precedes_storage_witness :
  (15000000 # 1 <= 15000000 # 1)%Q
  /\ (exists e,
        service.validateCarRequest
          (Some (request "Model X" "Tesla" (15000000 # 1))) = Some e
        /\ service.CreateCar 200
             (Some (request "Model X" "Tesla" (15000000 # 1))) garage
           = (Err e, garage))
  /\ service.validateCarRequest
       (Some (request "Model X" "Tesla" (99990 # 1))) = None.
Proof.
  assert (Hq : (15000000 # 1 <= 15000000 # 1)%Q) by apply Qle_refl.
  split; [exact Hq|]. split.
  - apply (proj1 (validation_precedes_storage 200 1
                    (request "Model X" "Tesla" (15000000 # 1)) garage)).
    right. exact Hq.
  - apply (proj2 (validation_precedes_storage 200 1
                    (request "Model X" "Tesla" (99990 # 1)) garage));
      try reflexivity; discriminate.
Defined.

(** C5: a create in the garage. *)
Lemma created_car_is_fetched_back_witness :
  wf garage
  /\ exists resp w',
       service.CreateCar 200 (Some (request "Model Y" "Tesla" (53990 # 1))) garage
       = (Ok resp, w')
       /\ 0 < CarResponse.ID resp
       /\ CarResponse.CreatedAt resp = CarResponse.UpdatedAt resp.
Proof.
  split; [apply garage_wf|].
  destruct (service.CreateCar 200
              (Some (request "Model Y" "Tesla" (53990 # 1))) garage)
    as [[resp|e] w'] eqn:E.
  - exists resp, w'. split; [reflexivity|].
    destruct (created_car_is_fetched_back 200
                (request "Model Y" "Tesla" (53990 # 1)) garage w' resp
                garage_wf E) as (H1 & H2 & _).
    split; assumption.
  - vm_compute in E. discriminate.
Defined.

(** C6, as stated, fails: page 288230376151711745 of size 64 has the offset
    2^64, which an int holds as 0; over the two live cars of the garage the
    query returns both cars, where skipping 2^64 rows leaves none. *)
Lemma page_offset_wraps_around :
  1 <= 288230376151711745 /\ 1 <= 64
  /\ next_fault garage = None
  /\ wrap64 (wrap64 (288230376151711745 - 1) * 64) = 0
  /\ fst (repository.GetAll 288230376151711745 64 garage)
     = Ok (map repository.scan (order_by_id (filter live (cars garage))))
  /\ fst (repository.GetAll 288230376151711745 64 garage)
     <> Ok (map repository.scan (listPage 288230376151711745 64 (cars garage))).
Proof.
  assert (E : fst (repository.GetAll 288230376151711745 64 garage)
              = Ok (map repository.scan (order_by_id (filter live (cars garage)))))
    by (vm_compute; reflexivity).
  split; [lia|]. split; [lia|]. split; [reflexivity|].
  split; [vm_compute; reflexivity|]. split; [exact E|].
  rewrite E. intros H.
  assert (H' : List.length (map repository.scan
                              (order_by_id (filter live (cars garage))))
               = List.length (map repository.scan
                                (listPage 288230376151711745 64 (cars garage)))).
  { exact (f_equal (fun r => match r with
                             | Ok l => List.length l
                             | Err _ => 0%nat
                             end) H). }
  clear H.
  rewrite !length_map, listPage_length, order_by_id_length in H'.
  change (List.length (filter live (cars garage))) with 2%nat in H'.
  remember (Z.to_nat ((288230376151711745 - 1) * 64)) as skipped eqn:Hb.
  assert (2 <= skipped)%nat
    by (subst skipped; apply Nat2Z.inj_le; rewrite Z2Nat.id; lia).
  remember (Z.to_nat 64) as limit. lia.
Qed.

Lemma page_within_int_range_witness :
  1 <= 3 /\ 1 <= 10 /\ (3 - 1) * 10 <= MaxInt64 /\ next_fault fleet = None
  /\ fst (repository.GetAll 3 10 fleet)
     = Ok (map repository.scan (listPage 3 10 (cars fleet)))
  /\ List.length (listPage 1 10 (cars fleet)) = 10%nat
  /\ List.length (listPage 2 10 (cars fleet)) = 10%nat
  /\ List.length (listPage 3 10 (cars fleet)) = 5%nat.
Proof.
  assert (Hm : forall p, 1 <= p <= 3 -> (p - 1) * 10 <= MaxInt64)
    by (intros p Hp; unfold MaxInt64; lia).
  assert (H25 : List.length (filter live (cars fleet)) = 25%nat) by reflexivity.
  destruct (page_within_int_range 1 10 fleet ltac:(lia) ltac:(lia)
              (Hm 1 ltac:(lia)) eq_refl) as (_ & _ & _ & _ & L1).
  destruct (page_within_int_range 2 10 fleet ltac:(lia) ltac:(lia)
              (Hm 2 ltac:(lia)) eq_refl) as (_ & _ & _ & _ & L2).
  destruct (page_within_int_range 3 10 fleet ltac:(lia) ltac:(lia)
              (Hm 3 ltac:(lia)) eq_refl) as (E & _ & _ & _ & L3).
  split; [lia|]. split; [lia|]. split; [apply Hm; lia|]. split; [reflexivity|].
  split; [exact E|].
  split; [exact (proj1 (L1 H25 eq_refl) eq_refl)|].
  split; [exact (proj1 (proj2 (L2 H25 eq_refl)) eq_refl)|].
  exact (proj2 (proj2 (L3 H25 eq_refl)) eq_refl).
Defined.

(** C7: the two live cars of the garage cost exactly the two bounds. *)
Lemma price_range_inclusive_witness :
  (46990 # 1 <= 79990 # 1)%Q /\ next_fault garage = None
  /\ exists found,
       fst (repository.GetByPriceRange (46990 # 1) (79990 # 1) garage) = Ok found
       /\ In (repository.scan (row 1 "Model S" "Tesla" (79990 # 1) None)) found
       /\ In (repository.scan (row 2 "Model 3" "Tesla" (46990 # 1) None)) found.
Proof.
  assert (Hq : (46990 # 1 <= 79990 # 1)%Q) by (unfold Qle; simpl; lia).
  split; [exact Hq|]. split; [reflexivity|].
  destruct (price_range_inclusive (46990 # 1) (79990 # 1) garage Hq eq_refl)
    as (found & E & Hb & _).
  exists found. split; [exact E|]. split.
  - apply Hb; [now left|reflexivity|right; apply Qeq_refl].
  - apply Hb; [right; now left|reflexivity|left; apply Qeq_refl].
Defined.

(** C8, as stated, fails: in the garage, where page 1 is served, page
    922337203685477582 of size 10 has an offset that an int holds as a
    negative number, which the server refuses. *)
Lemma huge_page_fails :
  next_fault garage = None
  /\ is_Ok (fst (service.GetAllCars 1 10 garage)) = true
  /\ wrap64 (wrap64 (922337203685477582 - 1) * 10) = -9223372036854775806
  /\ fst (service.GetAllCars 922337203685477582 10 garage)
     = Err (errorString
         "failed to get all cars: failed to get all cars: OFFSET must not be negative").
Proof. repeat split; vm_compute; reflexivity. Qed.

Lemma paged_list_normalises_witness :
  next_fault garage = None
  /\ (norm_page 0 - 1) * norm_size 1000 <= MaxInt64
  /\ service.GetAllCars 0 1000 garage = service.GetAllCars 1 10 garage
  /\ fst (service.GetAllCars 0 1000 garage)
     = Ok (service.toCarResponses
             (map repository.scan (listPage 1 10 (cars garage)))).
Proof.
  assert (Hm : (norm_page 0 - 1) * norm_size 1000 <= MaxInt64)
    by (vm_compute; discriminate).
  destruct (paged_list_normalises 0 1000 garage) as (_ & _ & _ & _ & E & H).
  destruct (paged_list_normalises 1 10 garage) as (_ & _ & _ & _ & E' & _).
  split; [reflexivity|]. split; [exact Hm|]. split.
  - rewrite E, E'. reflexivity.
  - exact (H eq_refl Hm).
Defined.

(** C9: while the storage refuses the lookup, a create with the name of a
    live car goes through and inserts a second car of that name. *)
Lemma uniqueness_check_needs_lookup_witness :
  service.validateCarRequest (Some (request "Model S" "Tesla" (79990 # 1))) = None
  /\ name_taken "Model S" outage
  /\ next_fault outage = Some (FailStmt "connection refused")
  /\ service.CreateCar 200 (Some (request "Model S" "Tesla" (79990 # 1))) outage
     = insert_and_fetch 200 (ToModel (request "Model S" "Tesla" (79990 # 1)))
         (sent (SelectByName "Model S") outage)
  /\ is_Ok (fst (service.CreateCar 200
                   (Some (request "Model S" "Tesla" (79990 # 1))) outage)) = true.
Proof.
  destruct (uniqueness_check_needs_lookup 200
              (request "Model S" "Tesla" (79990 # 1)) outage eq_refl)
    as (_ & H2 & _ & H4).
  destruct (H2 _ (H4 _ eq_refl)) as [E _].
  split; [reflexivity|]. split.
  - exists (row 1 "Model S" "Tesla" (79990 # 1) None).
    split; [now left|split; reflexivity].
  - split; [reflexivity|]. split; [exact E|]. rewrite E. reflexivity.
Defined.



(* ================================================================== *)
(** * Decimal texts of identifiers and page numbers *)

Section Decimal.

Lemma uint_value_acc (d : Decimal.uint) (acc : positive) :
  uint_value (Z.pos acc) d = Z.pos (Pos.of_uint_acc d acc).
Proof.
  revert acc.
  induction d; intros acc; cbn [uint_value Pos.of_uint_acc]; try reflexivity;
    rewrite <- IHd; f_equal; lia.
Qed.

Lemma uint_value_of_uint (d : Decimal.uint) :
  uint_value 0 d = Z.of_N (Pos.of_uint d).
Proof.
  induction d; cbn [uint_value Pos.of_uint]; try reflexivity; try exact IHd;
    cbn [Z.of_N]; rewrite <- uint_value_acc; reflexivity.
Qed.

Lemma uint_value_to_uint (p : positive) :
  uint_value 0 (Pos.to_uint p) = Z.pos p.
Proof.
  rewrite uint_value_of_uint, DecimalPos.Unsigned.of_to. reflexivity.
Qed.

Lemma uint_value_grows (d : Decimal.uint) (acc : Z) :
  0 <= acc -> acc <= uint_value acc d.
Proof.
  revert acc. induction d; intros acc Ha; cbn [uint_value]; try lia;
    (eapply Z.le_trans; [|apply IHd]; lia).
Qed.

(** The digit loop reads the digits of a number that fits 64 bits. *)
Lemma ParseUint_loop_digits (d : Decimal.uint) (n : Z) :
  0 <= n -> uint_value n d <= MaxUint64 ->
  strconv.ParseUint_loop n (NilEmpty.string_of_uint d)
  = strconv.Scanned (uint_value n d).
Proof.
  revert n. unfold MaxUint64, strconv.cutoff.
  induction d; intros n Hn Hv; cbn [NilEmpty.string_of_uint uint_value] in *;
    [reflexivity|..];
    cbn [strconv.ParseUint_loop];
    match goal with
    | |- context [strconv.digit ?c] =>
        let k := eval vm_compute in (strconv.digit c) in
        change (strconv.digit c) with k; cbv iota
    end;
    match goal with
    | H : uint_value ?m d <= _ |- _ =>
        pose proof (uint_value_grows d m ltac:(lia)) as Hg
    end;
    change (strconv.cutoff) with 1844674407370955162;
    unfold MaxUint64; change (2 ^ 64 - 1) with 18446744073709551615 in *;
    (destruct (1844674407370955162 <=? n) eqn:E1;
       [apply Z.leb_le in E1; lia|]);
    match goal with
    | |- context [18446744073709551615 <? ?m] =>
        destruct (18446744073709551615 <? m) eqn:E2;
          [apply Z.ltb_lt in E2; lia|]
    end;
    apply IHd; lia.
Qed.

Lemma string_of_uint_head (d : Decimal.uint) :
  d <> Decimal.Nil ->
  exists c rest,
    NilEmpty.string_of_uint d = String c rest /\ strconv.is_sign c = false.
Proof.
  destruct d; intros H; [contradiction|..]; simpl; eexists; eexists;
    split; reflexivity.
Qed.

(** The decimal text of an int64 is parsed back to it. *)
Lemma ParseInt_as_fmt_d (fn : string) (i : Z) :
  is_int64 i -> strconv.ParseInt_as fn (fmt_d i) = (i, None).
Proof.
  unfold is_int64, MinInt64, MaxInt64, fmt_d. intros Hi.
  destruct i as [|p|p]; [reflexivity| |].
  - cbn [Z.to_int NilZero.string_of_int].
    pose proof (Unsigned.to_uint_nonnil p) as Hnn.
    assert (Es : NilZero.string_of_uint (Pos.to_uint p)
                 = NilEmpty.string_of_uint (Pos.to_uint p)).
    { unfold NilZero.string_of_uint. destruct (Pos.to_uint p);
        [contradiction|..]; reflexivity. }
    rewrite Es.
    destruct (string_of_uint_head (Pos.to_uint p) Hnn) as (c & rest & Ec & Hc).
    pose proof (ParseUint_loop_digits (Pos.to_uint p) 0 ltac:(lia)) as Hl.
    rewrite uint_value_to_uint in Hl.
    specialize (Hl ltac:(unfold MaxUint64; lia)).
    rewrite Ec in *. unfold strconv.ParseInt_as. rewrite Hc.
    unfold strconv.ParseUint. rewrite Hl.
    assert (En : Ascii.eqb c "-" = false).
    { unfold strconv.is_sign in Hc. apply orb_false_elim in Hc. tauto. }
    rewrite En. cbn [negb andb].
    destruct (2 ^ 63 <=? Z.pos p) eqn:E; [apply Z.leb_le in E; lia|].
    reflexivity.
  - cbn [Z.to_int NilZero.string_of_int].
    pose proof (Unsigned.to_uint_nonnil p) as Hnn.
    assert (Es : NilZero.string_of_uint (Pos.to_uint p)
                 = NilEmpty.string_of_uint (Pos.to_uint p)).
    { unfold NilZero.string_of_uint. destruct (Pos.to_uint p);
        [contradiction|..]; reflexivity. }
    rewrite Es.
    destruct (string_of_uint_head (Pos.to_uint p) Hnn) as (c & rest & Ec & Hc).
    pose proof (ParseUint_loop_digits (Pos.to_uint p) 0 ltac:(lia)) as Hl.
    rewrite uint_value_to_uint in Hl.
    specialize (Hl ltac:(unfold MaxUint64; lia)).
    rewrite Ec in *. unfold strconv.ParseInt_as.
    change (strconv.is_sign "-") with true. cbv iota.
    change (Ascii.eqb "-" "-") with true.
    unfold strconv.ParseUint. rewrite Hl. cbn [negb andb].
    destruct (2 ^ 63 <? Z.pos p) eqn:E; [apply Z.ltb_lt in E; lia|].
    reflexivity.
Qed.

Lemma ParseUint_loop_Atoi_loop (s : string) (n v : Z) :
  strconv.ParseUint_loop n s = strconv.Scanned v ->
  strconv.Atoi_loop n s = Some v.
Proof.
  revert n. induction s as [|c s IH]; intros n; simpl.
  - intros H; inversion H; reflexivity.
  - destruct (strconv.digit c); [|discriminate].
    destruct (strconv.cutoff <=? n); [discriminate|].
    destruct (MaxUint64 <? n * 10 + z); [discriminate|]. apply IH.
Qed.

(** The fast path of [Atoi] returns what the general path returns. *)
Lemma Atoi_of_ParseInt_as (fn s : string) (v : Z) :
  strconv.ParseInt_as fn s = (v, None) -> strconv.Atoi s = (v, None).
Proof.
  assert (Hgen : forall f, strconv.ParseInt_as fn s = (v, None) ->
                           strconv.ParseInt_as f s = (v, None)).
  { unfold strconv.ParseInt_as. intros f. destruct s as [|c rest]; [discriminate|].
    destruct (strconv.ParseUint _); try discriminate;
      destruct (negb _ && _); try discriminate;
      destruct (_ && _); try discriminate; auto. }
  intros H. unfold strconv.Atoi.
  destruct ((0 <? Z.of_nat (String.length s))
            && (Z.of_nat (String.length s) <? 19)); [|now apply Hgen].
  unfold strconv.ParseInt_as in H. destruct s as [|c rest]; [discriminate|].
  unfold strconv.ParseUint in H.
  destruct (if strconv.is_sign c then rest else String c rest) as [|c' s'] eqn:Ed;
    [discriminate|].
  destruct (strconv.ParseUint_loop 0 (String c' s')) as [un| |] eqn:El;
    try discriminate.
  - rewrite (ParseUint_loop_Atoi_loop _ _ _ El).
    destruct (negb (Ascii.eqb c "-") && (2 ^ 63 <=? un)); [discriminate|].
    destruct (Ascii.eqb c "-" && (2 ^ 63 <? un)); [discriminate|].
    exact H.
  - destruct (Ascii.eqb c "-"); cbn in H; discriminate.
Qed.

Lemma ParseInt_fmt_d (i : Z) : is_int64 i -> strconv.ParseInt (fmt_d i) = (i, None).
Proof. apply ParseInt_as_fmt_d. Qed.

Lemma Atoi_fmt_d (i : Z) : is_int64 i -> strconv.Atoi (fmt_d i) = (i, None).
Proof.
  intros Hi. apply (Atoi_of_ParseInt_as "Atoi"). now apply ParseInt_as_fmt_d.
Qed.

End Decimal.

(* ================================================================== *)
(** * Served statements and the rows they touch *)

Section Served.
Context {lib : Lib}.

Lemma healthy_next_fault (w : World) : healthy w -> next_fault w = None.
Proof. unfold healthy, next_fault. intros ->. reflexivity. Qed.

Lemma healthy_sent (q : Stmt) (w : World) : healthy w -> healthy (sent q w).
Proof. unfold healthy. rewrite sent_faults. intros ->. reflexivity. Qed.

Lemma ExecContext_run (q : Stmt) (w : World) :
  next_fault w = None -> refused q (cars w) = None ->
  ExecContext q w
  = (Ok (Ok (affected q (cars w))),
     {| cars := map (update_row q) (cars w); cars_id_seq := cars_id_seq w;
        faults := tl (faults w); trace := trace w ++ [q] |}).
Proof.
  unfold_sql. fault_cases w; simpl; intros E R; try discriminate;
    rewrite R; reflexivity.
Qed.

Lemma QueryRow_insert_run (now : Time) (car : Car.t) (w : World)
  (n b : string) (v : Q) :
  next_fault w = None -> cars_id_seq w <= MaxInt64 -> kept car n b v ->
  QueryRow_insert (insert_stmt now car) w
  = (Ok (cars_id_seq w),
     {| cars := cars w ++ [inserted now car (cars_id_seq w) n b v];
        cars_id_seq := cars_id_seq w + 1;
        faults := tl (faults w);
        trace := trace w ++ [insert_stmt now car] |}).
Proof.
  unfold_sql. unfold insert_stmt, inserted, kept. intros Hf Hs Hk.
  assert (Hlt : (MaxInt64 <? cars_id_seq w) = false) by (apply Z.ltb_ge; lia).
  fault_cases w; simpl in *; try discriminate; rewrite Hlt, Hk; reflexivity.
Qed.

(** An INSERT that the table refuses adds no row and spends a value of
    the sequence. *)
Lemma QueryRow_insert_refused (now : Time) (car : Car.t) (w : World)
  (m : string) :
  next_fault w = None -> cars_id_seq w <= MaxInt64 ->
  assign (Car.Name car) (Car.Brand car) (Car.ManufacturingValue car) = inl m ->
  QueryRow_insert (insert_stmt now car) w
  = (Err (foreignError m),
     {| cars := cars w;
        cars_id_seq := cars_id_seq w + 1;
        faults := tl (faults w);
        trace := trace w ++ [insert_stmt now car] |}).
Proof.
  unfold_sql. unfold insert_stmt. intros Hf Hs Hk.
  assert (Hlt : (MaxInt64 <? cars_id_seq w) = false) by (apply Z.ltb_ge; lia).
  fault_cases w; simpl in *; try discriminate; rewrite Hlt, Hk; reflexivity.
Qed.

(** The row an UPDATE makes of a row, once the table accepts its values. *)
Lemma update_row_kept
  (n b : string) (v : Q) (d : option string) (t : Time) (i : Z) (r : Row)
  (n' b' : string) (v' : Q) :
  assign n b v = inr (n', b', v') ->
  update_row (UpdateCar n b v d t i) r
  = if targets i r then
      {| id := id r; name := n'; brand := b'; manufacturing_value := v';
         description := d; created_at := created_at r;
         updated_at := t; deleted_at := deleted_at r |}
    else r.
Proof. intros E. cbn [update_row]. rewrite E. reflexivity. Qed.

Lemma refused_kept
  (n b : string) (v : Q) (d : option string) (t : Time) (i : Z)
  (rows : list Row) (n' b' : string) (v' : Q) :
  assign n b v = inr (n', b', v') ->
  refused (UpdateCar n b v d t i) rows = None.
Proof.
  intros E. cbn [refused]. rewrite E. destruct (existsb _ _); reflexivity.
Qed.

Lemma GetByID_run (i : Z) (w : World) :
  next_fault w = None ->
  repository.GetByID i w
  = (match filter (targets i) (cars w) with
     | [] => Err (errorString ("car with ID " ++ fmt_d i ++ " not found"))
     | r :: _ => Ok (repository.scan r)
     end, sent (SelectByID i) w).
Proof.
  intros Hf. rewrite (surjective_pairing (repository.GetByID i w)).
  now rewrite GetByID_world, GetByID_served.
Qed.

Lemma GetByName_run (n : string) (w : World) :
  next_fault w = None ->
  repository.GetByName n w
  = (match filter (fun r => String.eqb (name r) n && live r) (cars w) with
     | [] => Err (errorString ("car with name " ++ n ++ " not found"))
     | r :: _ => Ok (repository.scan r)
     end, sent (SelectByName n) w).
Proof.
  intros Hf. rewrite (surjective_pairing (repository.GetByName n w)).
  now rewrite GetByName_world, GetByName_served.
Qed.

Lemma Create_run (now : Time) (car : Car.t) (w : World)
  (n b : string) (v : Q) :
  next_fault w = None -> cars_id_seq w <= MaxInt64 -> kept car n b v ->
  repository.Create now car w
  = (Ok (cars_id_seq w),
     {| cars := cars w ++ [inserted now car (cars_id_seq w) n b v];
        cars_id_seq := cars_id_seq w + 1;
        faults := tl (faults w);
        trace := trace w ++ [insert_stmt now car] |}).
Proof.
  intros Hf Hs Hk.
  rewrite Create_unfold, (QueryRow_insert_run now car w n b v) by assumption.
  reflexivity.
Qed.

Lemma Create_refused (now : Time) (car : Car.t) (w : World) (m : string) :
  next_fault w = None -> cars_id_seq w <= MaxInt64 ->
  assign (Car.Name car) (Car.Brand car) (Car.ManufacturingValue car) = inl m ->
  repository.Create now car w
  = (Err (errorString ("failed to create car: " ++ m)),
     {| cars := cars w;
        cars_id_seq := cars_id_seq w + 1;
        faults := tl (faults w);
        trace := trace w ++ [insert_stmt now car] |}).
Proof.
  intros Hf Hs Hk.
  rewrite Create_unfold, (QueryRow_insert_refused now car w m) by assumption.
  reflexivity.
Qed.

Lemma Update_run (now : Time) (car : Car.t) (w : World)
  (n b : string) (v : Q) :
  next_fault w = None -> kept car n b v ->
  let q := UpdateCar (Car.Name car) (Car.Brand car) (Car.ManufacturingValue car)
             (Value (Car.Description car)) now (Car.ID car) in
  repository.Update now car w
  = (match filter (targets (Car.ID car)) (cars w) with
     | [] => Some (errorString
               ("car with ID " ++ fmt_d (Car.ID car) ++ " not found"))
     | _ :: _ => None
     end,
     {| cars := map (update_row q) (cars w); cars_id_seq := cars_id_seq w;
        faults := tl (faults w); trace := trace w ++ [q] |}).
Proof.
  intros Hf Hk q. unfold repository.Update. rewrite bind_run. fold q.
  rewrite (ExecContext_run q w Hf
             (refused_kept _ _ _ _ _ _ (cars w) n b v Hk)).
  cbn [fst snd affected q].
  destruct (filter (targets (Car.ID car)) (cars w)); reflexivity.
Qed.

Lemma Delete_run (now : Time) (i : Z) (w : World) :
  next_fault w = None ->
  repository.Delete now i w
  = (match filter (targets i) (cars w) with
     | [] => Some (errorString ("car with ID " ++ fmt_d i ++ " not found"))
     | _ :: _ => None
     end,
     {| cars := map (update_row (SoftDelete now i)) (cars w);
        cars_id_seq := cars_id_seq w;
        faults := tl (faults w);
        trace := trace w ++ [SoftDelete now i] |}).
Proof.
  intros Hf. unfold repository.Delete. rewrite bind_run.
  rewrite (ExecContext_run (SoftDelete now i) w Hf eq_refl). cbn [fst snd affected].
  destruct (filter (targets i) (cars w)); reflexivity.
Qed.

(** A row of a filter satisfies the test. *)
Lemma filter_head {A} (f : A -> bool) (l : list A) (x : A) (xs : list A) :
  filter f l = x :: xs -> In x l /\ f x = true.
Proof.
  intros E. apply filter_In. rewrite E. now left.
Qed.

Lemma targets_id (i : Z) (r : Row) : targets i r = true -> id r = i /\ live r = true.
Proof.
  unfold targets. intros H. apply andb_prop in H. destruct H as [H1 H2].
  apply Z.eqb_eq in H1. auto.
Qed.

(** An UPDATE of the business fields keeps the identifier and the
    deletion mark of every row, hence what every lookup by id selects. *)
Lemma targets_updated
  (n b : string) (v : Q) (d : option string) (t : Time) (i j : Z) (r : Row) :
  targets j (update_row (UpdateCar n b v d t i) r) = targets j r.
Proof.
  cbn [update_row]. destruct (targets i r); [|reflexivity].
  destruct (assign n b v) as [m|[[n' b'] v']]; reflexivity.
Qed.

Lemma filter_map_commute {A} (f : A -> bool) (g : A -> A) (l : list A) :
  (forall x, f (g x) = f x) -> filter f (map g l) = map g (filter f l).
Proof.
  intros H. induction l as [|x l IH]; simpl; [reflexivity|].
  rewrite H. destruct (f x); simpl; now rewrite IH.
Qed.

(** What a request leaves of its description on its way to the column. *)
Lemma Value_of_request (c : Car.t) (req : CarRequest.t) :
  Value (Car.Description (UpdateFromRequest c req)) = CarRequest.Description req
  /\ Value (Car.Description (ToModel req)) = CarRequest.Description req.
Proof. unfold Value. simpl. destruct (CarRequest.Description req); auto. Qed.


Lemma unique_target (t : list Row) (r : Row) :
  NoDup (map id t) -> In r t -> live r = true ->
  filter (targets (id r)) t = [r].
Proof.
  induction t as [|x t IH]; intros Hnd Hin Hl; [destruct Hin|].
  simpl in Hnd. inversion Hnd as [|? ? Hx Hnd']; subst.
  assert (Hout : forall y, In y t -> id y <> id x).
  { intros y Hy E. apply Hx. rewrite <- E. now apply in_map. }
  destruct Hin as [->|Hin]; simpl.
  - unfold targets at 1. rewrite Z.eqb_refl, Hl. simpl. f_equal.
    clear IH Hnd Hnd' Hx. induction t as [|y t IH]; simpl; [reflexivity|].
    unfold targets at 1.
    assert (E : (id y =? id r) = false)
      by (apply Z.eqb_neq; apply Hout; now left).
    rewrite E. simpl. apply IH. intros z Hz. apply Hout. now right.
  - unfold targets at 1.
    assert (E : (id x =? id r) = false)
      by (apply Z.eqb_neq; intros E; apply (Hout r Hin); now symmetry).
    rewrite E. simpl. now apply IH.
Qed.

Lemma keyed_run (e : event) (w : World) : keyed w -> keyed (run e w).
Proof.
  intros [Hwf Hnd]. split; [now apply wf_run|].
  destruct Hwf as [Hpos Hall].
  destruct (run_shape e w) as [[Hc Hs]|[(r & Hc & Hr & Hs)|(q & Hc & Hs)]];
    rewrite Hc.
  - exact Hnd.
  - rewrite map_app. simpl. apply NoDup_app; [exact Hnd| |].
    + repeat constructor. intros [].
    + intros x Hx [<-|[]]. apply in_map_iff in Hx.
      destruct Hx as (y & Ey & Hy). rewrite Forall_forall in Hall.
      specialize (Hall y Hy). lia.
  - rewrite map_map.
    rewrite (map_ext _ id (update_row_id q)). exact Hnd.
Qed.

End Served.

(* ================================================================== *)
(** * Further properties of the repository *)

Section Table.
Context {lib : Lib}.

(** X1.  The primary key is an invariant: when the identifiers of a table
    are distinct, positive and below the sequence, they stay so after any
    sequence of repository calls and storage faults. *)
Theorem primary_key_is_kept (es : list event) (w : World) :
  keyed w -> keyed (run_all es w).
Proof.
  revert w. induction es as [|e es IH]; intros w Hk; simpl; [exact Hk|].
  apply IH. now apply keyed_run.
Qed.

Lemma run_keeps_rows (e : event) (w : World) :
  cars_id_seq w <= cars_id_seq (run e w)
  /\ (List.length (cars w) <= List.length (cars (run e w)))%nat
  /\ forall r, In r (cars w) ->
       exists r', In r' (cars (run e w))
                  /\ id r' = id r /\ created_at r' = created_at r.
Proof.
  destruct (run_shape e w) as [[Hc Hs]|[(r0 & Hc & Hr & Hs)|(q & Hc & Hs)]];
    rewrite Hc.
  - split; [lia|]. split; [lia|]. intros r Hin. exists r. auto.
  - rewrite Hs. split; [lia|]. split; [rewrite length_app; simpl; lia|].
    intros r Hin. exists r. split; [apply in_or_app; now left|auto].
  - rewrite Hs. split; [lia|]. split; [rewrite length_map; lia|].
    intros r Hin. exists (update_row q r). split; [now apply in_map|].
    split; [apply update_row_id|].
    destruct q; simpl; try reflexivity; destruct (targets i r);
      try reflexivity.
    destruct (assign n b v) as [m|[[n' b'] v']]; reflexivity.
Qed.

(** X2.  No repository call removes a row or takes the sequence back:
    after any sequence of calls and faults the table is at least as long,
    the sequence at least as far, and every row is still there under its
    identifier and creation time. *)
Theorem rows_are_never_removed (es : list event) (w : World) :
  cars_id_seq w <= cars_id_seq (run_all es w)
  /\ (List.length (cars w) <= List.length (cars (run_all es w)))%nat
  /\ forall r, In r (cars w) ->
       exists r', In r' (cars (run_all es w))
                  /\ id r' = id r /\ created_at r' = created_at r.
Proof.
  revert w. induction es as [|e es IH]; intros w; simpl.
  - split; [lia|]. split; [lia|]. intros r Hr. exists r. auto.
  - destruct (run_keeps_rows e w) as (H1 & H2 & H3).
    destruct (IH (run e w)) as (I1 & I2 & I3).
    split; [lia|]. split; [lia|]. intros r Hr.
    destruct (H3 r Hr) as (r1 & Hr1 & E1 & E2).
    destruct (I3 r1 Hr1) as (r2 & Hr2 & F1 & F2).
    exists r2. split; [exact Hr2|]. split; congruence.
Qed.

(** X3.  Whatever the storage does, a lookup returns what was asked for: a
    car returned by id has that identifier, a car returned by name has
    that name, every car of a brand list has that brand, and each of them
    renders a live row of the table. *)
Theorem lookups_return_what_was_asked (w : World) :
  (forall i c, fst (repository.GetByID i w) = Ok c ->
     Car.ID c = i
     /\ exists r, In r (cars w) /\ live r = true /\ c = repository.scan r)
  /\ (forall n c, fst (repository.GetByName n w) = Ok c ->
        Car.Name c = n
        /\ exists r, In r (cars w) /\ live r = true /\ c = repository.scan r)
  /\ (forall b cs c, fst (repository.GetByBrand b w) = Ok cs -> In c cs ->
        Car.Brand c = b
        /\ exists r, In r (cars w) /\ live r = true /\ c = repository.scan r).
Proof.
  split; [|split].
  - intros i c Hc. destruct (GetByID_Ok i w c Hc) as (r & rs & Hfl & ->).
    destruct (filter_head _ _ _ _ Hfl) as [Hin Ht].
    destruct (targets_id i r Ht) as [Hid Hl]. split; [exact Hid|eauto].
  - intros n c Hc. destruct (GetByName_Ok n w c Hc) as (r & rs & Hfl & ->).
    destruct (filter_head _ _ _ _ Hfl) as [Hin Ht].
    apply andb_prop in Ht. destruct Ht as [Hn Hl].
    apply String.eqb_eq in Hn. split; [exact Hn|eauto].
  - intros b cs c Hcs Hc.
    destruct (list_query_Ok _ w _ cs Hcs) as (rs & Hs & ->).
    apply in_map_iff in Hc. destruct Hc as (r & <- & Hr).
    cbn [select] in Hs. inversion Hs; subst rs. clear Hs.
    apply filter_In in Hr. destruct Hr as [Hin Ht].
    apply andb_prop in Ht. destruct Ht as [Hb Hl].
    apply String.eqb_eq in Hb. split; [exact Hb|eauto].
Qed.

(** X4.  Under the primary key, a served lookup by the identifier of a
    live row returns that very row. *)
Theorem lookup_finds_the_row (r : Row) (w : World) :
  keyed w -> next_fault w = None -> In r (cars w) -> live r = true ->
  repository.GetByID (id r) w
  = (Ok (repository.scan r), sent (SelectByID (id r)) w).
Proof.
  intros [_ Hnd] Hf Hin Hl. rewrite GetByID_run by exact Hf.
  now rewrite (unique_target (cars w) r Hnd Hin Hl).
Qed.

Lemma live_rows_struck (now : Time) (i : Z) (t : list Row) :
  filter live (map (update_row (SoftDelete now i)) t)
  = filter (fun r => negb (id r =? i)) (filter live t).
Proof.
  induction t as [|r t IH]; simpl; [reflexivity|].
  unfold targets. destruct (live r) eqn:El.
  - destruct (id r =? i) eqn:Ei; simpl.
    + rewrite Ei. simpl. exact IH.
    + rewrite El, Ei. simpl. now rewrite IH.
  - rewrite andb_false_r, El. exact IH.
Qed.

Lemma targets_struck (now : Time) (i j : Z) (t : list Row) :
  j <> i ->
  filter (targets j) (map (update_row (SoftDelete now i)) t)
  = filter (targets j) t.
Proof.
  intros Hj. induction t as [|r t IH]; simpl; [reflexivity|].
  rewrite IH. cbn [update_row].
  destruct (targets i r) eqn:Et; [|reflexivity].
  destruct (targets_id i r Et) as [Hid _].
  unfold targets. simpl.
  assert (E : (id r =? j) = false) by (apply Z.eqb_neq; lia).
  now rewrite E.
Qed.

(** X5.  A delete that succeeds takes exactly its target out of what is
    live: the live rows afterwards are the former live rows of another
    identifier, in the same order; the lookup of any other identifier and
    the list of any brand, when served, return what they returned before,
    less the deleted car. *)
Theorem delete_hides_exactly_its_target (now : Time) (i : Z) (w : World) :
  healthy w ->
  fst (repository.Delete now i w) = None ->
  let w' := snd (repository.Delete now i w) in
  filter live (cars w')
    = filter (fun r => negb (id r =? i)) (filter live (cars w))
  /\ (forall j, j <> i ->
        fst (repository.GetByID j w') = fst (repository.GetByID j w))
  /\ (forall b found, fst (repository.GetByBrand b w) = Ok found ->
        fst (repository.GetByBrand b w')
        = Ok (filter (fun c => negb (Car.ID c =? i)) found)).
Proof.
  intros Hh Hd w'.
  destruct (Delete_Ok now i w Hd) as (_ & Hc & _).
  assert (Hf : next_fault w = None) by now apply healthy_next_fault.
  assert (Hf' : next_fault w' = None).
  { unfold w'. rewrite Delete_run by exact Hf. cbn [snd].
    unfold next_fault. simpl. unfold healthy in Hh. now rewrite Hh. }
  fold w' in Hc. split; [|split].
  - rewrite Hc. apply live_rows_struck.
  - intros j Hj. rewrite !GetByID_served by assumption.
    rewrite Hc, targets_struck by exact Hj. reflexivity.
  - intros b found Hb. unfold repository.GetByBrand in *.
    rewrite list_query_served in * by assumption. cbn [select] in *.
    inversion Hb; subst found. clear Hb. f_equal. rewrite Hc.
    clear. induction (cars w) as [|r t IH]; simpl; [reflexivity|].
    unfold targets.
    destruct (String.eqb (brand r) b) eqn:Eb, (live r) eqn:El,
             (id r =? i) eqn:Ei; simpl;
      rewrite ?Eb, ?El, ?Ei; simpl; rewrite ?Ei; simpl; now rewrite IH.
Qed.

End Table.

(* ================================================================== *)
(** * Further properties of the writes and of the paged list *)

Section Frames.
Context {lib : Lib}.

Lemma Forall2_map_r {A} (P : A -> A -> Prop) (g : A -> A) (l : list A) :
  (forall x, P x (g x)) -> Forall2 P l (map g l).
Proof. intros H. induction l; simpl; constructor; auto. Qed.

Lemma Forall2_same {A} (P : A -> A -> Prop) (l : list A) :
  (forall x, P x x) -> Forall2 P l l.
Proof. intros H. induction l; constructor; auto. Qed.

(** X6.  An update changes nothing but the business fields and the update
    time of the live rows of its identifier: whatever the storage does,
    the table keeps its rows in place, each with its identifier, creation
    time and deletion mark, every row of another identifier and every
    soft-deleted row is left as it was, and the sequence does not move. *)
Theorem update_touches_only_its_target (now : Time) (car : Car.t) (w : World) :
  cars_id_seq (snd (repository.Update now car w)) = cars_id_seq w
  /\ Forall2 (fun r r' =>
                id r' = id r /\ created_at r' = created_at r
                /\ deleted_at r' = deleted_at r
                /\ (targets (Car.ID car) r = false -> r' = r))
       (cars w) (cars (snd (repository.Update now car w))).
Proof.
  rewrite Update_world. split; [apply ExecContext_seq|].
  destruct (ExecContext_world
              (UpdateCar (Car.Name car) (Car.Brand car)
                 (Car.ManufacturingValue car) (Value (Car.Description car))
                 now (Car.ID car)) w) as [E|E]; rewrite E.
  - apply Forall2_same. auto.
  - apply Forall2_map_r. intros r. cbn [update_row].
    destruct (targets (Car.ID car) r); simpl; auto.
    destruct (assign _ _ _) as [m|[[n' b'] v']]; simpl;
      repeat split; auto; discriminate.
Qed.

(** X7.  A delete is soft: whatever the storage does, every row stays in
    place with its identifier, name, brand, value, description and
    creation time, rows of another identifier and rows already deleted are
    left as they were, and no row comes back to life; when the delete
    succeeds, each live row of the identifier carries the time of the
    delete as its deletion mark. *)
Theorem delete_keeps_the_data (now : Time) (i : Z) (w : World) :
  Forall2 (fun r r' =>
             id r' = id r /\ name r' = name r /\ brand r' = brand r
             /\ manufacturing_value r' = manufacturing_value r
             /\ description r' = description r
             /\ created_at r' = created_at r
             /\ (targets i r = false -> r' = r)
             /\ (live r' = true -> live r = true))
    (cars w) (cars (snd (repository.Delete now i w)))
  /\ (fst (repository.Delete now i w) = None ->
      Forall2 (fun r r' => targets i r = true -> r' = struck now r)
        (cars w) (cars (snd (repository.Delete now i w)))).
Proof.
  split.
  - rewrite Delete_world.
    destruct (ExecContext_world (SoftDelete now i) w) as [E|E]; rewrite E.
    + apply Forall2_same. intros r. repeat split; auto.
    + apply Forall2_map_r. intros r. cbn [update_row].
      destruct (targets i r) eqn:Et; simpl.
      * destruct (targets_id i r Et) as [_ Hl].
        repeat split; auto; discriminate.
      * repeat split; auto.
  - intros Hd. destruct (Delete_Ok now i w Hd) as (_ & Hc & _). rewrite Hc.
    apply Forall2_map_r. intros r Ht. cbn [update_row]. rewrite Ht. reflexivity.
Qed.

Lemma firstn_add {A} (a b : nat) (l : list A) :
  firstn (a + b) l = firstn a l ++ firstn b (skipn a l).
Proof.
  revert l. induction a as [|a IH]; intros l; simpl; [reflexivity|].
  destruct l as [|x l]; simpl; [now rewrite firstn_nil|]. now rewrite IH.
Qed.

(** X8.  A page past the end is an empty list, not an error: when the
    offset of the page is within the int range and at least the number of
    live rows, the served query returns no car; so does the service for a
    page size it lets through. *)
Theorem page_past_the_end_is_empty (page pageSize : Z) (w : World) :
  1 <= page -> 1 <= pageSize -> (page - 1) * pageSize <= MaxInt64 ->
  next_fault w = None ->
  Z.of_nat (List.length (filter live (cars w))) <= (page - 1) * pageSize ->
  fst (repository.GetAll page pageSize w) = Ok []
  /\ (pageSize <= 100 -> fst (service.GetAllCars page pageSize w) = Ok []).
Proof.
  intros Hp Hs Ho Hf Hlen.
  assert (Hnil : listPage page pageSize (cars w) = []).
  { apply length_zero_iff_nil. rewrite listPage_length. lia. }
  assert (E : fst (repository.GetAll page pageSize w) = Ok []).
  { rewrite GetAll_served by assumption. now rewrite Hnil. }
  split; [exact E|]. intros H100. rewrite GetAllCars_run. cbn [fst].
  assert (Enp : norm_page page = page).
  { unfold norm_page. destruct (page <? 1) eqn:E1; [apply Z.ltb_lt in E1; lia|].
    reflexivity. }
  assert (Ens : norm_size pageSize = pageSize).
  { unfold norm_size.
    destruct (pageSize <? 1) eqn:E1; [apply Z.ltb_lt in E1; lia|].
    destruct (100 <? pageSize) eqn:E2; [apply Z.ltb_lt in E2; lia|].
    reflexivity. }
  rewrite Enp, Ens, E. reflexivity.
Qed.

(** X9.  Pages read in turn neither repeat nor skip a car: for a page size
    of at least 1, the served pages 1 to n, one after the other, are the
    first n * pageSize live cars by ascending identifier, as long as the
    offsets stay within the int range. *)
Theorem pages_read_in_turn (n : nat) (pageSize : Z) (w : World) :
  1 <= pageSize -> Z.of_nat n * pageSize <= MaxInt64 ->
  next_fault w = None ->
  flat_map (fun p => match fst (repository.GetAll (Z.of_nat p) pageSize w) with
                     | Ok found => found
                     | Err _ => []
                     end) (seq 1 n)
  = map repository.scan
      (firstn (n * Z.to_nat pageSize) (order_by_id (filter live (cars w)))).
Proof.
  intros Hs Hn Hf. induction n as [|n IH]; [reflexivity|].
  rewrite seq_S, flat_map_app. cbn [flat_map]. rewrite app_nil_r.
  rewrite IH by nia. clear IH.
  change (1 + n)%nat with (S n).
  assert (Hlast : (Z.of_nat (S n) - 1) * pageSize <= MaxInt64) by nia.
  rewrite (GetAll_served (Z.of_nat (S n)) pageSize w ltac:(lia) Hs Hlast Hf).
  rewrite <- map_app. f_equal.
  replace (S n * Z.to_nat pageSize)%nat
    with (n * Z.to_nat pageSize + Z.to_nat pageSize)%nat by lia.
  rewrite firstn_add. f_equal. unfold listPage. do 2 f_equal. nia.
Qed.

Lemma brand_filter_none (b : string) (t : list Row) :
  (forall r, In r t -> brand r = b -> live r = false) ->
  filter (fun r => String.eqb (brand r) b && live r) t = [].
Proof.
  induction t as [|r t IH]; intros Hnone; simpl; [reflexivity|].
  destruct (String.eqb (brand r) b) eqn:Eb; simpl.
  - apply String.eqb_eq in Eb. rewrite (Hnone r (or_introl eq_refl) Eb).
    apply IH. intros r' Hr'. apply Hnone. now right.
  - apply IH. intros r' Hr'. apply Hnone. now right.
Qed.

(** X10.  The brand list is exact and an empty result is no error: a served
    request for a non-empty brand is answered 200 with the live cars of
    that brand, in the order of the table, and with the empty list when no
    live car has the brand. *)
Theorem brand_list_is_exact (b : string) (w : World) :
  b <> EmptyString -> next_fault w = None ->
  api.GetCarsByBrand b w
  = ({| api.Status := 200;
        api.Payload :=
          api.JSONCars
            (map ToResponse
               (map repository.scan
                  (filter (fun r => String.eqb (brand r) b && live r) (cars w)))) |},
     sent (SelectByBrand b) w)
  /\ ((forall r, In r (cars w) -> brand r = b -> live r = false) ->
      fst (api.GetCarsByBrand b w)
      = {| api.Status := 200; api.Payload := api.JSONCars [] |}).
Proof.
  intros Hb Hf.
  assert (Hne : String.eqb b EmptyString = false).
  { destruct (String.eqb b EmptyString) eqn:E; [|reflexivity].
    apply String.eqb_eq in E. contradiction. }
  assert (E : api.GetCarsByBrand b w
     = ({| api.Status := 200;
           api.Payload :=
             api.JSONCars
               (map ToResponse
                  (map repository.scan
                     (filter (fun r => String.eqb (brand r) b && live r) (cars w)))) |},
        sent (SelectByBrand b) w)).
  { unfold api.GetCarsByBrand. rewrite Hne, bind_run.
    unfold service.GetCarsByBrand. rewrite Hne, bind_run.
    rewrite GetByBrand_world. unfold repository.GetByBrand.
    rewrite list_query_served by exact Hf. reflexivity. }
  split; [exact E|]. intros Hnone. rewrite E. cbn [fst].
  now rewrite (brand_filter_none b (cars w) Hnone).
Qed.

End Frames.

(* ================================================================== *)
(** * Further properties of create *)

Section Creation.
Context {lib : Lib}.

Lemma filter_targets_appended (now : Time) (car : Car.t) (w : World)
  (n b : string) (v : Q) :
  wf w ->
  filter (targets (cars_id_seq w))
    (cars w ++ [inserted now car (cars_id_seq w) n b v])
  = [inserted now car (cars_id_seq w) n b v].
Proof.
  intros [_ Hall]. rewrite filter_app, filter_targets_fresh by exact Hall.
  simpl. unfold targets. simpl. now rewrite Z.eqb_refl.
Qed.

Lemma insert_and_fetch_served (now : Time) (car : Car.t) (w : World)
  (n b : string) (v : Q) :
  healthy w -> wf w -> cars_id_seq w <= MaxInt64 -> kept car n b v ->
  insert_and_fetch now car w
  = (Ok (ToResponse (repository.scan (inserted now car (cars_id_seq w) n b v))),
     {| cars := cars w ++ [inserted now car (cars_id_seq w) n b v];
        cars_id_seq := cars_id_seq w + 1;
        faults := [];
        trace := trace w ++ [insert_stmt now car; SelectByID (cars_id_seq w)] |}).
Proof.
  intros Hh Hwf Hs Hk. pose proof (healthy_next_fault w Hh) as Hf.
  rewrite insert_and_fetch_run, (Create_run now car w n b v Hf Hs Hk).
  cbn [fst snd].
  unfold healthy in Hh. rewrite Hh.
  rewrite GetByID_run by reflexivity. cbn [fst cars].
  rewrite filter_targets_appended by exact Hwf.
  unfold sent, send. cbn. rewrite <- app_assoc. reflexivity.
Qed.

Lemma api_CreateCar_served
  (now : Time) (body : api.JSON) (req : CarRequest.t) (w : World)
  (n b : string) (v : Q) :
  healthy w -> wf w -> cars_id_seq w <= MaxInt64 ->
  api.ShouldBindJSON body = Ok req ->
  name_free (CarRequest.Name req) w ->
  kept (ToModel req) n b v ->
  api.CreateCar now body w
  = ({| api.Status := 201;
        api.Payload :=
          api.JSONCar
            (ToResponse (repository.scan
               (inserted now (ToModel req) (cars_id_seq w) n b v))) |},
     {| cars := cars w ++ [inserted now (ToModel req) (cars_id_seq w) n b v];
        cars_id_seq := cars_id_seq w + 1;
        faults := [];
        trace := trace w ++ [SelectByName (CarRequest.Name req);
                             insert_stmt now (ToModel req);
                             SelectByID (cars_id_seq w)] |}).
Proof.
  intros Hh Hwf Hs Hbind Hfree Hk.
  unfold api.CreateCar. rewrite Hbind, bind_run.
  rewrite (CreateCar_run now req w (bound_is_valid body req Hbind)).
  rewrite GetByName_served by now apply healthy_next_fault.
  apply name_free_filter in Hfree. rewrite Hfree.
  rewrite (insert_and_fetch_served now (ToModel req) _ n b v);
    [|now apply healthy_sent|exact Hwf|exact Hs|exact Hk].
  cbn [fst snd]. rewrite sent_trace, sent_cars, sent_seq.
  rewrite <- app_assoc. reflexivity.
Qed.


(** X12.  A car that was just created can be fetched: after a create that
    met no obstacle, the table accepting its values, a GET with the
    decimal text of the identifier it returned is answered 200 with the
    very car the create returned. *)
Theorem created_car_can_be_fetched
  (now : Time) (body : api.JSON) (req : CarRequest.t) (w : World)
  (n b : string) (v : Q) :
  healthy w -> wf w -> cars_id_seq w <= MaxInt64 ->
  api.ShouldBindJSON body = Ok req ->
  name_free (CarRequest.Name req) w ->
  assign (CarRequest.Name req) (CarRequest.Brand req)
    (CarRequest.ManufacturingValue req) = inr (n, b, v) ->
  api.Status (fst (api.CreateCar now body w)) = 201
  /\ api.Status (fst (api.GetCarByID (fmt_d (cars_id_seq w))
                        (snd (api.CreateCar now body w)))) = 200
  /\ api.Payload (fst (api.GetCarByID (fmt_d (cars_id_seq w))
                         (snd (api.CreateCar now body w))))
     = api.Payload (fst (api.CreateCar now body w)).
Proof.
  intros Hh Hwf Hs Hbind Hfree Hk.
  rewrite (api_CreateCar_served now body req w n b v Hh Hwf Hs Hbind Hfree Hk).
  cbn [fst snd].
  assert (Hi : is_int64 (cars_id_seq w)).
  { destruct Hwf as [Hpos _]. unfold is_int64, MinInt64, MaxInt64 in *. lia. }
  assert (Hle : (cars_id_seq w <=? 0) = false).
  { destruct Hwf as [Hpos _]. apply Z.leb_gt. lia. }
  unfold api.GetCarByID. rewrite (ParseInt_fmt_d _ Hi), Hle. cbn [orb].
  rewrite bind_run. unfold service.GetCarByID. rewrite Hle, bind_run.
  rewrite GetByID_run by reflexivity. cbn [fst snd cars].
  rewrite filter_targets_appended by exact Hwf.
  split; [reflexivity|]. split; reflexivity.
Qed.

(** X13.  Create is not atomic: when the lookup and the insert are served,
    the table accepting the row, and the storage then keeps the fetch
    that follows from running, the handler answers 500 and the new row
    stays in the table. *)
Theorem failed_refetch_leaves_the_row
  (now : Time) (body : api.JSON) (req : CarRequest.t) (w : World)
  (m : string) (fs : list (option Fault)) (n b : string) (v : Q) :
  faults w = None :: None :: Some (FailStmt m) :: fs ->
  cars_id_seq w <= MaxInt64 ->
  api.ShouldBindJSON body = Ok req ->
  name_free (CarRequest.Name req) w ->
  assign (CarRequest.Name req) (CarRequest.Brand req)
    (CarRequest.ManufacturingValue req) = inr (n, b, v) ->
  fst (api.CreateCar now body w)
  = api.handleError 500 "Failed to create car"
      (Some (errorString
         ("failed to fetch created car: failed to get car: " ++ m)))
  /\ cars (snd (api.CreateCar now body w))
     = cars w ++ [{| id := cars_id_seq w; name := n; brand := b;
                     manufacturing_value := v;
                     description := CarRequest.Description req;
                     created_at := now; updated_at := now;
                     deleted_at := None |}].
Proof.
  intros Hfs Hs Hbind Hfree Hk.
  assert (Hf : next_fault w = None) by (unfold next_fault; now rewrite Hfs).
  unfold api.CreateCar. rewrite Hbind, bind_run.
  rewrite (CreateCar_run now req w (bound_is_valid body req Hbind)).
  rewrite GetByName_served by exact Hf.
  apply name_free_filter in Hfree. rewrite Hfree.
  rewrite insert_and_fetch_run.
  assert (Hf1 : next_fault (sent (SelectByName (CarRequest.Name req)) w) = None).
  { unfold next_fault. rewrite sent_faults, Hfs. reflexivity. }
  rewrite (Create_run now (ToModel req) _ n b v Hf1 Hs Hk). cbn [fst snd].
  rewrite sent_faults, Hfs. cbn [tl].
  unfold repository.GetByID at 1. rewrite bind_run.
  unfold_sql. cbn. unfold inserted.
  rewrite (proj2 (Value_of_request (ToModel req) req)). split; reflexivity.
Qed.

(** A create whose row the table refuses is answered 500 after the lookup
    and the insert; no row is added, and the value of the sequence that
    was drawn for the row is spent. *)
Lemma api_CreateCar_refused
  (now : Time) (body : api.JSON) (req : CarRequest.t) (w : World) (m : string) :
  healthy w -> cars_id_seq w <= MaxInt64 ->
  api.ShouldBindJSON body = Ok req ->
  name_free (CarRequest.Name req) w ->
  assign (CarRequest.Name req) (CarRequest.Brand req)
    (CarRequest.ManufacturingValue req) = inl m ->
  api.CreateCar now body w
  = (api.handleError 500 "Failed to create car"
       (Some (errorString
          ("failed to create car: failed to create car: " ++ m))),
     {| cars := cars w;
        cars_id_seq := cars_id_seq w + 1;
        faults := [];
        trace := trace w ++ [SelectByName (CarRequest.Name req);
                             insert_stmt now (ToModel req)] |}).
Proof.
  intros Hh Hs Hbind Hfree Hk.
  unfold api.CreateCar. rewrite Hbind, bind_run.
  rewrite (CreateCar_run now req w (bound_is_valid body req Hbind)).
  rewrite GetByName_served by now apply healthy_next_fault.
  apply name_free_filter in Hfree. rewrite Hfree.
  rewrite insert_and_fetch_run.
  rewrite (Create_refused now (ToModel req) _ m);
    [|apply healthy_next_fault; now apply healthy_sent|exact Hs|exact Hk].
  cbn [fst snd]. rewrite sent_trace, sent_cars, sent_seq, sent_faults.
  unfold healthy in Hh. rewrite Hh. cbn [tl].
  rewrite <- app_assoc. reflexivity.
Qed.

End Creation.

(* ================================================================== *)
(** * Further properties of update and delete *)

Section Mutation.
Context {lib : Lib}.

Lemma api_UpdateCar_served
  (now : Time) (id_param : string) (body : api.JSON) (req : CarRequest.t)
  (r0 : Row) (rs : list Row) (w : World) (n b : string) (v : Q) :
  healthy w ->
  strconv.ParseInt id_param = (id r0, None) -> 0 < id r0 ->
  api.ShouldBindJSON body = Ok req ->
  filter (targets (id r0)) (cars w) = r0 :: rs ->
  assign (CarRequest.Name req) (CarRequest.Brand req)
    (CarRequest.ManufacturingValue req) = inr (n, b, v) ->
  api.UpdateCar now id_param body w
  = ({| api.Status := 200;
        api.Payload :=
          api.JSONCar (ToResponse (repository.scan (replaced now req n b v r0))) |},
     {| cars := map (replace_target now req n b v (id r0)) (cars w);
        cars_id_seq := cars_id_seq w;
        faults := [];
        trace := trace w ++
          [SelectByID (id r0);
           UpdateCar (CarRequest.Name req) (CarRequest.Brand req)
             (CarRequest.ManufacturingValue req) (CarRequest.Description req)
             now (id r0);
           SelectByID (id r0)] |}).
Proof.
  intros Hh Hparse Hpos Hbind Hfl Hk.
  assert (Hle : (id r0 <=? 0) = false) by (apply Z.leb_gt; lia).
  pose proof (healthy_next_fault w Hh) as Hf.
  destruct (filter_head _ _ _ _ Hfl) as [Hin Ht].
  unfold api.UpdateCar. rewrite Hparse, Hle, Hbind. cbn [orb].
  rewrite bind_run. unfold service.UpdateCar.
  rewrite Hle, (bound_is_valid body req Hbind).
  rewrite bind_run, (GetByID_run _ w Hf), Hfl. cbn [fst snd].
  rewrite bind_run.
  assert (Hf1 : next_fault (sent (SelectByID (id r0)) w) = None)
    by (apply healthy_next_fault; now apply healthy_sent).
  rewrite (Update_run now (UpdateFromRequest (repository.scan r0) req)
             (sent (SelectByID (id r0)) w) n b v Hf1 Hk). cbv zeta.
  change (Car.ID (UpdateFromRequest (repository.scan r0) req)) with (id r0).
  change (Car.Name (UpdateFromRequest (repository.scan r0) req))
    with (CarRequest.Name req).
  change (Car.Brand (UpdateFromRequest (repository.scan r0) req))
    with (CarRequest.Brand req).
  change (Car.ManufacturingValue (UpdateFromRequest (repository.scan r0) req))
    with (CarRequest.ManufacturingValue req).
  rewrite sent_cars, Hfl. cbn [fst snd].
  rewrite bind_run, GetByID_run;
    [|unfold next_fault; cbn [faults]; rewrite sent_faults;
      unfold healthy in Hh; now rewrite Hh].
  cbn [fst snd cars].
  rewrite filter_map_commute by (intros x; apply targets_updated).
  rewrite Hfl. cbn [map].
  rewrite (proj1 (Value_of_request (repository.scan r0) req)).
  rewrite (map_ext _ (replace_target now req n b v (id r0)))
    by (intros x; apply (update_row_kept _ _ _ _ _ _ _ n b v Hk)).
  rewrite (update_row_kept _ _ _ _ _ _ _ n b v Hk), Ht.
  fold (replaced now req n b v r0).
  unfold ret. f_equal.
  unfold sent, send. cbn [fst snd cars cars_id_seq faults trace].
  unfold healthy in Hh. rewrite Hh. cbn [tl].
  rewrite <- !app_assoc. reflexivity.
Qed.


(** X15.  An update checks no uniqueness: under the conditions of a
    successful update, when another live car already has the name that
    the table keeps of the request, the update is answered 200 all the
    same and leaves two live cars of different identifiers with that
    name. *)
Theorem update_can_duplicate_a_name
  (now : Time) (id_param : string) (body : api.JSON) (req : CarRequest.t)
  (r0 r2 : Row) (rs : list Row) (w : World) (n b : string) (v : Q) :
  healthy w ->
  strconv.ParseInt id_param = (id r0, None) -> 0 < id r0 ->
  api.ShouldBindJSON body = Ok req ->
  filter (targets (id r0)) (cars w) = r0 :: rs ->
  assign (CarRequest.Name req) (CarRequest.Brand req)
    (CarRequest.ManufacturingValue req) = inr (n, b, v) ->
  In r2 (cars w) -> live r2 = true -> id r2 <> id r0 ->
  name r2 = n ->
  api.Status (fst (api.UpdateCar now id_param body w)) = 200
  /\ exists r1,
       In r1 (cars (snd (api.UpdateCar now id_param body w)))
       /\ In r2 (cars (snd (api.UpdateCar now id_param body w)))
       /\ id r1 = id r0 /\ id r1 <> id r2
       /\ live r1 = true /\ live r2 = true
       /\ name r1 = n /\ name r2 = n.
Proof.
  intros Hh Hparse Hpos Hbind Hfl Hk Hin2 Hl2 Hid2 Hn2.
  rewrite (api_UpdateCar_served now id_param body req r0 rs w n b v
             Hh Hparse Hpos Hbind Hfl Hk).
  cbn [fst snd cars api.Status]. split; [reflexivity|].
  destruct (filter_head _ _ _ _ Hfl) as [Hin0 Ht0].
  destruct (targets_id _ _ Ht0) as [_ Hl0].
  exists (replaced now req n b v r0). split.
  - apply in_map_iff. exists r0. split; [|exact Hin0].
    unfold replace_target. now rewrite Ht0.
  - split.
    + apply in_map_iff. exists r2. split; [|exact Hin2].
      unfold replace_target, targets.
      assert (E : (id r2 =? id r0) = false) by now apply Z.eqb_neq.
      now rewrite E.
    + repeat split; auto.
Qed.

(** X16.  A delete of a live car goes through: on a storage without
    pending fault, a DELETE on an identifier that a live row carries is
    answered 204 without a body, after the fetch by id and the soft
    delete, and no live row carries the identifier afterwards. *)
Theorem delete_answers_204
  (now : Time) (id_param : string) (i : Z) (r0 : Row) (rs : list Row) (w : World) :
  healthy w ->
  strconv.ParseInt id_param = (i, None) -> 0 < i ->
  filter (targets i) (cars w) = r0 :: rs ->
  fst (api.DeleteCar now id_param w)
  = {| api.Status := 204; api.Payload := api.NoBody |}
  /\ trace (snd (api.DeleteCar now id_param w))
     = trace w ++ [SelectByID i; SoftDelete now i]
  /\ absent i (snd (api.DeleteCar now id_param w)).
Proof.
  intros Hh Hparse Hpos Hfl.
  assert (Hle : (i <=? 0) = false) by (apply Z.leb_gt; lia).
  pose proof (healthy_next_fault w Hh) as Hf.
  assert (Hf1 : next_fault (sent (SelectByID i) w) = None)
    by (apply healthy_next_fault; now apply healthy_sent).
  assert (E : api.DeleteCar now id_param w
              = ({| api.Status := 204; api.Payload := api.NoBody |},
                 snd (repository.Delete now i (sent (SelectByID i) w)))).
  { unfold api.DeleteCar. rewrite Hparse, Hle. cbn [orb].
    rewrite bind_run. unfold service.DeleteCar. rewrite Hle.
    rewrite bind_run, (GetByID_run _ w Hf), Hfl. cbn [fst snd].
    rewrite bind_run.
    assert (Ed : fst (repository.Delete now i (sent (SelectByID i) w)) = None).
    { rewrite Delete_served by exact Hf1. rewrite sent_cars, Hfl. reflexivity. }
    rewrite Ed. reflexivity. }
  rewrite E. cbn [fst snd]. split; [reflexivity|].
  rewrite (Delete_run now i _ Hf1). cbn [snd trace cars]. split.
  - rewrite sent_trace, <- app_assoc. reflexivity.
  - intros r Hr Hid. rewrite sent_cars in Hr.
    apply in_map_iff in Hr. destruct Hr as (x & <- & Hx).
    rewrite update_row_id in Hid. cbn [update_row]. unfold targets.
    apply Z.eqb_eq in Hid. rewrite Hid. simpl.
    destruct (live x) eqn:El; [reflexivity|exact El].
Qed.

End Mutation.

(* ================================================================== *)
(** * Further properties of the guards and of the status codes *)

Section Guards.
Context {lib : Lib}.

(** X17.  The page and the page size of a request are honoured: with the
    decimal texts of a page of at least 1 and of a page size between 1 and
    100, whose offset is within the int range, a served request is
    answered 200 with that page of that size; a request without the two
    parameters is the request for page 1 of size 10. *)
Theorem paging_parameters_are_honoured (page pageSize : Z) (w : World) :
  1 <= page <= MaxInt64 -> 1 <= pageSize <= 100 ->
  (page - 1) * pageSize <= MaxInt64 ->
  next_fault w = None ->
  api.GetAllCars (Some (fmt_d page)) (Some (fmt_d pageSize)) w
  = ({| api.Status := 200;
        api.Payload :=
          api.JSONCars
            (service.toCarResponses
               (map repository.scan (listPage page pageSize (cars w)))) |},
     sent (SelectPage pageSize ((page - 1) * pageSize)) w)
  /\ api.GetAllCars None None w
     = api.GetAllCars (Some "1"%string) (Some "10"%string) w.
Proof.
  intros Hp Hs Ho Hf. split; [|reflexivity].
  assert (Ip : is_int64 page) by (unfold is_int64, MinInt64, MaxInt64 in *; lia).
  assert (Is_ : is_int64 pageSize) by (unfold is_int64, MinInt64, MaxInt64; lia).
  rewrite api_GetAllCars_run. cbv zeta. cbn [api.DefaultQuery].
  rewrite (Atoi_fmt_d page Ip), (Atoi_fmt_d pageSize Is_). cbn [fst].
  rewrite GetAllCars_run. cbn [fst snd].
  assert (Enp : norm_page page = page).
  { unfold norm_page. destruct (page <? 1) eqn:E1; [apply Z.ltb_lt in E1; lia|].
    reflexivity. }
  assert (Ens : norm_size pageSize = pageSize).
  { unfold norm_size.
    destruct (pageSize <? 1) eqn:E1; [apply Z.ltb_lt in E1; lia|].
    destruct (100 <? pageSize) eqn:E2; [apply Z.ltb_lt in E2; lia|].
    reflexivity. }
  rewrite Enp, Ens.
  rewrite GetAll_served; try assumption; try lia.
  assert (Hw1 : wrap64 (page - 1) = page - 1).
  { apply wrap64_id. unfold is_int64, MinInt64, MaxInt64 in *. lia. }
  assert (Hw2 : wrap64 ((page - 1) * pageSize) = (page - 1) * pageSize).
  { apply wrap64_id. unfold is_int64, MinInt64, MaxInt64 in *. nia. }
  rewrite Hw1, Hw2. reflexivity.
Qed.

(** X18.  The guards of the service come before the storage: a
    non-positive identifier, an empty name, an empty brand, a negative or
    inverted price range and a missing request are each rejected with
    their own error and leave the world as it was, no statement being
    sent. *)
Theorem service_guards_precede_storage
  (now : Time) (i : Z) (req : option CarRequest.t) (lo hi : Q) (w : World) :
  (i <= 0 ->
     service.GetCarByID i w = (Err (errorString "invalid car ID"), w)
     /\ service.UpdateCar now i req w = (Err (errorString "invalid car ID"), w)
     /\ service.DeleteCar now i w = (Some (errorString "invalid car ID"), w))
  /\ service.GetCarByName EmptyString w
     = (Err (errorString "car name cannot be empty"), w)
  /\ service.GetCarsByBrand EmptyString w
     = (Err (errorString "brand name cannot be empty"), w)
  /\ ((lo < 0 \/ hi < 0 \/ hi < lo)%Q ->
      service.GetCarsByPriceRange lo hi w
      = (Err (errorString "invalid price range"), w))
  /\ service.CreateCar now None w
     = (Err (errorString "request cannot be nil"), w)
  /\ (0 < i ->
      service.UpdateCar now i None w
      = (Err (errorString "request cannot be nil"), w)).
Proof.
  split; [|split; [|split; [|split; [|split]]]]; try reflexivity.
  - intros Hi. apply Z.leb_le in Hi.
    unfold service.GetCarByID, service.UpdateCar, service.DeleteCar.
    rewrite Hi. repeat split.
  - intros H. unfold service.GetCarsByPriceRange.
    assert (E : negb (Qle_bool 0 lo) || negb (Qle_bool 0 hi)
                || negb (Qle_bool lo hi) = true).
    { destruct (Qle_bool 0 lo) eqn:E1; [|reflexivity].
      destruct (Qle_bool 0 hi) eqn:E2; [|reflexivity].
      destruct (Qle_bool lo hi) eqn:E3; [|reflexivity].
      apply Qle_bool_iff in E1, E2, E3. exfalso.
      destruct H as [H|[H|H]].
      - exact (Qlt_not_le _ _ H E1).
      - exact (Qlt_not_le _ _ H E2).
      - exact (Qlt_not_le _ _ H E3). }
    rewrite E. reflexivity.
  - intros Hi. unfold service.UpdateCar.
    assert (E : (i <=? 0) = false) by (apply Z.leb_gt; lia).
    rewrite E. reflexivity.
Qed.

Lemma binding_passes (req : CarRequest.t) :
  service.validateCarRequest (Some req) = None -> api.binding_failures req = [].
Proof.
  unfold service.validateCarRequest, api.binding_failures.
  destruct (String.eqb (CarRequest.Name req) EmptyString); [discriminate|].
  destruct (String.eqb (CarRequest.Brand req) EmptyString); [discriminate|].
  destruct (Qle_bool (CarRequest.ManufacturingValue req) 0) eqn:E1; [discriminate|].
  destruct (Qle_bool (15000000 # 1) (CarRequest.ManufacturingValue req));
    [discriminate|].
  intros _. cbv zeta.
  destruct (Qeq_bool (CarRequest.ManufacturingValue req) 0) eqn:E0;
    [|reflexivity].
  exfalso. apply Qeq_bool_iff in E0.
  assert (Hle : Qle_bool (CarRequest.ManufacturingValue req) 0 = true).
  { apply Qle_bool_iff. rewrite E0. apply Qle_refl. }
  congruence.
Qed.

(** X19.  The binding tags of the request and the validation of the
    service accept the same requests: a decoded body binds exactly when
    the service would validate it, so that behind the handlers the
    validation of the service never rejects a create or an update. *)
Theorem binding_and_validation_agree (req : CarRequest.t) :
  api.ShouldBindJSON (api.Decoded req) = Ok req
  <-> service.validateCarRequest (Some req) = None.
Proof.
  split.
  - apply bound_is_valid.
  - intros H. unfold api.ShouldBindJSON. now rewrite (binding_passes req H).
Qed.

(** X20.  A request answered 400 has reached no storage: whenever one of
    the handlers of create, get by id, get by name, list by brand, update
    and delete answers 400, the world is as it was, no statement having
    been sent; and an identifier text that does not parse, or is not
    positive, is answered 400. *)
Theorem bad_request_reaches_no_storage
  (now : Time) (id_param name b : string) (body : api.JSON) (w : World) :
  (api.Status (fst (api.CreateCar now body w)) = 400 ->
     snd (api.CreateCar now body w) = w)
  /\ (api.Status (fst (api.GetCarByID id_param w)) = 400 ->
        snd (api.GetCarByID id_param w) = w)
  /\ (api.Status (fst (api.GetCarByName name w)) = 400 ->
        snd (api.GetCarByName name w) = w)
  /\ (api.Status (fst (api.GetCarsByBrand b w)) = 400 ->
        snd (api.GetCarsByBrand b w) = w)
  /\ (api.Status (fst (api.UpdateCar now id_param body w)) = 400 ->
        snd (api.UpdateCar now id_param body w) = w)
  /\ (api.Status (fst (api.DeleteCar now id_param w)) = 400 ->
        snd (api.DeleteCar now id_param w) = w)
  /\ (snd (strconv.ParseInt id_param) <> None
      \/ fst (strconv.ParseInt id_param) <= 0 ->
      api.GetCarByID id_param w
      = (api.handleError 400 "Invalid car ID" (snd (strconv.ParseInt id_param)), w)
      /\ api.Status (fst (api.UpdateCar now id_param body w)) = 400
      /\ api.Status (fst (api.DeleteCar now id_param w)) = 400).
Proof.
  split; [|split; [|split; [|split; [|split; [|split]]]]].
  - unfold api.CreateCar. destruct (api.ShouldBindJSON body); [|reflexivity].
    rewrite bind_run. destruct (fst (service.CreateCar _ _ w)); simpl; discriminate.
  - unfold api.GetCarByID. destruct (strconv.ParseInt id_param) as [i err].
    destruct (_ || _); [reflexivity|].
    rewrite bind_run. destruct (fst (service.GetCarByID i w)) as [c|e];
      [simpl; discriminate|].
    destruct (Is e ErrNoRows); simpl; discriminate.
  - unfold api.GetCarByName. destruct (String.eqb name EmptyString); [reflexivity|].
    rewrite bind_run. destruct (fst (service.GetCarByName name w)) as [c|e];
      [simpl; discriminate|].
    destruct (Is e ErrNoRows); simpl; discriminate.
  - unfold api.GetCarsByBrand. destruct (String.eqb b EmptyString); [reflexivity|].
    rewrite bind_run. destruct (fst (service.GetCarsByBrand b w));
      simpl; discriminate.
  - unfold api.UpdateCar. destruct (strconv.ParseInt id_param) as [i err].
    destruct (_ || _); [reflexivity|].
    destruct (api.ShouldBindJSON body) as [req|e0]; [|reflexivity].
    rewrite bind_run. destruct (fst (service.UpdateCar _ _ _ w)) as [c|e];
      [simpl; discriminate|].
    destruct (Is e ErrNoRows); simpl; discriminate.
  - unfold api.DeleteCar. destruct (strconv.ParseInt id_param) as [i err].
    destruct (_ || _); [reflexivity|].
    rewrite bind_run. destruct (fst (service.DeleteCar _ _ w)) as [e|];
      [|simpl; discriminate].
    destruct (Is e ErrNoRows); simpl; discriminate.
  - intros H. unfold api.GetCarByID, api.UpdateCar, api.DeleteCar.
    destruct (strconv.ParseInt id_param) as [i err]. cbn [fst snd] in *.
    assert (E : (match err with Some _ => true | None => false end)
                || (i <=? 0) = true).
    { destruct err as [e|]; [reflexivity|]. destruct H as [H|H]; [congruence|].
      apply Z.leb_le in H. now rewrite H. }
    rewrite E. repeat split.
Qed.

(** X21.  Each handler answers with one of its own status codes, whatever
    the request and whatever the storage does: 201, 400 or 500 for a
    create, 200, 400 or 500 for a get by id, a get by name, a list by
    brand and an update, 200 or 500 for the paged list, 204, 400 or 500
    for a delete. *)
Theorem handlers_answer_known_statuses
  (now : Time) (id_param name b : string) (pq sq : option string)
  (body : api.JSON) (w : World) :
  In (api.Status (fst (api.CreateCar now body w))) [201; 400; 500]
  /\ In (api.Status (fst (api.GetCarByID id_param w))) [200; 400; 500]
  /\ In (api.Status (fst (api.GetCarByName name w))) [200; 400; 500]
  /\ In (api.Status (fst (api.GetCarsByBrand b w))) [200; 400; 500]
  /\ In (api.Status (fst (api.GetAllCars pq sq w))) [200; 500]
  /\ In (api.Status (fst (api.UpdateCar now id_param body w))) [200; 400; 500]
  /\ In (api.Status (fst (api.DeleteCar now id_param w))) [204; 400; 500].
Proof.
  split; [|split; [|split; [|split; [|split; [|split]]]]].
  - unfold api.CreateCar. destruct (api.ShouldBindJSON body); [|simpl; auto].
    rewrite bind_run. destruct (fst (service.CreateCar _ _ w)); simpl; auto.
  - unfold api.GetCarByID. destruct (strconv.ParseInt id_param) as [i err].
    destruct (_ || _); [simpl; auto|].
    rewrite bind_run. destruct (fst (service.GetCarByID i w)) as [c|e] eqn:E;
      [simpl; auto|].
    rewrite (GetCarByID_error_fresh i w e E). simpl; auto.
  - unfold api.GetCarByName.
    destruct (String.eqb name EmptyString); [simpl; auto|].
    rewrite bind_run. destruct (fst (service.GetCarByName name w)) as [c|e] eqn:E;
      [simpl; auto|].
    rewrite (GetCarByName_error_fresh name w e E). simpl; auto.
  - unfold api.GetCarsByBrand. destruct (String.eqb b EmptyString); [simpl; auto|].
    rewrite bind_run. destruct (fst (service.GetCarsByBrand b w)); simpl; auto.
  - rewrite api_GetAllCars_run. cbv zeta. cbn [fst].
    destruct (fst (service.GetAllCars _ _ w)); simpl; auto.
  - unfold api.UpdateCar. destruct (strconv.ParseInt id_param) as [i err].
    destruct (_ || _); [simpl; auto|].
    destruct (api.ShouldBindJSON body) as [req|e0]; [|simpl; auto].
    rewrite bind_run.
    destruct (fst (service.UpdateCar now i (Some req) w)) as [c|e] eqn:E;
      [simpl; auto|].
    rewrite (UpdateCar_error_fresh now i (Some req) w e E). simpl; auto.
  - unfold api.DeleteCar. destruct (strconv.ParseInt id_param) as [i err].
    destruct (_ || _); [simpl; auto|].
    rewrite bind_run. destruct (fst (service.DeleteCar now i w)) as [e|] eqn:E;
      [|simpl; auto].
    rewrite (DeleteCar_error_fresh now i w e E). simpl; auto.
Qed.

End Guards.

(* ================================================================== *)
(** * Further properties of the reads *)

Section Reads.
Context {lib : Lib}.

Lemma unique_name (t : list Row) (r : Row) :
  In r t -> live r = true ->
  (forall r', In r' t -> live r' = true -> name r' = name r -> r' = r) ->
  exists rs,
    filter (fun x => String.eqb (name x) (name r) && live x) t = r :: rs.
Proof.
  intros Hin Hl Huniq.
  destruct (filter (fun x => String.eqb (name x) (name r) && live x) t)
    as [|x rs] eqn:E.
  - exfalso.
    assert (Hf : In r (filter (fun x => String.eqb (name x) (name r) && live x) t)).
    { apply filter_In. split; [exact Hin|]. now rewrite String.eqb_refl, Hl. }
    rewrite E in Hf. destruct Hf.
  - destruct (filter_head _ _ _ _ E) as [Hx Hb].
    apply andb_prop in Hb. destruct Hb as [Hn Hlx].
    apply String.eqb_eq in Hn. rewrite (Huniq x Hx Hlx Hn) in *. eauto.
Qed.

(** X22.  A live car is found by its identifier and by its name: under the
    primary key, a served GET with the decimal text of the identifier of a
    live row is answered 200 with that row; a served GET by a non-empty
    name that a single live row has is answered 200 with that row. *)
Theorem live_car_is_found (r : Row) (w : World) :
  keyed w -> next_fault w = None ->
  In r (cars w) -> live r = true -> id r <= MaxInt64 ->
  api.GetCarByID (fmt_d (id r)) w
  = ({| api.Status := 200;
        api.Payload := api.JSONCar (ToResponse (repository.scan r)) |},
     sent (SelectByID (id r)) w)
  /\ (name r <> EmptyString ->
      (forall r', In r' (cars w) -> live r' = true -> name r' = name r -> r' = r) ->
      api.GetCarByName (name r) w
      = ({| api.Status := 200;
            api.Payload := api.JSONCar (ToResponse (repository.scan r)) |},
         sent (SelectByName (name r)) w)).
Proof.
  intros [[Hpos Hall] Hnd] Hf Hin Hl Hmax.
  assert (Hid : 0 < id r).
  { rewrite Forall_forall in Hall. specialize (Hall r Hin). lia. }
  assert (Hi : is_int64 (id r)).
  { unfold is_int64, MinInt64, MaxInt64 in *. lia. }
  assert (Hle : (id r <=? 0) = false) by (apply Z.leb_gt; lia).
  split.
  - unfold api.GetCarByID. rewrite (ParseInt_fmt_d _ Hi), Hle. cbn [orb].
    rewrite bind_run. unfold service.GetCarByID. rewrite Hle, bind_run.
    rewrite GetByID_run by exact Hf.
    rewrite (unique_target (cars w) r Hnd Hin Hl). reflexivity.
  - intros Hne Huniq.
    assert (En : String.eqb (name r) EmptyString = false).
    { destruct (String.eqb (name r) EmptyString) eqn:E; [|reflexivity].
      apply String.eqb_eq in E. contradiction. }
    destruct (unique_name (cars w) r Hin Hl Huniq) as [rs Hfl].
    unfold api.GetCarByName. rewrite En, bind_run.
    unfold service.GetCarByName. rewrite En, bind_run.
    rewrite GetByName_run by exact Hf. rewrite Hfl. reflexivity.
Qed.

(** X23.  The price-range service lists the range: for bounds with
    0 <= min <= max and a served query, it returns the renderings of
    exactly the live rows whose value lies between the bounds, the bounds
    included, in the order of the table. *)
Theorem price_range_service_lists_the_range (minPrice maxPrice : Q) (w : World) :
  (0 <= minPrice)%Q -> (minPrice <= maxPrice)%Q -> next_fault w = None ->
  service.GetCarsByPriceRange minPrice maxPrice w
  = (Ok (map ToResponse
           (map repository.scan
              (filter (fun r => (Qle_bool minPrice (manufacturing_value r)
                                 && Qle_bool (manufacturing_value r) maxPrice)
                                && live r) (cars w)))),
     sent (SelectByPriceRange minPrice maxPrice) w).
Proof.
  intros H0 Hle Hf. unfold service.GetCarsByPriceRange.
  assert (H0' : (0 <= maxPrice)%Q) by (eapply Qle_trans; eauto).
  apply Qle_bool_iff in H0, Hle, H0'. rewrite H0, Hle, H0'. cbn [negb orb].
  rewrite bind_run, GetByPriceRange_world. unfold repository.GetByPriceRange.
  rewrite list_query_served by exact Hf. reflexivity.
Qed.

End Reads.

(* ================================================================== *)
(** * Further properties of failures and of the configuration *)

Section Failures.
Context {lib : Lib}.


End Failures.

Section Configuration.

(** X25.  The configuration reads a variable that is set, even to the
    empty text, and falls back to its default only when the variable is
    unset; the integer reader returns the number whose decimal text the
    variable holds, and the default when the variable is unset, empty, or
    holds a text of at most 20 bytes that is no decimal integer. *)
Theorem environment_overrides_defaults
  (env : config.Env) (key d : string) (k : Z) :
  (env key = None -> config.getEnv env key d = d)
  /\ (forall v, env key = Some v -> config.getEnv env key d = v)
  /\ (env key = None -> config.getEnvAsInt env key k = k)
  /\ (env key = Some EmptyString -> config.getEnvAsInt env key k = k)
  /\ (forall i, is_int64 i -> env key = Some (fmt_d i) ->
        config.getEnvAsInt env key k = i)
  /\ (forall v, env key = Some v -> numeric v = false ->
        (String.length v <= 20)%nat -> config.getEnvAsInt env key k = k)
  /\ (forall v, env "SERVER_PORT"%string = Some v ->
        exists cfg, config.LoadConfig env = Ok cfg /\ config.ServerPort cfg = v)
  /\ ((forall x, env x = None) ->
      config.LoadConfig env
      = Ok {| config.ServerPort := "8080";
              config.DBHost := "localhost";
              config.DBPort := "5432";
              config.DBUser := "john";
              config.DBPassword := "doe";
              config.DBName := "car_service";
              config.DBSSLMode := "disable";
              config.JWTSecret := "your-secret-key";
              config.Environment := "development" |}).
Proof.
  unfold config.getEnvAsInt, config.LoadConfig, config.getEnv.
  split; [|split; [|split; [|split; [|split; [|split; [|split]]]]]].
  - intros ->. reflexivity.
  - intros v ->. reflexivity.
  - intros ->. reflexivity.
  - intros ->. reflexivity.
  - intros i Hi ->. cbv zeta. now rewrite (Atoi_fmt_d i Hi).
  - intros v -> Hv Hl. cbv zeta. now rewrite (Atoi_syntax v Hv Hl).
  - intros v ->. eexists. split; reflexivity.
  - intros H. now rewrite !H.
Qed.

End Configuration.

(* ================================================================== *)
(** * The further properties on concrete requests *)

Lemma garage_keyed : keyed garage.
Proof.
  split; [apply garage_wf|]. simpl.
  repeat constructor; simpl; intuition discriminate.
Qed.

Lemma garage_healthy : healthy garage.
Proof. reflexivity. Qed.

Lemma primary_key_is_kept_witness :
  keyed garage
  /\ keyed (run_all [ Create 310 (ToModel (request "Model S" "Tesla" (81000 # 1)));
                      Delete 320 2;
                      Create 330 (ToModel (request "Model 3" "Tesla" (46990 # 1))) ]
              garage).
Proof.
  split; [apply garage_keyed|].
  apply primary_key_is_kept. apply garage_keyed.
Defined.

Lemma lookup_finds_the_row_witness :
  keyed garage /\ next_fault garage = None
  /\ In (row 2 "Model 3" "Tesla" (46990 # 1) None) (cars garage)
  /\ live (row 2 "Model 3" "Tesla" (46990 # 1) None) = true
  /\ repository.GetByID 2 garage
     = (Ok (repository.scan (row 2 "Model 3" "Tesla" (46990 # 1) None)),
        sent (SelectByID 2) garage).
Proof.
  assert (Hin : In (row 2 "Model 3" "Tesla" (46990 # 1) None) (cars garage))
    by (right; now left).
  split; [apply garage_keyed|]. split; [reflexivity|].
  split; [exact Hin|]. split; [reflexivity|].
  exact (lookup_finds_the_row (row 2 "Model 3" "Tesla" (46990 # 1) None) garage
           garage_keyed eq_refl Hin eq_refl).
Defined.

Lemma delete_hides_exactly_its_target_witness :
  healthy garage
  /\ fst (repository.Delete 300 1 garage) = None
  /\ filter live (cars (snd (repository.Delete 300 1 garage)))
     = [row 2 "Model 3" "Tesla" (46990 # 1) None]
  /\ fst (repository.GetByID 2 (snd (repository.Delete 300 1 garage)))
     = fst (repository.GetByID 2 garage).
Proof.
  destruct (delete_hides_exactly_its_target 300 1 garage garage_healthy eq_refl)
    as (H1 & H2 & _).
  split; [reflexivity|]. split; [reflexivity|]. split.
  - rewrite H1. reflexivity.
  - apply H2. lia.
Defined.

Lemma page_past_the_end_is_empty_witness :
  1 <= 2 /\ 1 <= 10 /\ (2 - 1) * 10 <= MaxInt64 /\ next_fault garage = None
  /\ Z.of_nat (List.length (filter live (cars garage))) <= (2 - 1) * 10
  /\ fst (repository.GetAll 2 10 garage) = Ok []
  /\ fst (service.GetAllCars 2 10 garage) = Ok [].
Proof.
  assert (Hm : (2 - 1) * 10 <= MaxInt64) by (unfold MaxInt64; lia).
  assert (Hl : Z.of_nat (List.length (filter live (cars garage))) <= (2 - 1) * 10)
    by (simpl; lia).
  destruct (page_past_the_end_is_empty 2 10 garage ltac:(lia) ltac:(lia)
              Hm eq_refl Hl) as [H1 H2].
  split; [lia|]. split; [lia|]. split; [exact Hm|]. split; [reflexivity|].
  split; [exact Hl|]. split; [exact H1|]. apply H2. lia.
Defined.

Lemma pages_read_in_turn_witness :
  1 <= 10 /\ Z.of_nat 3 * 10 <= MaxInt64 /\ next_fault fleet = None
  /\ flat_map (fun p => match fst (repository.GetAll (Z.of_nat p) 10 fleet) with
                        | Ok found => found
                        | Err _ => []
                        end) (seq 1 3)
     = map repository.scan
         (firstn (3 * Z.to_nat 10) (order_by_id (filter live (cars fleet)))).
Proof.
  assert (Hm : Z.of_nat 3 * 10 <= MaxInt64) by (unfold MaxInt64; simpl; lia).
  split; [lia|]. split; [exact Hm|]. split; [reflexivity|].
  exact (pages_read_in_turn 3 10 fleet ltac:(lia) Hm eq_refl).
Defined.

Lemma brand_list_is_exact_witness :
  "Ford"%string <> EmptyString /\ next_fault garage = None
  /\ fst (api.GetCarsByBrand "Ford" garage)
     = {| api.Status := 200; api.Payload := api.JSONCars [] |}
  /\ api.Status (fst (api.GetCarsByBrand "Kia" garage)) = 200.
Proof.
  assert (Hf : "Ford"%string <> EmptyString) by discriminate.
  assert (Hk : "Kia"%string <> EmptyString) by discriminate.
  destruct (brand_list_is_exact "Ford" garage Hf eq_refl) as [_ H].
  destruct (brand_list_is_exact "Kia" garage Hk eq_refl) as [E _].
  split; [exact Hf|]. split; [reflexivity|]. split.
  - apply H. intros r Hr Hb.
    destruct Hr as [<-|[<-|[<-|[]]]]; simpl in Hb; discriminate.
  - rewrite E. reflexivity.
Defined.

Lemma garage_free_of_model_y : name_free "Model Y" garage.
Proof. apply name_free_filter. reflexivity. Qed.

Lemma garage_sequence : cars_id_seq garage <= MaxInt64.
Proof. unfold MaxInt64. simpl. lia. Qed.

Lemma model_y_is_kept :
  assign "Model Y" "Tesla" (53990126 # 1000)
  = inr ("Model Y"%string, "Tesla"%string, 5399013 # 100).
Proof. vm_compute. reflexivity. Qed.


Lemma created_car_can_be_fetched_witness :
  healthy garage /\ wf garage /\ cars_id_seq garage <= MaxInt64
  /\ api.ShouldBindJSON (api.Decoded (request "Model Y" "Tesla" (53990126 # 1000)))
     = Ok (request "Model Y" "Tesla" (53990126 # 1000))
  /\ name_free "Model Y" garage
  /\ assign "Model Y" "Tesla" (53990126 # 1000)
     = inr ("Model Y"%string, "Tesla"%string, 5399013 # 100)
  /\ fmt_d (cars_id_seq garage) = "4"%string
  /\ api.Status (fst (api.GetCarByID "4"
       (snd (api.CreateCar 200
               (api.Decoded (request "Model Y" "Tesla" (53990126 # 1000)))
               garage))))
     = 200.
Proof.
  destruct (created_car_can_be_fetched 200
              (api.Decoded (request "Model Y" "Tesla" (53990126 # 1000)))
              (request "Model Y" "Tesla" (53990126 # 1000)) garage
              "Model Y" "Tesla" (5399013 # 100)
              garage_healthy garage_wf garage_sequence eq_refl
              garage_free_of_model_y model_y_is_kept) as (_ & H1 & _).
  split; [reflexivity|]. split; [apply garage_wf|].
  split; [apply garage_sequence|]. split; [reflexivity|].
  split; [apply garage_free_of_model_y|].
  split; [apply model_y_is_kept|]. split; [reflexivity|]. exact H1.
Defined.

Lemma failed_refetch_leaves_the_row_witness :
  faults stalled = [None; None; Some (FailStmt "connection reset")]
  /\ cars_id_seq stalled <= MaxInt64
  /\ api.ShouldBindJSON (api.Decoded (request "Model Y" "Tesla" (53990126 # 1000)))
     = Ok (request "Model Y" "Tesla" (53990126 # 1000))
  /\ name_free "Model Y" stalled
  /\ assign "Model Y" "Tesla" (53990126 # 1000)
     = inr ("Model Y"%string, "Tesla"%string, 5399013 # 100)
  /\ api.Status (fst (api.CreateCar 200
                        (api.Decoded (request "Model Y" "Tesla" (53990126 # 1000)))
                        stalled)) = 500
  /\ cars (snd (api.CreateCar 200
                  (api.Decoded (request "Model Y" "Tesla" (53990126 # 1000)))
                  stalled))
     = cars stalled
       ++ [{| id := 4; name := "Model Y"; brand := "Tesla";
              manufacturing_value := 5399013 # 100; description := None;
              created_at := 200; updated_at := 200; deleted_at := None |}].
Proof.
  assert (Hn : name_free "Model Y" stalled)
    by (apply name_free_filter; reflexivity).
  destruct (failed_refetch_leaves_the_row 200
              (api.Decoded (request "Model Y" "Tesla" (53990126 # 1000)))
              (request "Model Y" "Tesla" (53990126 # 1000)) stalled
              "connection reset" [] "Model Y" "Tesla" (5399013 # 100)
              eq_refl garage_sequence eq_refl Hn model_y_is_kept)
    as (H1 & H2).
  split; [reflexivity|]. split; [apply garage_sequence|].
  split; [reflexivity|]. split; [exact Hn|].
  split; [apply model_y_is_kept|]. split.
  - rewrite H1. reflexivity.
  - exact H2.
Defined.


Lemma model_s_is_kept :
  assign "Model S" "Tesla" (51990 # 1)
  = inr ("Model S"%string, "Tesla"%string, 51990 # 1).
Proof. vm_compute. reflexivity. Qed.


Lemma update_can_duplicate_a_name_witness :
  healthy garage /\ strconv.ParseInt "2" = (2, None) /\ 0 < 2
  /\ api.ShouldBindJSON (api.Decoded (request "Model S" "Tesla" (51990 # 1)))
     = Ok (request "Model S" "Tesla" (51990 # 1))
  /\ filter (targets 2) (cars garage)
     = [row 2 "Model 3" "Tesla" (46990 # 1) None]
  /\ assign "Model S" "Tesla" (51990 # 1)
     = inr ("Model S"%string, "Tesla"%string, 51990 # 1)
  /\ In (row 1 "Model S" "Tesla" (79990 # 1) None) (cars garage)
  /\ api.Status (fst (api.UpdateCar 500 "2"
                        (api.Decoded (request "Model S" "Tesla" (51990 # 1)))
                        garage)) = 200
  /\ exists r1,
       In r1 (cars (snd (api.UpdateCar 500 "2"
                           (api.Decoded (request "Model S" "Tesla" (51990 # 1)))
                           garage)))
       /\ id r1 = 2 /\ live r1 = true /\ name r1 = "Model S"%string.
Proof.
  assert (Hin : In (row 1 "Model S" "Tesla" (79990 # 1) None) (cars garage))
    by now left.
  destruct (update_can_duplicate_a_name 500 "2"
              (api.Decoded (request "Model S" "Tesla" (51990 # 1)))
              (request "Model S" "Tesla" (51990 # 1))
              (row 2 "Model 3" "Tesla" (46990 # 1) None)
              (row 1 "Model S" "Tesla" (79990 # 1) None) [] garage
              "Model S" "Tesla" (51990 # 1)
              garage_healthy eq_refl ltac:(simpl; lia) eq_refl eq_refl
              model_s_is_kept
              Hin eq_refl ltac:(simpl; lia) eq_refl)
    as (H1 & r1 & Hr1 & _ & Hid & _ & Hl & _ & Hn & _).
  split; [reflexivity|]. split; [reflexivity|]. split; [lia|].
  split; [reflexivity|]. split; [reflexivity|].
  split; [apply model_s_is_kept|]. split; [exact Hin|].
  split; [exact H1|]. exists r1. auto.
Defined.

Lemma delete_answers_204_witness :
  healthy garage /\ strconv.ParseInt "2" = (2, None) /\ 0 < 2
  /\ filter (targets 2) (cars garage)
     = [row 2 "Model 3" "Tesla" (46990 # 1) None]
  /\ fst (api.DeleteCar 500 "2" garage)
     = {| api.Status := 204; api.Payload := api.NoBody |}
  /\ absent 2 (snd (api.DeleteCar 500 "2" garage)).
Proof.
  destruct (delete_answers_204 500 "2" 2
              (row 2 "Model 3" "Tesla" (46990 # 1) None) [] garage
              garage_healthy eq_refl ltac:(lia) eq_refl) as (H1 & _ & H3).
  split; [reflexivity|]. split; [reflexivity|]. split; [lia|].
  split; [reflexivity|]. split; [exact H1|exact H3].
Defined.

Lemma paging_parameters_are_honoured_witness :
  1 <= 2 <= MaxInt64 /\ 1 <= 1 <= 100 /\ (2 - 1) * 1 <= MaxInt64
  /\ next_fault garage = None
  /\ fmt_d 2 = "2"%string /\ fmt_d 1 = "1"%string
  /\ fst (api.GetAllCars (Some "2"%string) (Some "1"%string) garage)
     = {| api.Status := 200;
          api.Payload :=
            api.JSONCars
              (service.toCarResponses
                 (map repository.scan (listPage 2 1 (cars garage)))) |}.
Proof.
  assert (H2 : 1 <= 2 <= MaxInt64) by (unfold MaxInt64; lia).
  assert (Hm : (2 - 1) * 1 <= MaxInt64) by (unfold MaxInt64; lia).
  destruct (paging_parameters_are_honoured 2 1 garage H2 ltac:(lia) Hm eq_refl)
    as [E _].
  split; [exact H2|]. split; [lia|]. split; [exact Hm|]. split; [reflexivity|].
  split; [reflexivity|]. split; [reflexivity|].
  change (Some "2"%string) with (Some (fmt_d 2)).
  change (Some "1"%string) with (Some (fmt_d 1)).
  rewrite E. reflexivity.
Defined.

Lemma live_car_is_found_witness :
  keyed garage /\ next_fault garage = None
  /\ In (row 1 "Model S" "Tesla" (79990 # 1) None) (cars garage)
  /\ fmt_d 1 = "1"%string
  /\ api.Status (fst (api.GetCarByID "1" garage)) = 200
  /\ api.Payload (fst (api.GetCarByID "1" garage))
     = api.JSONCar
         (ToResponse
            (repository.scan (row 1 "Model S" "Tesla" (79990 # 1) None))).
Proof.
  assert (Hin : In (row 1 "Model S" "Tesla" (79990 # 1) None) (cars garage))
    by now left.
  destruct (live_car_is_found (row 1 "Model S" "Tesla" (79990 # 1) None) garage
              garage_keyed eq_refl Hin eq_refl
              ltac:(unfold MaxInt64; simpl; lia)) as [E _].
  split; [apply garage_keyed|]. split; [reflexivity|]. split; [exact Hin|].
  split; [reflexivity|].
  change "1"%string with (fmt_d (id (row 1 "Model S" "Tesla" (79990 # 1) None))).
  rewrite E. split; reflexivity.
Defined.

Lemma price_range_service_lists_the_range_witness :
  (0 <= 40000 # 1)%Q /\ (40000 # 1 <= 50000 # 1)%Q /\ next_fault garage = None
  /\ fst (service.GetCarsByPriceRange (40000 # 1) (50000 # 1) garage)
     = Ok [ToResponse
             (repository.scan (row 2 "Model 3" "Tesla" (46990 # 1) None))].
Proof.
  assert (H0 : (0 <= 40000 # 1)%Q) by (unfold Qle; simpl; lia).
  assert (H1 : (40000 # 1 <= 50000 # 1)%Q) by (unfold Qle; simpl; lia).
  split; [exact H0|]. split; [exact H1|]. split; [reflexivity|].
  rewrite (price_range_service_lists_the_range _ _ garage H0 H1 eq_refl).
  reflexivity.
Defined.

